(** * Vector-aware precipitation outlier detection

    Shallow embedding of the detection pipeline of the
    [OutlierDetection] component (magnitude screening, spatial
    neighbour search, wind-vector consistency, confidence scoring and
    ranking), and the properties of it that the specification states;
    then of what surrounds the pipeline (the statistics card, the
    results dashboard and its export, the data overview, the upload
    panel and the page that holds them), with properties of those.

    JavaScript numbers are IEEE 754 binary64 values; they are modelled
    by Rocq's primitive floats, whose operations are the same
    correctly rounded binary64 operations.  [Math.cos] and [Math.sin]
    have no counterpart and are parameters of the development. *)

From Stdlib Require Import String Ascii DecimalString.
From Stdlib Require Import List ZArith Floats Bool Lia.
From Stdlib Require Import Permutation Sorted.
Import ListNotations.

Set Warnings "-inexact-float".
Open Scope float_scope.

(** ** JavaScript numbers and arrays *)

Module JS.

Definition number := float.

(** [Math.PI], the binary64 value nearest to pi. *)
Definition Math_PI : number := 0x1.921fb54442d18p+1.

Definition Math_sqrt (x : number) : number := PrimFloat.sqrt x.

Definition Math_abs (x : number) : number := PrimFloat.abs x.

(** [Math.pow(x, 2)]: every call of [Math.pow] in the component has
    the literal exponent 2; the square is the rounded product. *)
Definition Math_pow2 (x : number) : number := x * x.

(** An array length read as a number. *)
Definition of_length (n : nat) : number :=
  PrimFloat.of_uint63 (Uint63.of_Z (Z.of_nat n)).

(** [xs.map((x, index) => f(x, index))] *)
Fixpoint mapi_from {A B : Type} (f : A -> nat -> B) (i : nat) (xs : list A) : list B :=
  match xs with
  | [] => []
  | x :: xs' => f x i :: mapi_from f (S i) xs'
  end.

Definition mapi {A B : Type} (f : A -> nat -> B) (xs : list A) : list B :=
  mapi_from f 0 xs.

(** [xs.reduce((acc, x) => f(acc, x), init)] *)
Definition reduce {A B : Type} (f : B -> A -> B) (init : B) (xs : list A) : B :=
  fold_left f xs init.

(** [xs.sort(compareFn)].  The sort is stable: an element moves
    behind a later one only when [compareFn] returns a number greater
    than zero for the pair; a comparator result that is [NaN] counts
    as zero.  For a consistent comparator every stable sort returns
    this list.  For a comparator that is not consistent (one that
    returns [NaN] for some pairs only) the language leaves the order
    to the engine: this list is then one of the permutations an
    engine may return, and what is stated about the order of a sorted
    array is stated for consistent comparators. *)
Fixpoint sort_insert {A : Type} (compareFn : A -> A -> number) (x : A) (sorted : list A) : list A :=
  match sorted with
  | [] => [x]
  | y :: rest =>
      if 0 <? compareFn x y then y :: sort_insert compareFn x rest
      else x :: sorted
  end.

Definition sort {A : Type} (compareFn : A -> A -> number) (xs : list A) : list A :=
  fold_right (sort_insert compareFn) [] xs.

(** [isNaN(x)] of a number. *)
Definition isNaN (x : number) : bool := is_nan x.

(** [x || y] of numbers: [x] unless it is falsy, which a number is
    when it is a zero of either sign or [NaN]. *)
Definition or_else (x y : number) : number :=
  if (x =? 0) || is_nan x then y else x.

Definition is_pos_zero (x : number) : bool :=
  match classify x with PZero => true | _ => false end.

Definition is_neg_zero (x : number) : bool :=
  match classify x with NZero => true | _ => false end.

(** [Math.min(...values)], by the steps of the language definition:
    [lowest] starts at positive infinity; a [NaN] among the values is
    the result; negative zero replaces a positive zero; a smaller
    value replaces [lowest]. *)
Fixpoint min_loop (lowest : number) (coerced : list number) : number :=
  match coerced with
  | [] => lowest
  | x :: rest =>
      if is_nan x then nan
      else
        let lowest := if is_neg_zero x && is_pos_zero lowest then neg_zero else lowest in
        let lowest := if x <? lowest then x else lowest in
        min_loop lowest rest
  end.

Definition Math_min (values : list number) : number := min_loop infinity values.

(** [Math.max(...values)], likewise from negative infinity. *)
Fixpoint max_loop (highest : number) (coerced : list number) : number :=
  match coerced with
  | [] => highest
  | x :: rest =>
      if is_nan x then nan
      else
        let highest := if is_pos_zero x && is_neg_zero highest then 0 else highest in
        let highest := if highest <? x then x else highest in
        max_loop highest rest
  end.

Definition Math_max (values : list number) : number := max_loop neg_infinity values.

(** [xs.join(separator)] of an array of strings. *)
Definition join (separator : string) (xs : list string) : string :=
  String.concat separator xs.

End JS.

Import JS.

(** ** Data model *)

Record ClimateData := mkClimateData {
  lat : number;
  lon : number;
  year : number;
  month : number;
  date : number;
  ws10m : number;
  wd10m : number;
  qv2m : number;
  prec : number
}.

Record DetectionConfig := mkDetectionConfig {
  zScoreThreshold : number;
  madThreshold : number;
  spatialRadius : number;
  enableSeasonalDecomposition : bool;
  enableDirectionalConsistency : bool;
  minimumNeighbors : number
}.

(** The initial state of the configuration panel. *)
Definition defaultConfig : DetectionConfig :=
  {| zScoreThreshold := 2.5;
     madThreshold := 3.0;
     spatialRadius := 0.5;
     enableSeasonalDecomposition := true;
     enableDirectionalConsistency := true;
     minimumNeighbors := 3 |}.

(** An element of [magnitudeOutliers]: [{...point, index, zScore, isOutlier}]. *)
Record ScoredPoint := mkScoredPoint {
  point :> ClimateData;
  index : nat;
  zScore : number;
  isOutlier : bool
}.

(** An element of [validatedAnomalies]: the candidate's fields and the
    five fields added by the validation loop. *)
Record Anomaly := mkAnomaly {
  candidate :> ScoredPoint;
  neighbors : nat;
  directionalConsistency : option number;
  isDirectionallyCoherent : option bool;
  isTrueAnomaly : bool;
  confidence : number
}.

Record WindVector := mkWindVector { u : number; v : number }.

Record Consistency := mkConsistency { consistency : number; isCoherent : bool }.

(** What [runDetection] does to its surroundings. *)
Inductive ToastVariant := variant_default | variant_destructive.

Record Toast := mkToast {
  title : string;
  description : string;
  variant : ToastVariant
}.

Inductive Effect :=
| toast (t : Toast)
| setIsProcessing (b : bool)
| onAnomaliesDetected (anomalies : list Anomaly).

(** ** The component *)

Section OutlierDetection.

Variables Math_cos Math_sin : number -> number.
Variable config : DetectionConfig.

Definition convertWindToVector (ws wd : number) : WindVector :=
  let radians := (wd * Math_PI) / 180 in
  {| u := ws * Math_cos radians;
     v := ws * Math_sin radians |}.

Definition detectMagnitudeOutliers (data : list ClimateData) : list ScoredPoint :=
  let mean := reduce (fun sum d => sum + prec d) 0 data / of_length (length data) in
  let std := Math_sqrt
    (reduce (fun sum d => sum + Math_pow2 (prec d - mean)) 0 data / of_length (length data)) in
  mapi (fun point index =>
    let zScore := Math_abs (prec point - mean) / std in
    {| point := point;
       index := index;
       zScore := zScore;
       isOutlier := zScoreThreshold config <? zScore |}) data.

Definition distance (point targetPoint : ClimateData) : number :=
  Math_sqrt
    (Math_pow2 (lat point - lat targetPoint) +
     Math_pow2 (lon point - lon targetPoint)).

Definition findNeighbors (targetPoint : ClimateData) (allPoints : list ClimateData)
  : list ClimateData :=
  filter (fun point =>
    if (lat point =? lat targetPoint) && (lon point =? lon targetPoint) then false
    else distance point targetPoint <=? spatialRadius config) allPoints.

Definition calculateDirectionalConsistency
    (targetPoint : ClimateData) (neighbors : list ClimateData) : Consistency :=
  if of_length (length neighbors) <? minimumNeighbors config then
    {| consistency := 0; isCoherent := false |}
  else
    let targetVector := convertWindToVector (ws10m targetPoint) (wd10m targetPoint) in
    let meanNeighborVector := reduce
      (fun acc neighbor =>
         let vector := convertWindToVector (ws10m neighbor) (wd10m neighbor) in
         {| u := u acc + u vector; v := v acc + v vector |})
      {| u := 0; v := 0 |} neighbors in
    let meanNeighborVector :=
      {| u := u meanNeighborVector / of_length (length neighbors);
         v := v meanNeighborVector / of_length (length neighbors) |} in
    let targetMagnitude :=
      Math_sqrt (u targetVector * u targetVector + v targetVector * v targetVector) in
    let neighborMagnitude :=
      Math_sqrt (u meanNeighborVector * u meanNeighborVector +
                 v meanNeighborVector * v meanNeighborVector) in
    if (targetMagnitude =? 0) || (neighborMagnitude =? 0) then
      {| consistency := 0; isCoherent := false |}
    else
      let dotProduct :=
        u targetVector * u meanNeighborVector + v targetVector * v meanNeighborVector in
      let consistency := dotProduct / (targetMagnitude * neighborMagnitude) in
      {| consistency := consistency; isCoherent := 0.5 <? consistency |}.

(** The body of the validation loop for one candidate. *)
Definition validate (data : list ClimateData) (candidate : ScoredPoint) : Anomaly :=
  let neighbors := findNeighbors candidate data in
  if enableDirectionalConsistency config then
    let r := calculateDirectionalConsistency candidate neighbors in
    {| candidate := candidate;
       neighbors := length neighbors;
       directionalConsistency := Some (consistency r);
       isDirectionallyCoherent := Some (isCoherent r);
       isTrueAnomaly := isCoherent r;
       confidence :=
         if isCoherent r then 0.8 + (consistency r * 0.2)
         else 0.3 - (consistency r * 0.2) |}
  else
    {| candidate := candidate;
       neighbors := length neighbors;
       directionalConsistency := None;
       isDirectionallyCoherent := None;
       isTrueAnomaly := true;
       confidence := 0.7 |}.

Definition candidateAnomalies (data : list ClimateData) : list ScoredPoint :=
  filter isOutlier (detectMagnitudeOutliers data).

(** [for (const candidate of candidateAnomalies) validatedAnomalies.push(...)] *)
Definition validatedAnomalies (data : list ClimateData) : list Anomaly :=
  fold_left (fun acc candidate => acc ++ [validate data candidate])
    (candidateAnomalies data) [].

Definition byConfidence (a b : Anomaly) : number := confidence b - confidence a.

Definition sortedAnomalies (data : list ClimateData) : list Anomaly :=
  sort byConfidence (validatedAnomalies data).

(** A count inside a template literal. *)
Definition show_nat (n : nat) : string :=
  NilEmpty.string_of_uint (Nat.to_uint n).

(** Nothing between [try] and [catch] throws (array methods on
    arrays and arithmetic on numbers), so the [catch] branch has no
    counterpart here; [finally] is the last effect. *)
Definition runDetection (data : list ClimateData) : list Effect :=
  match data with
  | [] =>
      [toast {| title := "No data available"%string;
                description := "Please upload data first"%string;
                variant := variant_destructive |}]
  | _ :: _ =>
      let sorted := sortedAnomalies data in
      [setIsProcessing true;
       onAnomaliesDetected sorted;
       toast {| title := "Detection completed"%string;
                description :=
                  ("Found " ++ show_nat (length sorted) ++ " anomalies (" ++
                   show_nat (length (filter isTrueAnomaly sorted)) ++
                   " marked as true)")%string;
                variant := variant_default |};
       setIsProcessing false]
  end.

End OutlierDetection.

(** How the promise of the [async] function [runDetection] settles.
    The early return of the empty dataset is a plain [return]; past
    it, the body is a [try] whose [catch] and [finally] throw nothing.
    No path leaves the function with an exception. *)
Inductive Settled := fulfilled | rejected (reason : string).

Definition runDetection_settled (data : list ClimateData) : Settled :=
  match data with
  | [] => fulfilled
  | _ :: _ => fulfilled
  end.

(** The configuration sliders: [setConfig(prev => ({ ...prev, field: value }))]. *)
Definition setZScoreThreshold (prev : DetectionConfig) (value : number) : DetectionConfig :=
  {| zScoreThreshold := value;
     madThreshold := madThreshold prev;
     spatialRadius := spatialRadius prev;
     enableSeasonalDecomposition := enableSeasonalDecomposition prev;
     enableDirectionalConsistency := enableDirectionalConsistency prev;
     minimumNeighbors := minimumNeighbors prev |}.

Definition setSpatialRadius (prev : DetectionConfig) (value : number) : DetectionConfig :=
  {| zScoreThreshold := zScoreThreshold prev;
     madThreshold := madThreshold prev;
     spatialRadius := value;
     enableSeasonalDecomposition := enableSeasonalDecomposition prev;
     enableDirectionalConsistency := enableDirectionalConsistency prev;
     minimumNeighbors := minimumNeighbors prev |}.

Definition setEnableDirectionalConsistency (prev : DetectionConfig) (checked : bool)
  : DetectionConfig :=
  {| zScoreThreshold := zScoreThreshold prev;
     madThreshold := madThreshold prev;
     spatialRadius := spatialRadius prev;
     enableSeasonalDecomposition := enableSeasonalDecomposition prev;
     enableDirectionalConsistency := checked;
     minimumNeighbors := minimumNeighbors prev |}.


(** ** The rest of the detection panel *)

(** The switch of the seasonal decomposition. *)
Definition setEnableSeasonalDecomposition (prev : DetectionConfig) (checked : bool)
  : DetectionConfig :=
  {| zScoreThreshold := zScoreThreshold prev;
     madThreshold := madThreshold prev;
     spatialRadius := spatialRadius prev;
     enableSeasonalDecomposition := checked;
     enableDirectionalConsistency := enableDirectionalConsistency prev;
     minimumNeighbors := minimumNeighbors prev |}.

(** *** The statistics card *)

Record PrecStats := mkPrecStats {
  mean : number;
  std : number;
  median : option number
}.

Record DataStats := mkDataStats { precStats : PrecStats }.

(** [dataStats] of [OutlierDetection]; [None] is [null].  An array
    read outside its bounds gives [undefined], which is the [None] of
    [median]; [Math.floor(length / 2)] is the integer quotient. *)
Definition dataStats (data : list ClimateData) : option DataStats :=
  match data with
  | [] => None
  | _ :: _ =>
      let mean := reduce (fun sum d => sum + prec d) 0 data / of_length (length data) in
      let sortedPrec := sort (fun a b => a - b) (map (fun d => prec d) data) in
      let median := nth_error sortedPrec (length sortedPrec / 2)%nat in
      let std := Math_sqrt
        (reduce (fun sum d => sum + Math_pow2 (prec d - mean)) 0 data /
         of_length (length data)) in
      Some {| precStats := {| mean := mean; std := std; median := median |} |}
  end.

(** ** The results dashboard *)

Module ResultsDashboard.

Record Stats := mkStats {
  total : nat;
  trueCount : nat;
  falseCount : nat;
  truePercentage : number;
  avgConfidence : number;
  avgZScore : number;
  avgDirectionalConsistency : number
}.

(** [a.directionalConsistency !== null] *)
Definition hasDirectionalConsistency (a : Anomaly) : bool :=
  match directionalConsistency a with
  | Some _ => true
  | None => false
  end.

(** [a.directionalConsistency || 0] *)
Definition directionalConsistencyOrZero (a : Anomaly) : number :=
  match directionalConsistency a with
  | Some c => or_else c 0
  | None => 0
  end.

Definition stats (anomalies : list Anomaly) : option Stats :=
  match anomalies with
  | [] => None
  | _ :: _ =>
      let trueAnomalies := filter (fun a => isTrueAnomaly a) anomalies in
      let falseAnomalies := filter (fun a => negb (isTrueAnomaly a)) anomalies in
      let avgConfidence :=
        reduce (fun sum a => sum + confidence a) 0 anomalies / of_length (length anomalies) in
      let avgZScore :=
        reduce (fun sum (a : Anomaly) => sum + zScore a) 0 anomalies /
        of_length (length anomalies) in
      let avgDirectionalConsistency :=
        reduce (fun sum a => sum + directionalConsistencyOrZero a) 0
          (filter hasDirectionalConsistency anomalies) /
        of_length (length anomalies) in
      Some {| total := length anomalies;
              trueCount := length trueAnomalies;
              falseCount := length falseAnomalies;
              truePercentage :=
                (of_length (length trueAnomalies) / of_length (length anomalies)) * 100;
              avgConfidence := avgConfidence;
              avgZScore := avgZScore;
              avgDirectionalConsistency := avgDirectionalConsistency |}
  end.

(** The file handed to the browser by [exportResults]: the blob's
    content and type and the [download] attribute of the link. *)
Record Download := mkDownload {
  content : string;
  type : string;
  download : string
}.

(** The separator of the rows of the export is written ['\\n'] in the
    source: a backslash followed by the letter n.  String literals of
    this file have no escape sequences, so the literal below is those
    two characters. *)
Definition rowSeparator : string := "\n".

Definition columns : string :=
  "Index,Lat,Lon,Year,Month,Date,Precipitation,Wind_Speed,Wind_Direction,Z_Score,Neighbors,Directional_Consistency,Is_True_Anomaly,Confidence".

Definition Boolean_toString (b : bool) : string :=
  if b then "true"%string else "false"%string.

Section ExportResults.

(** The decimal renderings of a number: [String(x)] and [x.toFixed(digits)]. *)
Variable Number_toString : number -> string.
Variable Number_toFixed : number -> nat -> string.

(** [anomaly.directionalConsistency?.toFixed(3) || 'N/A'] *)
Definition directionalConsistencyCell (anomaly : Anomaly) : string :=
  match directionalConsistency anomaly with
  | Some c =>
      let s := Number_toFixed c 3 in
      if (s =? "")%string then "N/A"%string else s
  | None => "N/A"%string
  end.

Definition cells (anomaly : Anomaly) : list string :=
  [ show_nat (index anomaly);
    Number_toString (lat anomaly);
    Number_toString (lon anomaly);
    Number_toString (year anomaly);
    Number_toString (month anomaly);
    Number_toString (date anomaly);
    Number_toString (prec anomaly);
    Number_toString (ws10m anomaly);
    Number_toString (wd10m anomaly);
    Number_toFixed (zScore anomaly) 3;
    show_nat (neighbors anomaly);
    directionalConsistencyCell anomaly;
    Boolean_toString (isTrueAnomaly anomaly);
    Number_toFixed (confidence anomaly) 3 ].

Definition csvContent (anomalies : list Anomaly) : string :=
  join rowSeparator (columns :: map (fun anomaly => join "," (cells anomaly)) anomalies).

(** [None]: the early return, nothing is handed to the browser. *)
Definition exportResults (anomalies : list Anomaly) : option Download :=
  match anomalies with
  | [] => None
  | _ :: _ =>
      Some {| content := csvContent anomalies;
              type := "text/csv";
              download := "climate_anomalies_results.csv" |}
  end.

End ExportResults.

(** The rows of the detailed list, [anomalies.slice(0, 20)], and
    whether the note on the rows left out is rendered. *)
Definition detailedResults (anomalies : list Anomaly) : list Anomaly :=
  firstn 20 anomalies.

Definition showsTruncationNote (anomalies : list Anomaly) : bool :=
  (20 <? length anomalies)%nat.

End ResultsDashboard.

(** ** The page *)

Module Index.

Record State := mkState {
  data : list ClimateData;
  anomalies : list Anomaly;
  activeTab : string
}.

(** The three [useState] initial values. *)
Definition initial : State :=
  {| data := []; anomalies := []; activeTab := "upload" |}.

Definition handleDataUpload (uploadedData : list ClimateData) (s : State) : State :=
  {| data := uploadedData; anomalies := anomalies s; activeTab := "visualize" |}.

Definition handleAnomaliesDetected (detectedAnomalies : list Anomaly) (s : State) : State :=
  {| data := data s; anomalies := detectedAnomalies; activeTab := "results" |}.

(** [<Tabs onValueChange={setActiveTab}>] *)
Definition setActiveTab (value : string) (s : State) : State :=
  {| data := data s; anomalies := anomalies s; activeTab := value |}.

(** What an effect of [runDetection] does to the page: the detection
    panel is rendered with [onAnomaliesDetected={handleAnomaliesDetected}];
    toasts and the processing flag are not state of the page. *)
Definition dispatch (s : State) (e : Effect) : State :=
  match e with
  | onAnomaliesDetected detectedAnomalies => handleAnomaliesDetected detectedAnomalies s
  | toast _ | setIsProcessing _ => s
  end.

Section Run.

Variables Math_cos Math_sin : number -> number.

(** A click on Run Detection: the panel is rendered with [data={data}]. *)
Definition clickRunDetection (config : DetectionConfig) (s : State) : State :=
  fold_left dispatch (runDetection Math_cos Math_sin config (data s)) s.

End Run.

End Index.

(** ** The data overview *)

Module DataVisualization.

Record DateRange := mkDateRange { start : number; end_ : number }.

Record Stats := mkStats {
  totalPoints : nat;
  uniqueLocations : nat;
  dateRange : DateRange;
  avgPrecipitation : number;
  avgWindSpeed : number;
  avgHumidity : number
}.

Record GeographicBounds := mkGeographicBounds {
  minLat : number;
  maxLat : number;
  minLon : number;
  maxLon : number
}.

(** The guards [d && typeof d.lat === 'number'] hold of every element
    of a [ClimateData] array; what is left of each filter is its
    [isNaN] test.

    A call [f(...xs)] passes the elements of [xs] as arguments; an
    engine throws a [RangeError] when they do not fit its argument
    list.  [fitsArgumentList n] is whether [n] arguments fit, and
    [None] stands for the exception.  Nothing else between [try] and
    [catch] throws; the [catch] branch returns [null]. *)
Section Memos.

Variable fitsArgumentList : nat -> bool.

Definition spread (f : list number -> number) (xs : list number) : option number :=
  if fitsArgumentList (length xs) then Some (f xs) else None.

Variable Number_toString : number -> string.

Definition stats (data : list ClimateData) : option Stats :=
  match data with
  | [] => None
  | _ :: _ =>
      let totalPoints := length data in
      let uniqueLocations :=
        length (nodup string_dec
                  (map (fun d => (Number_toString (lat d) ++ "," ++ Number_toString (lon d))%string)
                       data)) in
      let validYears :=
        map (fun d => year d) (filter (fun d => negb (isNaN (year d))) data) in
      let dateRange :=
        if (0 <? length validYears)%nat
        then
          match spread Math_min validYears with
          | None => None
          | Some earliest =>
              match spread Math_max validYears with
              | None => None
              | Some latest => Some {| start := earliest; end_ := latest |}
              end
          end
        else Some {| start := 0; end_ := 0 |} in
      match dateRange with
      | None => None
      | Some dateRange =>
          let validPrecipitation := filter (fun d => negb (isNaN (prec d))) data in
          let validWindSpeed := filter (fun d => negb (isNaN (ws10m d))) data in
          let validHumidity := filter (fun d => negb (isNaN (qv2m d))) data in
          let avgPrecipitation :=
            if (0 <? length validPrecipitation)%nat
            then reduce (fun sum d => sum + prec d) 0 validPrecipitation /
                 of_length (length validPrecipitation)
            else 0 in
          let avgWindSpeed :=
            if (0 <? length validWindSpeed)%nat
            then reduce (fun sum d => sum + ws10m d) 0 validWindSpeed /
                 of_length (length validWindSpeed)
            else 0 in
          let avgHumidity :=
            if (0 <? length validHumidity)%nat
            then reduce (fun sum d => sum + qv2m d) 0 validHumidity /
                 of_length (length validHumidity)
            else 0 in
          Some {| totalPoints := totalPoints;
                  uniqueLocations := uniqueLocations;
                  dateRange := dateRange;
                  avgPrecipitation := avgPrecipitation;
                  avgWindSpeed := avgWindSpeed;
                  avgHumidity := avgHumidity |}
      end
  end.

Definition geographicBounds (data : list ClimateData) : option GeographicBounds :=
  match data with
  | [] => None
  | _ :: _ =>
      let validCoordinates :=
        filter (fun d => negb (isNaN (lat d)) && negb (isNaN (lon d))) data in
      match validCoordinates with
      | [] => None
      | _ :: _ =>
          match spread Math_min (map (fun d => lat d) validCoordinates) with
          | None => None
          | Some south =>
          match spread Math_max (map (fun d => lat d) validCoordinates) with
          | None => None
          | Some north =>
          match spread Math_min (map (fun d => lon d) validCoordinates) with
          | None => None
          | Some west =>
          match spread Math_max (map (fun d => lon d) validCoordinates) with
          | None => None
          | Some east =>
              Some {| minLat := south; maxLat := north;
                      minLon := west; maxLon := east |}
          end end end end
      end
  end.

End Memos.

End DataVisualization.

(** ** The upload panel *)

(** A string of the program is a sequence of code units; the strings
    of this development hold the code units below 256.  Of those, the
    white space and line terminators that [trim] removes are the
    characters 9 to 13, the space and the no-break space. *)
Module JSString.

Definition isWhiteSpace (c : ascii) : bool :=
  let n := nat_of_ascii c in
  ((9 <=? n) && (n <=? 13) || (n =? 32) || (n =? 160))%nat.

Fixpoint trimStart (s : string) : string :=
  match s with
  | EmptyString => EmptyString
  | String c rest => if isWhiteSpace c then trimStart rest else s
  end.

Fixpoint trimEnd (s : string) : string :=
  match s with
  | EmptyString => EmptyString
  | String c rest =>
      match trimEnd rest with
      | EmptyString => if isWhiteSpace c then EmptyString else String c EmptyString
      | kept => String c kept
      end
  end.

(** [s.trim()] *)
Definition trim (s : string) : string := trimEnd (trimStart s).

(** [s.split(separator)] for a separator that is one character or a
    class of characters: the pieces between the separators, one more
    than there are separators. *)
Fixpoint split (separator : ascii -> bool) (s : string) : list string :=
  match s with
  | EmptyString => [EmptyString]
  | String c rest =>
      if separator c then EmptyString :: split separator rest
      else
        match split separator rest with
        | [] => [String c EmptyString]
        | piece :: pieces => String c piece :: pieces
        end
  end.

(** The separator ['\n'] and the class [/[,\t]/]. *)
Definition lineFeed (c : ascii) : bool := (nat_of_ascii c =? 10)%nat.

Definition commaOrTab (c : ascii) : bool :=
  ((nat_of_ascii c =? 44) || (nat_of_ascii c =? 9))%nat.

(** [s.includes(searchString)] *)
Fixpoint includes (s searchString : string) : bool :=
  String.prefix searchString s ||
  match s with
  | EmptyString => false
  | String _ rest => includes rest searchString
  end.

(** [s.toLowerCase()]: below 256 the letters with a lower case are A
    to Z and the accented capitals 192 to 222 without the
    multiplication sign, each 32 below its lower case. *)
Definition toLowerCase_unit (c : ascii) : ascii :=
  let n := nat_of_ascii c in
  if ((65 <=? n) && (n <=? 90) || (192 <=? n) && (n <=? 222) && negb (n =? 215))%nat
  then ascii_of_nat (n + 32)
  else c.

Fixpoint toLowerCase (s : string) : string :=
  match s with
  | EmptyString => EmptyString
  | String c rest => String (toLowerCase_unit c) (toLowerCase rest)
  end.

(** [s.endsWith(searchString)] *)
Fixpoint endsWith (s searchString : string) : bool :=
  (s =? searchString)%string ||
  match s with
  | EmptyString => false
  | String _ rest => endsWith rest searchString
  end.

End JSString.

Module DataUpload.

Import JSString.

Inductive UploadStatus := idle | success | error.

(** [new Error(message)] *)
Record Error := mkError { message : string }.

(** A value that is thrown, or that a promise rejects with: an
    [Error], or a value that is not an instance of [Error]. *)
Inductive Thrown :=
| thrownError (e : Error)
| thrownOther.

(** What [handleFileUpload] and [handleDrop] do to their surroundings. *)
Inductive Effect :=
| setIsDragging (b : bool)
| setIsProcessing (b : bool)
| setUploadStatus (status : UploadStatus)
| setProcessingProgress (progress : string)
| toast (t : Toast)
| onDataUploaded (data : list ClimateData).

(** The parts of a [File] that the panel reads.  [text] is how the
    promise of [file.text()] settles: with the text of the file, or,
    for a file that cannot be read, with the value it rejects with. *)
Record File := mkFile {
  name : string;
  type : string;
  size : N;
  text : Thrown + string
}.

Definition expectedHeaders : list string :=
  ["Lat"; "Lon"; "Year"; "Month"; "Date"; "WS10M"; "WD10M"; "QV2M"; "Prec"]%string.

Definition chunkSize : nat := 1000.

(** What [parseCSVData] has done when its promise settles: the
    arguments of its calls of [setProgress], and the array it resolves
    to or the error it rejects with.  Writes to the console are left
    out. *)
Record Parsed := mkParsed {
  progressReports : list string;
  outcome : Error + list ClimateData
}.

Section Parse.

(** [parseFloat] and [parseInt] of a string, [Math.round], and the
    decimal rendering of a number in a template literal. *)
Variables parseFloat parseInt : string -> number.
Variable Math_round : number -> number.
Variable Number_toString : number -> string.

(** The body of the inner loop for the line [lines[i]]: the row that
    is pushed, if one is. *)
Definition parseLine (line : string) : option ClimateData :=
  let line := trim line in
  if (line =? "")%string then None
  else
    let values := split commaOrTab line in
    if (9 <=? length values)%nat then
      let parsedRow :=
        {| lat := parseFloat (nth 0 values ""%string);
           lon := parseFloat (nth 1 values ""%string);
           year := parseInt (nth 2 values ""%string);
           month := parseInt (nth 3 values ""%string);
           date := parseInt (nth 4 values ""%string);
           ws10m := parseFloat (nth 5 values ""%string);
           wd10m := parseFloat (nth 6 values ""%string);
           qv2m := parseFloat (nth 7 values ""%string);
           prec := parseFloat (nth 8 values ""%string) |} in
      if negb (isNaN (lat parsedRow)) && negb (isNaN (lon parsedRow)) &&
         negb (isNaN (year parsedRow)) && negb (isNaN (prec parsedRow))
      then Some parsedRow
      else None
    else None.

(** [for (let i = startIndex; i < endIndex; i++)]: the loop bounds keep
    [i] below [lines.length]. *)
Definition parseChunk (lines : list string) (startIndex endIndex : nat)
    (data : list ClimateData) : list ClimateData :=
  fold_left
    (fun data i =>
       match parseLine (nth i lines ""%string) with
       | Some parsedRow => data ++ [parsedRow]
       | None => data
       end)
    (seq startIndex (endIndex - startIndex)) data.

Definition progressReport (lines : list string) (startIndex : nat) : string :=
  let progress :=
    Math_round ((of_length startIndex / of_length (length lines)) * 100) in
  ("Processing data... " ++ Number_toString progress ++ "% complete")%string.

(** [for (let startIndex = 1; startIndex < lines.length; startIndex += chunkSize)];
    every pass advances [startIndex], so [lines.length] passes are
    enough, and [fuel] starts there. *)
Fixpoint parseChunks (fuel : nat) (lines : list string) (startIndex : nat)
    (reports : list string) (data : list ClimateData) : list string * list ClimateData :=
  match fuel with
  | O => (reports, data)
  | S fuel' =>
      if (startIndex <? length lines)%nat then
        let endIndex := Nat.min (startIndex + chunkSize) (length lines) in
        let reports :=
          if (5000 <? length lines)%nat
          then reports ++ [progressReport lines startIndex]
          else reports in
        let data := parseChunk lines startIndex endIndex data in
        parseChunks fuel' lines (startIndex + chunkSize) reports data
      else (reports, data)
  end.

Definition hasValidHeaders (headers : list string) : bool :=
  forallb
    (fun header =>
       existsb (fun h => includes (toLowerCase h) (toLowerCase header)) headers)
    expectedHeaders.

Definition parseCSVData (csvText : string) : Parsed :=
  let lines := split lineFeed (trim csvText) in
  let headers := split commaOrTab (nth 0 lines ""%string) in
  if negb (hasValidHeaders headers) then
    {| progressReports := [];
       outcome :=
         inl {| message :=
                  ("Invalid CSV format. Expected headers: " ++
                   join ", " expectedHeaders)%string |} |}
  else
    let '(reports, data) := parseChunks (length lines) lines 1 [] [] in
    {| progressReports := reports; outcome := inr data |}.

(** The [catch] branch, with
    [error instanceof Error ? error.message : "Unknown error occurred"]. *)
Definition uploadFailed (thrown : Thrown) : list Effect :=
  [ setUploadStatus error;
    toast {| title := "Upload failed";
             description :=
               match thrown with
               | thrownError e => message e
               | thrownOther => "Unknown error occurred"
               end;
             variant := variant_destructive |} ].

Definition handleFileUpload (file : File) : list Effect :=
  [ setIsProcessing true; setUploadStatus idle; setProcessingProgress "" ] ++
  (if (10 * 1024 * 1024 <? size file)%N
   then [ toast {| title := "Large file detected";
                   description := "This may take a while to process...";
                   variant := variant_default |} ]
   else []) ++
  match text file with
  | inl thrown => uploadFailed thrown
  | inr text =>
      let parsed := parseCSVData text in
      map setProcessingProgress (progressReports parsed) ++
      match outcome parsed with
      | inl e => uploadFailed (thrownError e)
      | inr data =>
          match data with
          | [] =>
              uploadFailed (thrownError {| message := "No valid data rows found in the file" |})
          | _ :: _ =>
              [ setUploadStatus success;
                onDataUploaded data;
                toast {| title := "Data uploaded successfully";
                         description :=
                           ("Processed " ++ show_nat (length data) ++ " data points")%string;
                         variant := variant_default |} ]
          end
      end
  end ++
  [ setIsProcessing false; setProcessingProgress "" ].

(** [handleDrop] for the dropped [files]. *)
Definition handleDrop (files : list File) : list Effect :=
  setIsDragging false ::
  match
    find (fun file => (type file =? "text/csv")%string || endsWith (name file) ".csv") files
  with
  | Some csvFile => handleFileUpload csvFile
  | None =>
      [ toast {| title := "Invalid file type";
                 description := "Please upload a CSV file";
                 variant := variant_destructive |} ]
  end.

(** [handleFileInput] for the chosen [files]. *)
Definition handleFileInput (files : list File) : list Effect :=
  match files with
  | file :: _ => handleFileUpload file
  | [] => []
  end.

End Parse.

End DataUpload.

(** ** A session *)

Module Session.

(** The upload panel is rendered with [onDataUploaded={handleDataUpload}]. *)
Definition dispatchUpload (s : Index.State) (e : DataUpload.Effect) : Index.State :=
  match e with
  | DataUpload.onDataUploaded uploadedData => Index.handleDataUpload uploadedData s
  | _ => s
  end.

(** What the user does to the page. *)
Inductive Event :=
| fileChosen (file : DataUpload.File)
| runClicked (config : DetectionConfig)
| tabSelected (value : string).

Section Run.

Variables parseFloat parseInt : string -> number.
Variable Math_round : number -> number.
Variable Number_toString : number -> string.
Variables Math_cos Math_sin : number -> number.

Definition chooseFile (file : DataUpload.File) (s : Index.State) : Index.State :=
  fold_left dispatchUpload
    (DataUpload.handleFileUpload parseFloat parseInt Math_round Number_toString file) s.

Definition step (s : Index.State) (e : Event) : Index.State :=
  match e with
  | fileChosen file => chooseFile file s
  | runClicked config => Index.clickRunDetection Math_cos Math_sin config s
  | tabSelected value => Index.setActiveTab value s
  end.

Definition run (events : list Event) : Index.State := fold_left step events Index.initial.

End Run.

End Session.

(** ** Sample datasets

    Rows of the uploaded table: Lat, Lon, Year, Month, Date, WS10M,
    WD10M, QV2M, Prec. *)

Definition row (lat lon date ws10m wd10m prec : number) : ClimateData :=
  {| lat := lat; lon := lon; year := 2023; month := 7; date := date;
     ws10m := ws10m; wd10m := wd10m; qv2m := 14.5; prec := prec |}.

(** Ten days at one station: the second day is the wet one. *)
Definition stationSeries : list ClimateData :=
  [ row 29 79 1 3 0 0.29;  row 29 79 2 3 0 6.21;
    row 29 79 3 3 0 0.3;   row 29 79 4 3 0 0.3;
    row 29 79 5 3 0 0.3;   row 29 79 6 3 0 0.3;
    row 29 79 7 3 0 0.3;   row 29 79 8 3 0 0.3;
    row 29 79 9 3 0 0.3;   row 29 79 10 3 0 0.3 ].

(** One day on ten grid cells 0.05 degrees apart, with wind speed [ws]. *)
Definition gridDay (ws : number) : list ClimateData :=
  [ row 29.00 79 1 ws 0 0.29;  row 29.05 79 1 ws 0 6.21;
    row 29.10 79 1 ws 0 0.3;   row 29.15 79 1 ws 0 0.3;
    row 29.20 79 1 ws 0 0.3;   row 29.25 79 1 ws 0 0.3;
    row 29.30 79 1 ws 0 0.3;   row 29.35 79 1 ws 0 0.3;
    row 29.40 79 1 ws 0 0.3;   row 29.45 79 1 ws 0 0.3 ].

Definition breeze : list ClimateData := gridDay 3.
Definition calm : list ClimateData := gridDay 0.

(** Finite wind speeds whose squares exceed the binary64 range. *)
Definition gale : list ClimateData := gridDay 1e200.

(** Three dry days. *)
Definition drySpell : list ClimateData :=
  [ row 29 79 1 3 0 0;  row 29 79 2 3 0 0;  row 29 79 3 3 0 0 ].

(** Three days with the same 0.1 mm of rain. *)
Definition drizzle : list ClimateData :=
  [ row 29 79 1 3 0 0.1;  row 29 79 2 3 0 0.1;  row 29 79 3 3 0 0.1 ].

(** Three days with the same tiny amount, [0.1 * 2^-600]. *)
Definition trace : list ClimateData :=
  [ row 29 79 1 3 0 0x1.999999999999ap-604;
    row 29 79 2 3 0 0x1.999999999999ap-604;
    row 29 79 3 3 0 0x1.999999999999ap-604 ].

(** Three wet cells among twenty-five: an isolated one, one inside a
    cluster with gale-force readings, one inside an ordinary cluster;
    sixteen dry cells far away. *)
Definition threeEvents : list ClimateData :=
  [ row 40 40 1 3 0 6.21;
    row 20.0 20 1 1e200 0 6.21;  row 20.1 20 1 1e200 0 0.3;
    row 20.2 20 1 1e200 0 0.3;   row 20.3 20 1 1e200 0 0.3;
    row 30.0 30 1 3 0 6.21;      row 30.1 30 1 3 0 0.3;
    row 30.2 30 1 3 0 0.3;       row 30.3 30 1 3 0 0.3 ]
  ++ repeat (row 10 10 1 3 0 0.3) 16.

(** The wet cell of [gridDay 3]. *)
Definition wetCell : ClimateData := row 29.05 79 1 3 0 6.21.

Definition looseScreen : DetectionConfig := setZScoreThreshold defaultConfig 1.5.
Definition strictScreen : DetectionConfig := setZScoreThreshold defaultConfig 2.5.
Definition narrowSearch : DetectionConfig := setSpatialRadius defaultConfig 0.1.
Definition wideSearch : DetectionConfig := setSpatialRadius defaultConfig 0.5.

Definition lowThreshold : DetectionConfig := setZScoreThreshold defaultConfig 0.5.

Definition withoutDirection : DetectionConfig :=
  setEnableDirectionalConsistency defaultConfig false.

(** The wet cell of ten has wind speed 1 at 0 degrees; of its three
    neighbours one has wind speed 5.196152422706632 at 90 degrees and
    two have 1.5 at 0 degrees; six dry cells lie far away. *)
Definition crosswind : list ClimateData :=
  [ row 29.00 79 1 5.196152422706632 90 0.29;
    row 29.05 79 1 1 0 6.21;
    row 29.10 79 1 1.5 0 0.3;
    row 29.15 79 1 1.5 0 0.3 ]
  ++ repeat (row 10 10 1 3 0 0.3) 6.

(** The radians of 90 degrees, as [convertWindToVector] computes them. *)
Definition quarterTurn : number := (90 * Math_PI) / 180.

(** [Math.cos] and [Math.sin] at the two arguments the samples use:
    0, where they are 1 and 0, and [quarterTurn], where they are
    6.123233995736766e-17 and 1. *)
Definition cos_sample (radians : number) : number :=
  if radians =? 0 then 1 else 0x1.1a62633145c07p-54.

Definition sin_sample (radians : number) : number :=
  if radians =? 0 then 0 else 1.

(** Two wet cells among twenty-one: an isolated one and one inside an
    ordinary cluster; sixteen dry cells far away. *)
Definition twoEvents : list ClimateData :=
  [ row 40 40 1 3 0 6.21;
    row 30.0 30 1 3 0 6.21;      row 30.1 30 1 3 0 0.3;
    row 30.2 30 1 3 0 0.3;       row 30.3 30 1 3 0 0.3 ]
  ++ repeat (row 10 10 1 3 0 0.3) 16.

(** Winds so light that the squares of their speeds are below the
    binary64 range, and winds whose squares are just inside it. *)
Definition stillAir : list ClimateData := gridDay 1e-200.

Definition lightAir : list ClimateData := gridDay 1e-160.

(** Three wet cells among twenty-five: the first and the last are
    isolated, the second lies inside an ordinary cluster; nineteen dry
    cells far away. *)
Definition tiedEvents : list ClimateData :=
  [ row 40 40 1 3 0 6.21;
    row 30.0 30 1 3 0 6.21;      row 30.1 30 1 3 0 0.3;
    row 30.2 30 1 3 0 0.3;       row 30.3 30 1 3 0 0.3;
    row 50 50 1 3 0 6.21 ]
  ++ repeat (row 10 10 1 3 0 0.3) 19.

(** Twenty-two wet cells among one hundred and eighty-five: twenty
    isolated ones a degree apart, one inside an ordinary cluster, and
    another isolated one; one hundred and sixty dry cells far away. *)
Definition manyEvents : list ClimateData :=
  map (fun k => row (of_length k) 0 1 3 0 6.21) (seq 0 20)
  ++ [ row 30.0 30 1 3 0 6.21;  row 30.1 30 1 3 0 0.3;
       row 30.2 30 1 3 0 0.3;   row 30.3 30 1 3 0 0.3;
       row 50 50 1 3 0 6.21 ]
  ++ repeat (row 10 10 1 3 0 0.3) 160.

(** ** Sample renderings and a sample file *)

(** An engine whose argument lists hold 65535 values. *)
Definition fits_sample (n : nat) : bool := (N.of_nat n <=? 65535)%N.


(** Renderings of a number that tell zero from the rest. *)
Definition toString_sample (x : number) : string :=
  if x =? 0 then "0"%string else "1"%string.

Definition toFixed_sample (x : number) (digits : nat) : string :=
  if x =? 0 then "0.000"%string else "1.000"%string.

Definition round_sample (x : number) : number := x.

(** [parseFloat] and [parseInt] at the cells of the sample file; every
    other string, the empty one among them, has no number. *)
Definition sampleCells : list (string * number) :=
  [ ("29", 29); ("79", 79); ("1981", 1981); ("1", 1); ("5", 5); ("6", 6); ("7", 7);
    ("2.88", 2.88); ("107.31", 107.31); ("6.65", 6.65); ("0.29", 0.29);
    ("2.03", 2.03); ("197.62", 197.62); ("6.47", 6.47); ("6.21", 6.21) ]%string.

Definition parse_sample (s : string) : number :=
  match find (fun cell => (fst cell =? s)%string) sampleCells with
  | Some cell => snd cell
  | None => nan
  end.

Definition newline : string := String (ascii_of_nat 10) EmptyString.

(** The two rows of the format card of the upload panel, then an empty
    line, a line of five cells, a row without its wind and humidity
    cells and a row without a latitude. *)
Definition sampleLines : list string :=
  [ "Lat,Lon,Year,Month,Date,WS10M,WD10M,QV2M,Prec";
    "29,79,1981,1,5,2.88,107.31,6.65,0.29";
    "29,79,1981,1,6,2.03,197.62,6.47,6.21";
    "";
    "29,79,1981,1,7";
    "29,79,1981,1,7,,,,0.29";
    "north,79,1981,1,7,2.03,197.62,6.47,6.21" ]%string.

Definition sampleText : string := join newline sampleLines.

Definition sampleFile : DataUpload.File :=
  {| DataUpload.name := "climate.csv";
     DataUpload.type := "text/csv";
     DataUpload.size := 212;
     DataUpload.text := inr sampleText |}.

(** A file without the expected header. *)
Definition exportedFile : DataUpload.File :=
  {| DataUpload.name := "climate_anomalies_results.csv";
     DataUpload.type := "text/csv";
     DataUpload.size := 139;
     DataUpload.text := inr ResultsDashboard.columns |}.

(** A file that cannot be read: a folder that was dropped, say. *)
Definition unreadableFile : DataUpload.File :=
  {| DataUpload.name := "measurements.csv";
     DataUpload.type := "";
     DataUpload.size := 4096;
     DataUpload.text :=
       inl (DataUpload.thrownError
              {| DataUpload.message := "The requested file could not be read" |}) |}.

Definition carriageReturn : string := String (ascii_of_nat 13) EmptyString.

(** The header of the sample file, and its columns in another order. *)
Definition sampleHeaders : list string :=
  ["Lat"; "Lon"; "Year"; "Month"; "Date"; "WS10M"; "WD10M"; "QV2M"; "Prec"]%string.

Definition shuffledHeaders : list string :=
  ["Prec"; "QV2M"; "WD10M"; "WS10M"; "Date"; "Month"; "Year"; "Lon"; "Lat"; "Station"]%string.

(** ** Vocabulary of the proofs *)

(** Zero of either sign, or [NaN]. *)
Definition zero_or_nan (x : spec_float) : Prop :=
  match x with
  | S754_zero _ | S754_nan => True
  | _ => False
  end.

(** Positive zero or [NaN]. *)
Definition pzero_or_nan (x : spec_float) : Prop :=
  x = S754_zero false \/ x = S754_nan.

(** The smallest exponent of a binary64 mantissa. *)
Definition emin64 : Z := (-1074)%Z.

(** A finite value as an integer multiple of [2 ^ ez]. *)
Definition scaled (s : bool) (m : positive) (e ez : Z) : Z :=
  cond_Zopp s (Zpos m * 2 ^ (e - ez))%Z.

(** A rounding result that is neither zero nor [NaN] and has sign [s]. *)
Inductive signed_result (s : bool) : spec_float -> Prop :=
| signed_finite m e : signed_result s (S754_finite s m e)
| signed_infinity : signed_result s (S754_infinity s).

(** [a] may stand before [b] in a list ranked by descending [key],
    elements of equal key in ascending [rank]. *)
Definition ranked_before {A : Type} (key : A -> number) (rank : A -> nat) (a b : A) : Prop :=
  (key b <? key a) = true \/ ((key a =? key b) = true /\ (rank a < rank b)%nat).

(** Descending confidence; results of equal confidence in dataset order. *)
Definition confidence_descending (l : list Anomaly) : Prop :=
  StronglySorted (fun a b : Anomaly => (confidence b <=? confidence a) = true) l.

Definition confidence_stable (l : list Anomaly) : Prop :=
  StronglySorted (ranked_before confidence (fun a : Anomaly => index a)) l.

(** Points of [allPoints] within the radius of [targetPoint], whatever
    their coordinates. *)
Definition withinRadius (config : DetectionConfig) (targetPoint : ClimateData)
    (allPoints : list ClimateData) : list ClimateData :=
  filter (fun point => distance point targetPoint <=? spatialRadius config) allPoints.

Definition sameCoordinates (point targetPoint : ClimateData) : bool :=
  (lat point =? lat targetPoint) && (lon point =? lon targetPoint).

(** The constants [mean] and [std] of [detectMagnitudeOutliers]. *)
Definition precMean (data : list ClimateData) : number :=
  reduce (fun sum d => sum + prec d) 0 data / of_length (length data).

Definition precStd (data : list ClimateData) : number :=
  Math_sqrt
    (reduce (fun sum d => sum + Math_pow2 (prec d - precMean data)) 0 data /
     of_length (length data)).

(** The mean wind vector of the neighbours, as
    [calculateDirectionalConsistency] computes it. *)
Definition meanNeighborVector (Math_cos Math_sin : number -> number)
    (neighbors : list ClimateData) : WindVector :=
  let total := reduce
    (fun acc neighbor =>
       let vector := convertWindToVector Math_cos Math_sin (ws10m neighbor) (wd10m neighbor) in
       {| u := u acc + u vector; v := v acc + v vector |})
    {| u := 0; v := 0 |} neighbors in
  {| u := u total / of_length (length neighbors);
     v := v total / of_length (length neighbors) |}.

Definition magnitude (w : WindVector) : number :=
  Math_sqrt (u w * u w + v w * v w).

(** The return statement a call of [calculateDirectionalConsistency]
    reaches: the one of the neighbour-count guard, the one of the
    zero-magnitude guard, or the last one, after the division, whose
    operands are recorded. *)
Inductive ConsistencyStep :=
| TooFewNeighbors
| ZeroMagnitude
| Divide (dotProduct divisor : number).

Definition consistencyStep (Math_cos Math_sin : number -> number) (config : DetectionConfig)
    (targetPoint : ClimateData) (neighbors : list ClimateData) : ConsistencyStep :=
  if of_length (length neighbors) <? minimumNeighbors config then TooFewNeighbors
  else
    let targetVector :=
      convertWindToVector Math_cos Math_sin (ws10m targetPoint) (wd10m targetPoint) in
    let meanVector := meanNeighborVector Math_cos Math_sin neighbors in
    if (magnitude targetVector =? 0) || (magnitude meanVector =? 0) then ZeroMagnitude
    else
      Divide (u targetVector * u meanVector + v targetVector * v meanVector)
             (magnitude targetVector * magnitude meanVector).

(** The error toast of an empty dataset. *)
Definition noDataToast : Toast :=
  {| title := "No data available"%string;
     description := "Please upload data first"%string;
     variant := variant_destructive |}.

(** *** Rounding *)

Local Open Scope Z_scope.

(** The record left by [k] one-bit shifts of the mantissa [N]. *)
Definition shr_spec (N k : Z) : shr_record :=
  {| shr_m := N / 2 ^ k;
     shr_r := 2 ^ k <=? 2 * (N mod 2 ^ k);
     shr_s := negb ((N mod 2 ^ k =? 0) || (2 * (N mod 2 ^ k) =? 2 ^ k)) |}.

(** Round to nearest, ties to even, of [N / 2 ^ k]. *)
Definition rne (N k : Z) : Z :=
  let m := N / 2 ^ k in
  let b := N mod 2 ^ k in
  if 2 * b <? 2 ^ k then m
  else if 2 ^ k <? 2 * b then m + 1
  else if Z.even m then m else m + 1.

(** The value a rounded mantissa [q] at exponent [c] stands for. *)
Definition round_result (s : bool) (q c : Z) : spec_float :=
  if q =? 0 then S754_zero s
  else if q =? 2 ^ 53 then
    if c + 1 <=? 971 then S754_finite s (2 ^ 52)%positive (c + 1) else S754_infinity s
  else if c <=? 971 then S754_finite s (Z.to_pos q) c else S754_infinity s.

(** The canonical exponent of a mantissa [N] at exponent [B]. *)
Definition cexp (N B : Z) : Z := Z.max (Zdigits2 N + B - 53) (-1074).

(** The rounded value of [N * 2 ^ B], in units of [2 ^ B]. *)
Definition rounded (N B : Z) : Z :=
  rne N (cexp N B - B) * 2 ^ (cexp N B - B).

(** What [round_result] returns for the rounded mantissa of [N]. *)
Inductive rounds_to (s : bool) (w B : Z) : spec_float -> Prop :=
| rounds_to_zero : w = 0 -> rounds_to s w B (S754_zero s)
| rounds_to_finite m e :
    bounded FloatOps.prec emax m e = true -> B <= e ->
    Zpos m * 2 ^ (e - B) = w -> rounds_to s w B (S754_finite s m e)
| rounds_to_infinity : 2 ^ (1024 - B) <= w -> rounds_to s w B (S754_infinity s).

(** [r] is the rounding of the exact value [V * 2 ^ B]. *)
Definition exact_round (V B : Z) (r : spec_float) : Prop :=
  match V with
  | Z0 => exists s, r = S754_zero s
  | Zpos p => rounds_to false (rounded (Zpos p) B) B r
  | Zneg p => rounds_to true (rounded (Zpos p) B) B r
  end.

(** A finite value in units of [2 ^ -1074]. *)
Definition value64 (s : bool) (m : positive) (e : Z) : Z := scaled s m e (-1074).

Local Close Scope Z_scope.

(** *** Confidence *)

(** The confidence of an enabled run as a function of the consistency. *)
Definition confidenceOf (c : number) : number :=
  if 0.5 <? c then 0.8 + c * 0.2 else 0.3 - c * 0.2.

(** A number that is neither zero, nor infinite, nor [NaN]. *)
Definition finite_nonzero (x : number) : Prop :=
  exists s m e, Prim2SF x = S754_finite s m e.

(** *** Tactics *)

Ltac cmp_cases :=
  repeat match goal with
  | H : context [Pos.compare_cont Eq ?a ?b] |- _ =>
      change (Pos.compare_cont Eq a b) with (Pos.compare a b) in H
  | |- context [Pos.compare_cont Eq ?a ?b] =>
      change (Pos.compare_cont Eq a b) with (Pos.compare a b)
  end;
  repeat match goal with
  | H : context [Z.compare ?a ?b] |- _ => destruct (Z.compare_spec a b); try discriminate H
  | H : context [Pos.compare ?a ?b] |- _ =>
      destruct (Pos.compare_spec a b); simpl in H; try discriminate H
  | |- context [Z.compare ?a ?b] => destruct (Z.compare_spec a b)
  | |- context [Pos.compare ?a ?b] => destruct (Pos.compare_spec a b); simpl
  end.

(** Case analysis over the operands of comparisons of [spec_float]s. *)
Ltac sf_order :=
  unfold SFleb, SFltb, SFeqb;
  repeat match goal with
  | x : spec_float |- _ => destruct x as [[] | [] | | [] ? ?]
  end;
  simpl; try discriminate; try reflexivity; try tauto;
  intros; cmp_cases; subst;
  try reflexivity; try discriminate; try tauto; try lia.

(** Rewrites comparisons of numbers into comparisons of [spec_float]s
    and abstracts the operands. *)
Ltac to_spec :=
  unfold is_nan;
  rewrite ?FloatAxioms.ltb_spec, ?FloatAxioms.leb_spec, ?FloatAxioms.eqb_spec;
  repeat match goal with
  | |- context [Prim2SF ?x] => generalize (Prim2SF x); clear; intro
  end.

(** Closes [finite_nonzero] for a literal. *)
Ltac finite_constant := do 3 eexists; reflexivity.

(** *** Numbers *)

(** Two results that are opposite numbers, or zeros both. *)
Definition opposite (r r' : spec_float) : Prop :=
  r' = SFopp r \/ (exists s s', r = S754_zero s /\ r' = S754_zero s').

(** A result whose sign bit is clear, or [NaN]. *)
Definition unsigned (x : spec_float) : Prop :=
  match x with
  | S754_zero s | S754_infinity s | S754_finite s _ _ => s = false
  | S754_nan => True
  end.

(** One pass of the loop of [Math.min], and of [Math.max]. *)
Definition min_step (lowest x : number) : number :=
  let lowest := if is_neg_zero x && is_pos_zero lowest then neg_zero else lowest in
  if x <? lowest then x else lowest.

Definition max_step (highest x : number) : number :=
  let highest := if is_pos_zero x && is_neg_zero highest then 0 else highest in
  if highest <? x then x else highest.

Definition ascending (l : list number) : Prop :=
  StronglySorted (fun a b => (a <=? b) = true) l.

(** *** Strings *)

Definition line_feed : ascii := ascii_of_nat 10.

Definition backslash : ascii := ascii_of_nat 92.

(** Whether the character [c] occurs in [s]. *)
Fixpoint occurs (c : ascii) (s : string) : bool :=
  match s with
  | EmptyString => false
  | String a rest => Ascii.eqb a c || occurs c rest
  end.

(** The [rows], each behind a [separator]. *)
Definition records (separator : string) (rows : list string) : string :=
  fold_right (fun row rest => (separator ++ row ++ rest)%string) ""%string rows.

(** Whether [s] holds white space only. *)
Fixpoint allWhiteSpace (s : string) : bool :=
  match s with
  | EmptyString => true
  | String c rest => JSString.isWhiteSpace c && allWhiteSpace rest
  end.

(** *** Rows *)

Definition validCoordinates (d : ClimateData) : bool :=
  negb (isNaN (lat d)) && negb (isNaN (lon d)).

Definition validYear (d : ClimateData) : bool := negb (isNaN (year d)).

(** The four fields that the upload validates. *)
Definition validRow (d : ClimateData) : bool :=
  negb (isNaN (lat d)) && negb (isNaN (lon d)) &&
  negb (isNaN (year d)) && negb (isNaN (prec d)).

(** On the rows [valid] the [field] ranges over [lo .. hi] and takes
    both values. *)
Definition tight_range (field : ClimateData -> number) (valid : list ClimateData)
    (lo hi : number) : Prop :=
  (forall d, In d valid -> (lo <=? field d) = true /\ (field d <=? hi) = true) /\
  (exists d, In d valid /\ field d = lo) /\
  (exists d, In d valid /\ field d = hi).

(** Whether the directional consistency of [a] is a number from [lo] on. *)
Definition consistencyFrom (lo : number) (a : Anomaly) : bool :=
  match directionalConsistency a with
  | Some c => lo <=? c
  | None => false
  end.

(** *** The upload *)

(** The rows pushed for the lines [ls], in order. *)
Definition rowsOf (parseFloat parseInt : string -> number) (ls : list string)
  : list ClimateData :=
  flat_map
    (fun line =>
       match DataUpload.parseLine parseFloat parseInt line with
       | Some parsedRow => [parsedRow]
       | None => []
       end) ls.

(** The arguments of the calls of [onDataUploaded], and of [setUploadStatus]. *)
Definition deliveries (effects : list DataUpload.Effect) : list (list ClimateData) :=
  flat_map
    (fun e => match e with DataUpload.onDataUploaded data => [data] | _ => [] end) effects.

Definition statuses (effects : list DataUpload.Effect) : list DataUpload.UploadStatus :=
  flat_map
    (fun e => match e with DataUpload.setUploadStatus status => [status] | _ => [] end) effects.

(** The error of a file without the expected header. *)
Definition invalidFormat : DataUpload.Error :=
  {| DataUpload.message :=
       "Invalid CSV format. Expected headers: Lat, Lon, Year, Month, Date, WS10M, WD10M, QV2M, Prec" |}.

(** The test of [handleDrop] for a file. *)
Definition isCsv (file : DataUpload.File) : bool :=
  (DataUpload.type file =? "text/csv")%string ||
  JSString.endsWith (DataUpload.name file) ".csv".

(** The toast of a drop without such a file. *)
Definition invalidFileType : Toast :=
  {| title := "Invalid file type";
     description := "Please upload a CSV file";
     variant := variant_destructive |}.

(** ** Facts about binary64 arithmetic *)

Module FloatFacts.

Lemma pzero_or_nan_weaken x : pzero_or_nan x -> zero_or_nan x.
Proof. intros [-> | ->]; exact I. Qed.

Lemma SFcompare_Eq_finite s1 m1 e1 s2 m2 e2 :
  SFcompare (S754_finite s1 m1 e1) (S754_finite s2 m2 e2) = Some Eq ->
  s1 = s2 /\ m1 = m2 /\ e1 = e2.
Proof.
  simpl. destruct s1, s2; try discriminate;
    destruct (Z.compare_spec e1 e2) as [He | He | He]; try discriminate;
    fold (Pos.compare m1 m2); destruct (Pos.compare_spec m1 m2); try discriminate;
    intros _; repeat split; assumption.
Qed.

Lemma sub_of_equal x m : (m =? x) = true -> zero_or_nan (Prim2SF (x - m)).
Proof.
  rewrite FloatAxioms.eqb_spec, FloatAxioms.sub_spec. unfold SFeqb, SF64sub.
  destruct (SFcompare (Prim2SF m) (Prim2SF x)) as [[ | | ] | ] eqn:E; try discriminate.
  intros _.
  destruct (Prim2SF m) as [sm | sm | | sm mm em], (Prim2SF x) as [sx | sx | | sx mx ex];
    try exact I; try discriminate E;
    try (destruct sm; discriminate E); try (destruct sx; discriminate E).
  - destruct sx, sm; exact I.
  - destruct sx, sm; simpl in E; try discriminate E; exact I.
  - apply SFcompare_Eq_finite in E. destruct E as (-> & -> & ->).
    unfold SFsub. rewrite Z.sub_diag. exact I.
Qed.

Lemma square_of_zero x : zero_or_nan (Prim2SF x) -> pzero_or_nan (Prim2SF (Math_pow2 x)).
Proof.
  unfold Math_pow2. rewrite FloatAxioms.mul_spec. unfold SF64mul.
  destruct (Prim2SF x) as [s | s | | s m e]; simpl; try contradiction; intros _.
  - left. now destruct s.
  - now right.
Qed.

Lemma add_pzero x y :
  pzero_or_nan (Prim2SF x) -> pzero_or_nan (Prim2SF y) -> pzero_or_nan (Prim2SF (x + y)).
Proof.
  rewrite FloatAxioms.add_spec. unfold SF64add.
  intros [-> | ->] [-> | ->]; simpl; [now left | now right ..].
Qed.

Lemma div_of_zero x y : zero_or_nan (Prim2SF x) -> zero_or_nan (Prim2SF (x / y)).
Proof.
  rewrite FloatAxioms.div_spec. unfold SF64div.
  destruct (Prim2SF x) as [s | s | | s m e]; try contradiction; intros _;
    destruct (Prim2SF y); exact I.
Qed.

Lemma sqrt_of_zero x : zero_or_nan (Prim2SF x) -> zero_or_nan (Prim2SF (Math_sqrt x)).
Proof.
  unfold Math_sqrt. rewrite FloatAxioms.sqrt_spec. unfold SF64sqrt.
  destruct (Prim2SF x) as [s | s | | s m e]; try contradiction; intros _; exact I.
Qed.

Lemma abs_of_zero x : zero_or_nan (Prim2SF x) -> zero_or_nan (Prim2SF (Math_abs x)).
Proof.
  unfold Math_abs. rewrite FloatAxioms.abs_spec.
  destruct (Prim2SF x) as [s | s | | s m e]; try contradiction; intros _; exact I.
Qed.

(** Zero divided by zero, and anything involving [NaN], is [NaN]. *)
Lemma div_zero_zero x y :
  zero_or_nan (Prim2SF x) -> zero_or_nan (Prim2SF y) -> x / y = nan.
Proof.
  intros Hx Hy. apply Prim2SF_inj. rewrite FloatAxioms.div_spec. unfold SF64div.
  destruct (Prim2SF x) as [s | s | | s m e]; try contradiction;
    destruct (Prim2SF y) as [s' | s' | | s' m' e']; try contradiction; reflexivity.
Qed.

(** *** Order *)

Lemma ltb_nan_r x : (x <? nan) = false.
Proof.
  rewrite FloatAxioms.ltb_spec. change (Prim2SF nan) with S754_nan.
  generalize (Prim2SF x). intros a. sf_order.
Qed.

Lemma leb_ltb_trans x y z : (x <=? y) = true -> (y <? z) = true -> (x <? z) = true.
Proof. to_spec. sf_order. Qed.

Lemma ltb_leb_trans x y z : (x <? y) = true -> (y <=? z) = true -> (x <? z) = true.
Proof. to_spec. sf_order. Qed.

Lemma leb_trans x y z : (x <=? y) = true -> (y <=? z) = true -> (x <=? z) = true.
Proof. to_spec. sf_order. Qed.

Lemma ltb_trans x y z : (x <? y) = true -> (y <? z) = true -> (x <? z) = true.
Proof. to_spec. sf_order. Qed.

Lemma ltb_leb x y : (x <? y) = true -> (x <=? y) = true.
Proof. to_spec. sf_order. Qed.

Lemma eqb_leb x y : (x =? y) = true -> (y <=? x) = true.
Proof. to_spec. sf_order. Qed.

Lemma ltb_eqb_trans x y z : (x <? y) = true -> (z =? y) = true -> (x <? z) = true.
Proof. to_spec. sf_order. Qed.

Lemma eqb_ltb_trans x y z : (y =? x) = true -> (y <? z) = true -> (x <? z) = true.
Proof. to_spec. sf_order. Qed.

Lemma eqb_trans x y z : (x =? y) = true -> (y =? z) = true -> (x =? z) = true.
Proof. to_spec. sf_order. Qed.

(** Two numbers, neither of them [NaN], are comparable. *)
Lemma not_ltb_cases x y :
  is_nan x = false -> is_nan y = false -> (x <? y) = false ->
  (y <? x) = true \/ (x =? y) = true.
Proof. to_spec. sf_order. Qed.

Lemma is_nan_nan : is_nan nan = true.
Proof. reflexivity. Qed.

(** *** Rounding

    The sign of a rounded sum or difference of two binary64 values is
    the sign of the exact result: the operands are multiples of
    [2 ^ emin64], so a non-zero exact result does not round to zero. *)

Local Open Scope Z_scope.

Lemma fexp64 e : SpecFloat.fexp FloatOps.prec emax e = Z.max (e - 53) (-1074).
Proof. reflexivity. Qed.

Lemma digits2_pos_bounds m :
  2 ^ (Zpos (digits2_pos m) - 1) <= Zpos m < 2 ^ Zpos (digits2_pos m).
Proof.
  induction m as [m IH | m IH |]; simpl digits2_pos.
  - rewrite Pos2Z.inj_succ. replace (Z.succ (Zpos (digits2_pos m)) - 1) with (Zpos (digits2_pos m)) by lia.
    rewrite Z.pow_succ_r by lia.
    assert (0 < 2 ^ (Zpos (digits2_pos m) - 1)) by (apply Z.pow_pos_nonneg; lia).
    replace (2 ^ Zpos (digits2_pos m)) with (2 * 2 ^ (Zpos (digits2_pos m) - 1)) in *
      by (rewrite <- Z.pow_succ_r by lia; f_equal; lia).
    lia.
  - rewrite Pos2Z.inj_succ. replace (Z.succ (Zpos (digits2_pos m)) - 1) with (Zpos (digits2_pos m)) by lia.
    rewrite Z.pow_succ_r by lia.
    assert (0 < 2 ^ (Zpos (digits2_pos m) - 1)) by (apply Z.pow_pos_nonneg; lia).
    replace (2 ^ Zpos (digits2_pos m)) with (2 * 2 ^ (Zpos (digits2_pos m) - 1)) in *
      by (rewrite <- Z.pow_succ_r by lia; f_equal; lia).
    lia.
  - simpl. lia.
Qed.

Lemma shr_1_m mrs : 0 <= shr_m mrs -> shr_m (shr_1 mrs) = shr_m mrs / 2.
Proof.
  destruct mrs as [m r s]. cbn [shr_m]. intros H.
  destruct m as [| [p | p |] | p]; cbn [shr_m shr_1]; try lia.
  - reflexivity.
  - apply Z.div_unique with 1; lia.
  - apply Z.div_unique with 0; lia.
  - reflexivity.
Qed.

Lemma iter_shr_1_m p mrs :
  0 <= shr_m mrs -> shr_m (iter_pos shr_1 p mrs) = shr_m mrs / 2 ^ Zpos p.
Proof.
  revert mrs. induction p as [p IH | p IH |]; intros mrs H; simpl iter_pos.
  - assert (H1 : 0 <= shr_m (shr_1 mrs)) by (rewrite shr_1_m by assumption; apply Z.div_pos; lia).
    assert (H2 : 0 <= shr_m (iter_pos shr_1 p (shr_1 mrs)))
      by (rewrite IH by assumption; apply Z.div_pos; [lia | apply Z.pow_pos_nonneg; lia]).
    rewrite IH, IH, shr_1_m by assumption.
    rewrite !Z.div_div by (try apply Z.pow_pos_nonneg; lia).
    f_equal.
    replace (Zpos p~1) with (1 + Zpos p + Zpos p) by lia.
    rewrite !Z.pow_add_r by lia. change (2 ^ 1) with 2. lia.
  - assert (H2 : 0 <= shr_m (iter_pos shr_1 p mrs))
      by (rewrite IH by assumption; apply Z.div_pos; [lia | apply Z.pow_pos_nonneg; lia]).
    rewrite IH, IH by assumption.
    rewrite !Z.div_div by (try apply Z.pow_pos_nonneg; lia).
    f_equal.
    replace (Zpos p~0) with (Zpos p + Zpos p) by lia.
    rewrite !Z.pow_add_r by lia. lia.
  - now apply shr_1_m.
Qed.

Lemma shr_record_of_loc_m m l : shr_m (shr_record_of_loc m l) = m.
Proof. destruct l as [| []]; reflexivity. Qed.

(** Shifting a positive mantissa to its canonical exponent keeps it positive. *)
Lemma shr_fexp_pos m e l :
  0 < m -> emin64 <= e ->
  0 < shr_m (fst (shr_fexp FloatOps.prec emax m e l)) /\ emin64 <= snd (shr_fexp FloatOps.prec emax m e l).
Proof.
  intros Hm He. unfold shr_fexp, shr. rewrite fexp64.
  destruct m as [| p | p]; try lia. simpl Zdigits2.
  pose proof (digits2_pos_bounds p) as Hd.
  set (d := Zpos (digits2_pos p)) in *.
  destruct (Z.max (d + e - 53) (-1074) - e) as [| n | n] eqn:En; simpl fst; simpl snd;
    rewrite ?shr_record_of_loc_m; unfold emin64 in *; try lia.
  rewrite iter_shr_1_m by (rewrite shr_record_of_loc_m; lia).
  rewrite shr_record_of_loc_m. split; [| lia].
  assert (Hn : Zpos n = d - 53) by lia.
  apply Z.div_str_pos. split; [apply Z.pow_pos_nonneg; lia |].
  apply Z.le_trans with (2 ^ (d - 1)); [| lia].
  apply Z.pow_le_mono_r; lia.
Qed.

Lemma round_nearest_even_ge m l : 0 < m -> 0 < round_nearest_even m l.
Proof. intros H. destruct l as [| []]; simpl; try lia. destruct (Z.even m); lia. Qed.

Lemma binary_round_aux_pos s m e l :
  0 < m -> emin64 <= e -> signed_result s (binary_round_aux FloatOps.prec emax s m e l).
Proof.
  intros Hm He. unfold binary_round_aux.
  pose proof (shr_fexp_pos m e l Hm He) as [H1 H1'].
  destruct (shr_fexp FloatOps.prec emax m e l) as [mrs' e']. simpl in H1, H1'.
  pose proof (shr_fexp_pos _ e' loc_Exact (round_nearest_even_ge _ (loc_of_shr_record mrs') H1) H1') as [H2 _].
  destruct (shr_fexp FloatOps.prec emax _ e' loc_Exact) as [mrs'' e'']. simpl in H2.
  destruct (shr_m mrs'') as [| q | q]; try lia.
  destruct (e'' <=? emax - FloatOps.prec); constructor.
Qed.

Lemma binary_round_pos s m e :
  emin64 <= e -> signed_result s (binary_round FloatOps.prec emax s m e).
Proof.
  intros He. unfold binary_round, shl_align. rewrite fexp64.
  destruct (Z.max (Zpos (digits2_pos m) + e - 53) (-1074) - e) eqn:E;
    apply binary_round_aux_pos; unfold emin64 in *; lia.
Qed.

Lemma iter_xO_pow m d : Zpos (Pos.iter xO m d) = Zpos m * 2 ^ Zpos d.
Proof.
  induction d as [| d IH] using Pos.peano_ind.
  - simpl. lia.
  - rewrite Pos.iter_succ, Pos2Z.inj_xO, IH, Pos2Z.inj_succ, Z.pow_succ_r by lia. lia.
Qed.

Lemma shl_align_fst m e ez :
  ez <= e -> Zpos (fst (shl_align m e ez)) = Zpos m * 2 ^ (e - ez).
Proof.
  intros H. unfold shl_align.
  destruct (ez - e) as [| d | d] eqn:E; simpl fst; try lia.
  - replace (e - ez) with 0 by lia. simpl. lia.
  - rewrite iter_xO_pow. f_equal. f_equal. lia.
Qed.

Lemma bounded_inv m e :
  bounded FloatOps.prec emax m e = true ->
  emin64 <= e /\ Zpos m < 2 ^ 53 /\ (emin64 < e -> 2 ^ 52 <= Zpos m).
Proof.
  unfold bounded, canonical_mantissa. rewrite fexp64. intros H.
  apply andb_prop in H. destruct H as [H _]. apply Z.eqb_eq in H.
  pose proof (digits2_pos_bounds m) as [Hlo Hhi].
  set (d := Zpos (digits2_pos m)) in *. unfold emin64.
  assert (Hd : d <= 53) by lia.
  repeat split; try lia.
  - apply Z.lt_le_trans with (2 ^ d); [assumption | apply Z.pow_le_mono_r; lia].
  - intros He. assert (d = 53) as Hd' by lia. rewrite Hd' in Hlo. exact Hlo.
Qed.

Lemma scaled_lt_exponent ma ea mb eb ez :
  bounded FloatOps.prec emax ma ea = true -> bounded FloatOps.prec emax mb eb = true ->
  ez <= ea -> ea < eb ->
  Zpos ma * 2 ^ (ea - ez) < Zpos mb * 2 ^ (eb - ez).
Proof.
  intros Ha Hb Hz Hlt.
  apply bounded_inv in Ha, Hb. destruct Ha as (Ha1 & Ha2 & _), Hb as (_ & _ & Hb3).
  specialize (Hb3 ltac:(lia)).
  replace (eb - ez) with ((eb - ea) + (ea - ez)) by lia.
  rewrite Z.pow_add_r by lia.
  assert (HP : 0 < 2 ^ (ea - ez)) by (apply Z.pow_pos_nonneg; lia).
  assert (HQ : 2 ^ 1 <= 2 ^ (eb - ea)) by (apply Z.pow_le_mono_r; lia).
  change (2 ^ 1) with 2 in HQ. change (2 ^ 53) with (2 * 2 ^ 52) in Ha2.
  rewrite Z.mul_assoc. apply Z.mul_lt_mono_pos_r; [assumption |].
  nia.
Qed.

Lemma mul_compare_pos a b p : 0 < p -> (a * p ?= b * p) = (a ?= b).
Proof.
  intros Hp. destruct (Z.compare_spec a b) as [H | H | H].
  - subst. apply Z.compare_refl.
  - apply Z.compare_lt_iff. nia.
  - apply Z.compare_gt_iff. nia.
Qed.

Lemma SFcompare_scaled sa ma ea sb mb eb ez :
  bounded FloatOps.prec emax ma ea = true -> bounded FloatOps.prec emax mb eb = true ->
  ez <= ea -> ez <= eb ->
  SFcompare (S754_finite sa ma ea) (S754_finite sb mb eb) =
  Some (scaled sa ma ea ez ?= scaled sb mb eb ez).
Proof.
  intros Ha Hb Hza Hzb. unfold scaled.
  assert (HPa : 0 < 2 ^ (ea - ez)) by (apply Z.pow_pos_nonneg; lia).
  assert (HPb : 0 < 2 ^ (eb - ez)) by (apply Z.pow_pos_nonneg; lia).
  assert (HA : 0 < Zpos ma * 2 ^ (ea - ez)) by lia.
  assert (HB : 0 < Zpos mb * 2 ^ (eb - ez)) by lia.
  simpl SFcompare. f_equal.
  change (Pos.compare_cont Eq ma mb) with (Pos.compare ma mb).
  destruct sa, sb; unfold cond_Zopp.
  - destruct (Z.compare_spec ea eb) as [He | He | He].
    + subst eb. rewrite Z.compare_opp.
      rewrite mul_compare_pos by assumption.
      symmetry. apply Pos.compare_antisym.
    + symmetry. apply Z.compare_gt_iff.
      pose proof (scaled_lt_exponent ma ea mb eb ez Ha Hb Hza He). lia.
    + symmetry. apply Z.compare_lt_iff.
      pose proof (scaled_lt_exponent mb eb ma ea ez Hb Ha Hzb He). lia.
  - symmetry. apply Z.compare_lt_iff. lia.
  - symmetry. apply Z.compare_gt_iff. lia.
  - destruct (Z.compare_spec ea eb) as [He | He | He].
    + subst eb. rewrite mul_compare_pos by assumption. reflexivity.
    + symmetry. apply Z.compare_lt_iff.
      exact (scaled_lt_exponent ma ea mb eb ez Ha Hb Hza He).
    + symmetry. apply Z.compare_gt_iff.
      exact (scaled_lt_exponent mb eb ma ea ez Hb Ha Hzb He).
Qed.

Lemma SFltb_zero_signed s r :
  signed_result s r -> SFltb (S754_zero false) r = negb s.
Proof. intros []; destruct s; reflexivity. Qed.

Lemma SFltb_zero_normalize d ez :
  emin64 <= ez ->
  SFltb (S754_zero false) (binary_normalize FloatOps.prec emax d ez false) = (0 <? d).
Proof.
  intros He. destruct d as [| p | p]; simpl binary_normalize.
  - reflexivity.
  - rewrite (SFltb_zero_signed _ _ (binary_round_pos false p ez He)). reflexivity.
  - rewrite (SFltb_zero_signed _ _ (binary_round_pos true p ez He)). reflexivity.
Qed.

(** The sign test of a difference is the comparison of its operands. *)
Lemma SFsub_positive a b :
  valid_binary a = true -> valid_binary b = true ->
  SFltb (S754_zero false) (SF64sub b a) = SFltb a b.
Proof.
  intros Ha Hb.
  destruct a as [sa | sa | | sa ma ea], b as [sb | sb | | sb mb eb];
    try reflexivity;
    try (destruct sa; try destruct sb; reflexivity);
    try (destruct sb; reflexivity).
  unfold SF64sub, SFsub. simpl in Ha, Hb.
  pose proof (bounded_inv _ _ Ha) as (Ha1 & _). pose proof (bounded_inv _ _ Hb) as (Hb1 & _).
  set (ez := Z.min eb ea).
  rewrite SFltb_zero_normalize by (unfold ez; lia).
  rewrite !shl_align_fst by (unfold ez; lia).
  unfold SFltb. rewrite (SFcompare_scaled sa ma ea sb mb eb ez Ha Hb) by (unfold ez; lia).
  unfold scaled.
  destruct (Z.compare_spec (cond_Zopp sa (Zpos ma * 2 ^ (ea - ez)))
                           (cond_Zopp sb (Zpos mb * 2 ^ (eb - ez)))); lia.
Qed.

(** *** Correct rounding

    [binary_round_aux] on an exact mantissa is rounding to nearest,
    ties to even, at the canonical exponent; it is monotone in the
    exact value.  Products, sums and differences of finite numbers
    are roundings of their exact results. *)

Lemma shr_1_nonneg m r s :
  0 <= m -> shr_1 {| shr_m := m; shr_r := r; shr_s := s |} =
            {| shr_m := m / 2; shr_r := Z.odd m; shr_s := r || s |}.
Proof.
  intros H. destruct m as [| [p | p |] | p]; cbn [shr_1]; try lia; try reflexivity.
  - f_equal. apply Z.div_unique with 1; lia.
  - f_equal. apply Z.div_unique with 0; lia.
Qed.

Lemma div_mod_double N P :
  0 < P -> 0 <= N ->
  N / (2 * P) = N / P / 2 /\ N mod (2 * P) = N mod P + P * (N / P mod 2).
Proof.
  intros HP HN.
  pose proof (Z.div_mod N P ltac:(lia)) as H1.
  pose proof (Z.mod_pos_bound N P HP) as H2.
  pose proof (Z.div_mod (N / P) 2 ltac:(lia)) as H3.
  pose proof (Z.mod_pos_bound (N / P) 2 ltac:(lia)) as H4.
  assert (E : N = 2 * P * (N / P / 2) + (N mod P + P * (N / P mod 2))) by nia.
  split; symmetry.
  - apply Z.div_unique with (N mod P + P * (N / P mod 2)); [nia | exact E].
  - apply Z.mod_unique with (N / P / 2); [nia | exact E].
Qed.

Lemma shr_1_spec N k : 0 <= N -> 0 <= k -> shr_1 (shr_spec N k) = shr_spec N (k + 1).
Proof.
  intros HN Hk. unfold shr_spec.
  assert (HP : 0 < 2 ^ k) by (apply Z.pow_pos_nonneg; lia).
  rewrite shr_1_nonneg by (apply Z.div_pos; lia).
  rewrite Z.pow_add_r by lia. change (2 ^ 1) with 2. rewrite (Z.mul_comm (2 ^ k) 2).
  destruct (div_mod_double N (2 ^ k) HP HN) as [-> ->].
  pose proof (Z.mod_pos_bound N (2 ^ k) HP) as Hb.
  pose proof (Z.mod_pos_bound (N / 2 ^ k) 2 ltac:(lia)) as Ha.
  rewrite Zodd_mod.
  set (a := N / 2 ^ k mod 2) in *. set (b := N mod 2 ^ k) in *. set (P := 2 ^ k) in *.
  assert (Ha' : a = 0 \/ a = 1) by lia.
  destruct Ha' as [Ea | Ea]; rewrite Ea;
    [replace (b + P * 0) with b by lia | replace (b + P * 1) with (b + P) by lia];
    f_equal.
  - destruct (Z.leb_spec (2 * P) (2 * b)); try reflexivity; lia.
  - destruct (Z.leb_spec P (2 * b)), (Z.eqb_spec b 0), (Z.eqb_spec (2 * b) P),
      (Z.eqb_spec (2 * b) (2 * P)); simpl; try reflexivity; lia.
  - destruct (Z.leb_spec (2 * P) (2 * (b + P))); try reflexivity; lia.
  - destruct (Z.leb_spec P (2 * b)), (Z.eqb_spec b 0), (Z.eqb_spec (2 * b) P),
      (Z.eqb_spec (b + P) 0), (Z.eqb_spec (2 * (b + P)) (2 * P)); simpl; try reflexivity; lia.
Qed.

Lemma iter_shr_spec p N k :
  0 <= N -> 0 <= k -> iter_pos shr_1 p (shr_spec N k) = shr_spec N (k + Zpos p).
Proof.
  intros HN. revert k. induction p as [p IH | p IH |]; intros k Hk; cbn [iter_pos].
  - rewrite shr_1_spec, IH, IH by lia. f_equal. lia.
  - rewrite IH, IH by lia. f_equal. lia.
  - now apply shr_1_spec.
Qed.

Lemma shr_spec_0 N : shr_spec N 0 = {| shr_m := N; shr_r := false; shr_s := false |}.
Proof.
  unfold shr_spec. change (2 ^ 0) with 1. rewrite Z.div_1_r, Z.mod_1_r. reflexivity.
Qed.

(** [shr] by a non-negative amount. *)
Lemma shr_exact N e n :
  0 <= N -> 0 <= n ->
  shr (shr_record_of_loc N loc_Exact) e n = (shr_spec N n, e + n).
Proof.
  intros HN Hn. unfold shr, shr_record_of_loc. rewrite <- shr_spec_0.
  destruct n as [| p | p]; try lia.
  - now rewrite Z.add_0_r.
  - now rewrite iter_shr_spec by lia.
Qed.

Lemma round_shr_spec N k :
  0 <= N -> 0 <= k ->
  round_nearest_even (shr_m (shr_spec N k)) (loc_of_shr_record (shr_spec N k)) = rne N k.
Proof.
  intros HN Hk. unfold shr_spec, rne, loc_of_shr_record, round_nearest_even. cbn [shr_m].
  assert (HP : 0 < 2 ^ k) by (apply Z.pow_pos_nonneg; lia).
  pose proof (Z.mod_pos_bound N (2 ^ k) HP) as Hb.
  set (b := N mod 2 ^ k) in *. set (P := 2 ^ k) in *. set (m := N / P).
  destruct (Z.leb_spec P (2 * b)), (Z.eqb_spec b 0), (Z.eqb_spec (2 * b) P),
    (Z.ltb_spec (2 * b) P), (Z.ltb_spec P (2 * b)); simpl; try reflexivity; lia.
Qed.

Lemma rne_bounds N k : 0 <= N -> 0 <= k -> N / 2 ^ k <= rne N k <= N / 2 ^ k + 1.
Proof.
  intros HN Hk. unfold rne.
  destruct (2 * (N mod 2 ^ k) <? 2 ^ k), (2 ^ k <? 2 * (N mod 2 ^ k)), (Z.even (N / 2 ^ k)); lia.
Qed.

Lemma rne_mono N1 N2 k : 0 <= N1 <= N2 -> 0 <= k -> rne N1 k <= rne N2 k.
Proof.
  intros HN Hk.
  assert (HP : 0 < 2 ^ k) by (apply Z.pow_pos_nonneg; lia).
  pose proof (Z.div_le_mono N1 N2 (2 ^ k) HP ltac:(lia)) as Hm.
  pose proof (rne_bounds N1 k ltac:(lia) Hk) as H1.
  pose proof (rne_bounds N2 k ltac:(lia) Hk) as H2.
  destruct (Z.eq_dec (N1 / 2 ^ k) (N2 / 2 ^ k)) as [E | E]; [| lia].
  pose proof (Z.div_mod N1 (2 ^ k) ltac:(lia)) as D1.
  pose proof (Z.div_mod N2 (2 ^ k) ltac:(lia)) as D2.
  assert (Hb : N1 mod 2 ^ k <= N2 mod 2 ^ k) by (rewrite E in D1; nia).
  unfold rne. rewrite E.
  destruct (Z.ltb_spec (2 * (N1 mod 2 ^ k)) (2 ^ k)), (Z.ltb_spec (2 ^ k) (2 * (N1 mod 2 ^ k))),
    (Z.ltb_spec (2 * (N2 mod 2 ^ k)) (2 ^ k)), (Z.ltb_spec (2 ^ k) (2 * (N2 mod 2 ^ k)));
    destruct (Z.even (N2 / 2 ^ k)); lia.
Qed.

Lemma rne_below N k T : 0 <= N -> 0 <= k -> N < T * 2 ^ k -> rne N k <= T.
Proof.
  intros HN Hk H.
  assert (HP : 0 < 2 ^ k) by (apply Z.pow_pos_nonneg; lia).
  pose proof (rne_bounds N k HN Hk).
  assert (N / 2 ^ k < T) by (apply Z.div_lt_upper_bound; lia). lia.
Qed.

Lemma rne_above N k T : 0 <= N -> 0 <= k -> T * 2 ^ k <= N -> T <= rne N k.
Proof.
  intros HN Hk H.
  assert (HP : 0 < 2 ^ k) by (apply Z.pow_pos_nonneg; lia).
  pose proof (rne_bounds N k HN Hk).
  assert (T <= N / 2 ^ k) by (apply Z.div_le_lower_bound; lia). lia.
Qed.

Lemma rne_scale N k j : 0 <= N -> 0 <= k -> 0 <= j -> rne (N * 2 ^ j) (k + j) = rne N k.
Proof.
  intros HN Hk Hj. unfold rne.
  assert (HP : 0 < 2 ^ k) by (apply Z.pow_pos_nonneg; lia).
  assert (HJ : 0 < 2 ^ j) by (apply Z.pow_pos_nonneg; lia).
  rewrite Z.pow_add_r by lia.
  rewrite Z.div_mul_cancel_r by lia.
  rewrite Zmult_mod_distr_r.
  set (b := N mod 2 ^ k). set (P := 2 ^ k) in *. set (J := 2 ^ j) in *.
  destruct (Z.ltb_spec (2 * (b * J)) (P * J)), (Z.ltb_spec (2 * b) P),
    (Z.ltb_spec (P * J) (2 * (b * J))), (Z.ltb_spec P (2 * b)); try reflexivity; nia.
Qed.

Lemma digits_unique p k : 2 ^ (k - 1) <= Zpos p < 2 ^ k -> Zpos (digits2_pos p) = k.
Proof.
  intros [Hlo Hhi]. pose proof (digits2_pos_bounds p) as [Dlo Dhi].
  set (d := Zpos (digits2_pos p)) in *.
  assert (Hk : 0 < k).
  { destruct (Z.ltb_spec 0 k); [assumption |].
    assert (2 ^ k <= 2 ^ 0) by (destruct (Z.ltb_spec k 0);
      [rewrite Z.pow_neg_r by assumption; simpl; lia | apply Z.pow_le_mono_r; lia]).
    simpl in *. lia. }
  destruct (Z.lt_trichotomy d k) as [H | [H | H]]; [| assumption |].
  - assert (2 ^ d <= 2 ^ (k - 1)) by (apply Z.pow_le_mono_r; lia). lia.
  - assert (2 ^ k <= 2 ^ (d - 1)) by (apply Z.pow_le_mono_r; lia). lia.
Qed.

Lemma round_result_closed s M E :
  0 < M ->
  E <= Z.max (Zdigits2 M + E - 53) (-1074) ->
  binary_round_aux FloatOps.prec emax s M E loc_Exact =
  round_result s (rne M (Z.max (Zdigits2 M + E - 53) (-1074) - E))
    (Z.max (Zdigits2 M + E - 53) (-1074)).
Proof.
  intros HM Hc. destruct M as [| p | p]; try lia. cbn [Zdigits2] in *.
  pose proof (digits2_pos_bounds p) as [Dlo Dhi].
  set (d := Zpos (digits2_pos p)) in *.
  set (c := Z.max (d + E - 53) (-1074)) in *.
  unfold binary_round_aux, shr_fexp. rewrite fexp64. cbn [Zdigits2]. fold d. fold c.
  rewrite shr_exact by lia. replace (E + (c - E)) with c by lia.
  rewrite round_shr_spec by lia.
  set (q := rne (Zpos p) (c - E)).
  assert (Hq : 0 <= q <= 2 ^ 53).
  { pose proof (rne_bounds (Zpos p) (c - E) ltac:(lia) ltac:(lia)) as Hb. fold q in Hb.
    assert (0 <= Zpos p / 2 ^ (c - E)) by (apply Z.div_pos; [lia | apply Z.pow_pos_nonneg; lia]).
    split; [lia |].
    assert (q <= 2 ^ 53); [| lia].
    apply rne_below; try lia.
    rewrite <- Z.pow_add_r by lia.
    apply Z.lt_le_trans with (2 ^ d); [assumption | apply Z.pow_le_mono_r; lia]. }
  unfold round_result. rewrite fexp64.
  destruct (Z.eqb_spec q 0) as [Hq0 | Hq0].
  - rewrite Hq0. cbn [Zdigits2]. unfold shr, shr_record_of_loc.
    destruct (Z.max (0 + c - 53) (-1074) - c) eqn:En; try lia; reflexivity.
  - destruct (Z.eqb_spec q (2 ^ 53)) as [Hq1 | Hq1].
    + rewrite Hq1. change (Zdigits2 (2 ^ 53)) with 54.
      replace (Z.max (54 + c - 53) (-1074) - c) with 1 by lia.
      cbn. reflexivity.
    + destruct q as [| pq | pq] eqn:Eq; try lia. cbn [Zdigits2].
      assert (Hd : Zpos (digits2_pos pq) <= 53).
      { pose proof (digits2_pos_bounds pq) as [Qlo Qhi].
        destruct (Z.leb_spec (Zpos (digits2_pos pq)) 53); [assumption |].
        assert (2 ^ 53 <= 2 ^ (Zpos (digits2_pos pq) - 1)) by (apply Z.pow_le_mono_r; lia).
        lia. }
      unfold shr, shr_record_of_loc.
      destruct (Z.max (Zpos (digits2_pos pq) + c - 53) (-1074) - c) eqn:En; try lia;
        cbn [shr_m fst snd Z.to_pos]; reflexivity.
Qed.

Lemma Zdigits2_bounds N : 0 < N -> 2 ^ (Zdigits2 N - 1) <= N < 2 ^ Zdigits2 N.
Proof. destruct N as [| p | p]; try lia. intros _. apply digits2_pos_bounds. Qed.

Lemma Zdigits2_unique N k : 0 < N -> 2 ^ (k - 1) <= N < 2 ^ k -> Zdigits2 N = k.
Proof. destruct N as [| p | p]; try lia. intros _. apply digits_unique. Qed.

Lemma Zdigits2_mono N1 N2 : 0 < N1 <= N2 -> Zdigits2 N1 <= Zdigits2 N2.
Proof.
  intros H.
  pose proof (Zdigits2_bounds N1 ltac:(lia)) as [L1 _].
  pose proof (Zdigits2_bounds N2 ltac:(lia)) as [_ H2].
  destruct (Z.leb_spec (Zdigits2 N1) (Zdigits2 N2)); [assumption |].
  assert (2 ^ Zdigits2 N2 <= 2 ^ (Zdigits2 N1 - 1)).
  { apply Z.pow_le_mono_r; [lia |]. lia. }
  lia.
Qed.

Lemma Zdigits2_pos N : 0 < N -> 0 < Zdigits2 N.
Proof. destruct N; simpl; lia. Qed.

Lemma Zdigits2_scale N j : 0 < N -> 0 <= j -> Zdigits2 (N * 2 ^ j) = Zdigits2 N + j.
Proof.
  intros HN Hj.
  assert (HJ : 0 < 2 ^ j) by (apply Z.pow_pos_nonneg; lia).
  pose proof (Zdigits2_bounds N HN) as [Lo Hi]. pose proof (Zdigits2_pos N HN) as Hd.
  apply Zdigits2_unique; [nia |].
  replace (Zdigits2 N + j - 1) with (Zdigits2 N - 1 + j) by lia.
  rewrite !Z.pow_add_r by lia. nia.
Qed.

Lemma rounded_mono N1 N2 B :
  B <= -1074 -> 0 < N1 <= N2 -> rounded N1 B <= rounded N2 B.
Proof.
  intros HB HN. unfold rounded.
  pose proof (Zdigits2_mono N1 N2 HN) as Hd.
  pose proof (Zdigits2_bounds N1 ltac:(lia)) as [Lo1 Hi1].
  pose proof (Zdigits2_bounds N2 ltac:(lia)) as [Lo2 Hi2].
  pose proof (Zdigits2_pos N1 ltac:(lia)) as Hp1.
  unfold cexp.
  set (d1 := Zdigits2 N1) in *. set (d2 := Zdigits2 N2) in *.
  set (c1 := Z.max (d1 + B - 53) (-1074)). set (c2 := Z.max (d2 + B - 53) (-1074)).
  assert (Hc : c1 <= c2) by lia.
  assert (H1 : 0 < 2 ^ (c1 - B)) by (apply Z.pow_pos_nonneg; lia).
  assert (H2 : 0 < 2 ^ (c2 - B)) by (apply Z.pow_pos_nonneg; lia).
  destruct (Z.eq_dec c1 c2) as [E | E].
  - rewrite <- E. apply Z.mul_le_mono_nonneg_r; [lia |].
    apply rne_mono; lia.
  - assert (Hc2 : c2 = d2 + B - 53) by lia.
    assert (Hlt : d1 < d2) by lia.
    apply Z.le_trans with (2 ^ (d2 - 1)).
    + replace (d2 - 1) with ((d2 - 1 - (c1 - B)) + (c1 - B)) by lia.
      rewrite Z.pow_add_r by lia.
      apply Z.mul_le_mono_nonneg_r; [lia |].
      apply rne_below; try lia.
      rewrite <- Z.pow_add_r by lia.
      replace (d2 - 1 - (c1 - B) + (c1 - B)) with (d2 - 1) by lia.
      apply Z.lt_le_trans with (2 ^ d1); [assumption | apply Z.pow_le_mono_r; lia].
    + replace (d2 - 1) with (52 + (c2 - B)) at 1 by lia.
      rewrite Z.pow_add_r by lia.
      apply Z.mul_le_mono_nonneg_r; [lia |].
      apply rne_above; try lia.
      rewrite <- Z.pow_add_r by lia.
      replace (52 + (c2 - B)) with (d2 - 1) by lia. assumption.
Qed.

Lemma bounded_intro m e :
  -1074 <= e <= 971 -> Zpos m < 2 ^ 53 -> (-1074 < e -> 2 ^ 52 <= Zpos m) ->
  bounded FloatOps.prec emax m e = true.
Proof.
  intros He Hm Hn. unfold bounded, canonical_mantissa. rewrite fexp64.
  apply andb_true_intro. split; [| apply Z.leb_le; simpl; lia].
  apply Z.eqb_eq.
  pose proof (digits2_pos_bounds m) as [Lo Hi].
  set (d := Zpos (digits2_pos m)) in *.
  assert (Hd : d <= 53).
  { destruct (Z.leb_spec d 53); [assumption |].
    assert (2 ^ 53 <= 2 ^ (d - 1)) by (apply Z.pow_le_mono_r; lia). lia. }
  destruct (Z.eq_dec e (-1074)) as [-> | Hne]; [lia |].
  assert (d = 53); [| lia].
  destruct (Z.eq_dec d 53); [assumption |].
  assert (2 ^ d <= 2 ^ 52) by (apply Z.pow_le_mono_r; lia).
  specialize (Hn ltac:(lia)). lia.
Qed.

Lemma round_result_rounds s N B :
  0 < N -> B <= -1074 ->
  rounds_to s (rounded N B) B (round_result s (rne N (cexp N B - B)) (cexp N B)).
Proof.
  intros HN HB. unfold rounded.
  pose proof (Zdigits2_bounds N HN) as [Lo Hi]. pose proof (Zdigits2_pos N HN) as Hp.
  assert (Hc : -1074 <= cexp N B) by (unfold cexp; lia).
  assert (Hcd : Zdigits2 N + B - 53 <= cexp N B) by (unfold cexp; lia).
  assert (Hcase : -1074 < cexp N B -> cexp N B = Zdigits2 N + B - 53) by (unfold cexp; lia).
  set (c := cexp N B) in *. set (d := Zdigits2 N) in *.
  assert (HP : 0 < 2 ^ (c - B)) by (apply Z.pow_pos_nonneg; lia).
  assert (Hq : 0 <= rne N (c - B) <= 2 ^ 53).
  { pose proof (rne_bounds N (c - B) ltac:(lia) ltac:(lia)) as Hb.
    assert (0 <= N / 2 ^ (c - B)) by (apply Z.div_pos; lia).
    split; [lia |]. apply rne_below; try lia.
    rewrite <- Z.pow_add_r by lia.
    apply Z.lt_le_trans with (2 ^ d); [assumption | apply Z.pow_le_mono_r; lia]. }
  assert (Hnormal : -1074 < c -> 2 ^ 52 <= rne N (c - B)).
  { intros Hn. specialize (Hcase Hn).
    apply rne_above; try lia. rewrite <- Z.pow_add_r by lia.
    replace (52 + (c - B)) with (d - 1) by lia. assumption. }
  set (q := rne N (c - B)) in *.
  unfold round_result.
  destruct (Z.eqb_spec q 0) as [Hq0 | Hq0].
  - constructor. rewrite Hq0. reflexivity.
  - destruct (Z.eqb_spec q (2 ^ 53)) as [Hq1 | Hq1].
    + destruct (Z.leb_spec (c + 1) 971).
      * apply rounds_to_finite.
        -- apply bounded_intro; simpl; lia.
        -- lia.
        -- rewrite Hq1. replace (c + 1 - B) with (1 + (c - B)) by lia.
           rewrite Z.pow_add_r by lia. change (Zpos (2 ^ 52)) with (2 ^ 52). simpl (2 ^ 1). lia.
      * constructor. rewrite Hq1.
        apply Z.le_trans with (2 ^ 53 * 2 ^ (971 - B)).
        -- rewrite <- Z.pow_add_r by lia. apply Z.pow_le_mono_r; lia.
        -- apply Z.mul_le_mono_nonneg_l; [lia | apply Z.pow_le_mono_r; lia].
    + destruct (Z.leb_spec c 971).
      * assert (Hpos : Zpos (Z.to_pos q) = q) by (apply Z2Pos.id; lia).
        apply rounds_to_finite.
        -- apply bounded_intro; rewrite ?Hpos; lia.
        -- lia.
        -- rewrite Hpos. reflexivity.
      * constructor. specialize (Hnormal ltac:(lia)).
        apply Z.le_trans with (2 ^ 52 * 2 ^ (972 - B)).
        -- rewrite <- Z.pow_add_r by lia. apply Z.pow_le_mono_r; lia.
        -- apply Z.mul_le_mono_nonneg; try lia. apply Z.pow_le_mono_r; lia.
Qed.

Lemma bounded_le m e : bounded FloatOps.prec emax m e = true -> e <= 971.
Proof.
  unfold bounded. intros H. apply andb_prop in H. destruct H as [_ H].
  apply Z.leb_le in H. exact H.
Qed.

Lemma rounds_to_finite_bound s w B m e :
  B <= -1074 -> rounds_to s w B (S754_finite s m e) -> 0 < w < 2 ^ (1024 - B).
Proof.
  intros HB H. inversion H as [| m' e' Hb He Hw |]; subst.
  pose proof (bounded_le m e Hb) as Hle.
  apply bounded_inv in Hb. destruct Hb as (H1 & H2 & _). unfold emin64 in H1.
  assert (0 < 2 ^ (e - B)) by (apply Z.pow_pos_nonneg; lia).
  split; [lia |].
  apply Z.lt_le_trans with (2 ^ 53 * 2 ^ (e - B)); [nia |].
  rewrite <- Z.pow_add_r by lia. apply Z.pow_le_mono_r; lia.
Qed.

Lemma rounds_to_leb B w1 w2 r1 r2 :
  B <= -1074 -> w1 <= w2 ->
  rounds_to false w1 B r1 -> rounds_to false w2 B r2 -> SFleb r1 r2 = true.
Proof.
  intros HB Hw H1 H2.
  destruct H1 as [Hz1 | m1 e1 Hb1 He1 Hv1 | Hi1].
  - destruct H2; reflexivity.
  - pose proof (rounds_to_finite_bound false w1 B m1 e1 HB
                  (rounds_to_finite false w1 B m1 e1 Hb1 He1 Hv1)) as Hw1.
    destruct H2 as [Hz2 | m2 e2 Hb2 He2 Hv2 | Hi2]; [lia | | reflexivity].
    unfold SFleb. rewrite (SFcompare_scaled false m1 e1 false m2 e2 B Hb1 Hb2 He1 He2).
    unfold scaled, cond_Zopp. rewrite Hv1, Hv2.
    destruct (Z.compare_spec w1 w2); try reflexivity; lia.
  - destruct H2 as [Hz2 | m2 e2 Hb2 He2 Hv2 | Hi2]; [| | reflexivity].
    + assert (0 < 2 ^ (1024 - B)) by (apply Z.pow_pos_nonneg; lia). lia.
    + pose proof (rounds_to_finite_bound false w2 B m2 e2 HB
                    (rounds_to_finite false w2 B m2 e2 Hb2 He2 Hv2)). lia.
Qed.

Lemma rounds_to_leb_neg B w1 w2 r1 r2 :
  B <= -1074 -> w1 <= w2 ->
  rounds_to true w1 B r1 -> rounds_to true w2 B r2 -> SFleb r2 r1 = true.
Proof.
  intros HB Hw H1 H2.
  destruct H1 as [Hz1 | m1 e1 Hb1 He1 Hv1 | Hi1].
  - destruct H2; reflexivity.
  - pose proof (rounds_to_finite_bound true w1 B m1 e1 HB
                  (rounds_to_finite true w1 B m1 e1 Hb1 He1 Hv1)) as Hw1.
    destruct H2 as [Hz2 | m2 e2 Hb2 He2 Hv2 | Hi2]; [lia | | reflexivity].
    unfold SFleb. rewrite (SFcompare_scaled true m2 e2 true m1 e1 B Hb2 Hb1 He2 He1).
    unfold scaled, cond_Zopp. rewrite Hv1, Hv2.
    destruct (Z.compare_spec (- w2) (- w1)); try reflexivity; lia.
  - destruct H2 as [Hz2 | m2 e2 Hb2 He2 Hv2 | Hi2]; [| | reflexivity].
    + assert (0 < 2 ^ (1024 - B)) by (apply Z.pow_pos_nonneg; lia). lia.
    + pose proof (rounds_to_finite_bound true w2 B m2 e2 HB
                    (rounds_to_finite true w2 B m2 e2 Hb2 He2 Hv2)). lia.
Qed.

Lemma rounds_to_sign_leb B w1 w2 r1 r2 :
  rounds_to true w1 B r1 -> rounds_to false w2 B r2 -> SFleb r1 r2 = true.
Proof. intros [] []; reflexivity. Qed.

(** Rounding is monotone. *)
Lemma exact_round_mono B V1 V2 r1 r2 :
  B <= -1074 -> V1 <= V2 ->
  exact_round V1 B r1 -> exact_round V2 B r2 -> SFleb r1 r2 = true.
Proof.
  intros HB HV H1 H2.
  destruct V1 as [| p1 | p1], V2 as [| p2 | p2]; simpl in H1, H2; try lia.
  - destruct H1 as [s1 ->], H2 as [s2 ->]. reflexivity.
  - destruct H1 as [s1 ->]. destruct H2; reflexivity.
  - apply (rounds_to_leb B (rounded (Zpos p1) B) (rounded (Zpos p2) B)); try assumption.
    apply rounded_mono; lia.
  - destruct H2 as [s2 ->]. destruct H1; reflexivity.
  - eapply rounds_to_sign_leb; eassumption.
  - apply (rounds_to_leb_neg B (rounded (Zpos p2) B) (rounded (Zpos p1) B)); try assumption.
    apply rounded_mono; lia.
Qed.

Lemma bra_rounds s M E B :
  0 < M -> B <= E -> B <= -1074 -> E <= cexp M E ->
  rounds_to s (rounded (M * 2 ^ (E - B)) B) B
    (binary_round_aux FloatOps.prec emax s M E loc_Exact).
Proof.
  intros HM HBE HB Hc.
  rewrite round_result_closed by assumption. fold (cexp M E).
  assert (HJ : 0 < 2 ^ (E - B)) by (apply Z.pow_pos_nonneg; lia).
  assert (Hce : cexp (M * 2 ^ (E - B)) B = cexp M E).
  { unfold cexp. rewrite Zdigits2_scale by lia. f_equal. lia. }
  assert (Hr : rne (M * 2 ^ (E - B)) (cexp M E - B) = rne M (cexp M E - E)).
  { replace (cexp M E - B) with ((cexp M E - E) + (E - B)) by lia.
    apply rne_scale; lia. }
  rewrite <- Hr, <- Hce. apply round_result_rounds; [nia | assumption].
Qed.

Lemma binary_round_rounds s p e B :
  B <= e -> B <= -1074 ->
  rounds_to s (rounded (Zpos p * 2 ^ (e - B)) B) B (binary_round FloatOps.prec emax s p e).
Proof.
  intros HBe HB. unfold binary_round, shl_align. rewrite fexp64.
  pose proof (digits2_pos_bounds p) as [Lo Hi].
  set (d := Zpos (digits2_pos p)) in *.
  destruct (Z.max (d + e - 53) (-1074) - e) as [| n | n] eqn:En.
  - apply bra_rounds; try lia. unfold cexp. cbn [Zdigits2]. fold d. lia.
  - apply bra_rounds; try lia. unfold cexp. cbn [Zdigits2]. fold d. lia.
  - rewrite iter_xO_pow.
    assert (Hc0 : Z.max (d + e - 53) (-1074) = e - Zpos n) by lia.
    rewrite Hc0.
    assert (HJ : 0 < 2 ^ Zpos n) by (apply Z.pow_pos_nonneg; lia).
    replace (Zpos p * 2 ^ (e - B)) with ((Zpos p * 2 ^ Zpos n) * 2 ^ (e - Zpos n - B)).
    + apply bra_rounds; try lia. unfold cexp.
      rewrite Zdigits2_scale by lia. cbn [Zdigits2]. fold d. lia.
    + rewrite <- Z.mul_assoc, <- Z.pow_add_r by lia. f_equal. f_equal. lia.
Qed.

Lemma value64_nonzero s m e : -1074 <= e -> value64 s m e <> 0.
Proof.
  intros He. unfold value64, scaled, cond_Zopp.
  assert (0 < 2 ^ (e - -1074)) by (apply Z.pow_pos_nonneg; lia).
  destruct s; lia.
Qed.

Lemma SFleb_value64 sa ma ea sb mb eb :
  bounded FloatOps.prec emax ma ea = true -> bounded FloatOps.prec emax mb eb = true ->
  SFleb (S754_finite sa ma ea) (S754_finite sb mb eb) = true <->
  value64 sa ma ea <= value64 sb mb eb.
Proof.
  intros Ha Hb. unfold SFleb.
  pose proof (bounded_inv _ _ Ha) as (Ha1 & _). pose proof (bounded_inv _ _ Hb) as (Hb1 & _).
  unfold emin64 in *.
  rewrite (SFcompare_scaled sa ma ea sb mb eb (-1074) Ha Hb) by lia.
  unfold value64.
  destruct (Z.compare_spec (scaled sa ma ea (-1074)) (scaled sb mb eb (-1074)));
    split; intros; try reflexivity; try discriminate; lia.
Qed.

Lemma exact_round_of_rounds V B s r :
  V <> 0 -> s = (V <? 0) -> rounds_to s (rounded (Z.abs V) B) B r -> exact_round V B r.
Proof. intros HV -> H. destruct V; simpl in *; [lia | exact H | exact H]. Qed.

Lemma abs_cond_Zopp s x : 0 <= x -> Z.abs (cond_Zopp s x) = x.
Proof. intros H. destruct s; simpl; lia. Qed.

Lemma SFmul_exact sa ma ea sb mb eb :
  bounded FloatOps.prec emax ma ea = true -> bounded FloatOps.prec emax mb eb = true ->
  exact_round (value64 sa ma ea * value64 sb mb eb) (-2148)
    (SF64mul (S754_finite sa ma ea) (S754_finite sb mb eb)).
Proof.
  intros Ha Hb. unfold SF64mul, SFmul.
  pose proof (bounded_inv _ _ Ha) as (Ha1 & Ha2 & Ha3).
  pose proof (bounded_inv _ _ Hb) as (Hb1 & Hb2 & Hb3). unfold emin64 in *.
  assert (HPa : 0 < 2 ^ (ea - -1074)) by (apply Z.pow_pos_nonneg; lia).
  assert (HPb : 0 < 2 ^ (eb - -1074)) by (apply Z.pow_pos_nonneg; lia).
  assert (Hval : Z.abs (value64 sa ma ea * value64 sb mb eb) =
                 Zpos (ma * mb) * 2 ^ (ea + eb - -2148)).
  { unfold value64, scaled.
    replace (ea + eb - -2148) with ((ea - -1074) + (eb - -1074)) by lia.
    rewrite Z.pow_add_r by lia. rewrite Pos2Z.inj_mul.
    rewrite Z.abs_mul, !abs_cond_Zopp by lia. ring. }
  assert (HA : 0 < Zpos ma * 2 ^ (ea - -1074)) by lia.
  assert (HB : 0 < Zpos mb * 2 ^ (eb - -1074)) by lia.
  apply (exact_round_of_rounds _ _ (xorb sa sb)).
  - pose proof (value64_nonzero sa ma ea Ha1). pose proof (value64_nonzero sb mb eb Hb1). nia.
  - unfold value64, scaled, cond_Zopp.
    set (A := Zpos ma * 2 ^ (ea - -1074)) in *. set (Bv := Zpos mb * 2 ^ (eb - -1074)) in *.
    destruct sa, sb; simpl xorb; symmetry;
      [apply Z.ltb_ge | apply Z.ltb_lt | apply Z.ltb_lt | apply Z.ltb_ge]; nia.
  - rewrite Hval. apply bra_rounds; try lia.
    unfold cexp. cbn [Zdigits2].
    destruct (Z.leb_spec (ea + eb) (-1074)); [lia |].
    assert (Hm : 2 ^ 52 <= Zpos (ma * mb)).
    { rewrite Pos2Z.inj_mul. destruct (Z.eq_dec ea (-1074)).
      - specialize (Hb3 ltac:(lia)). nia.
      - specialize (Ha3 ltac:(lia)). nia. }
    pose proof (digits2_pos_bounds (ma * mb)) as [_ Hi].
    assert (53 <= Zpos (digits2_pos (ma * mb))); [| lia].
    destruct (Z.leb_spec 53 (Zpos (digits2_pos (ma * mb)))); [assumption |].
    assert (2 ^ Zpos (digits2_pos (ma * mb)) <= 2 ^ 52) by (apply Z.pow_le_mono_r; lia).
    lia.
Qed.

Lemma binary_normalize_exact D ez :
  -1074 <= ez ->
  exact_round (D * 2 ^ (ez - -1074)) (-1074) (binary_normalize FloatOps.prec emax D ez false).
Proof.
  intros He. assert (HP : 0 < 2 ^ (ez - -1074)) by (apply Z.pow_pos_nonneg; lia).
  destruct D as [| p | p]; cbn [binary_normalize].
  - simpl. now exists false.
  - apply (exact_round_of_rounds _ _ false); [nia | symmetry; apply Z.ltb_ge; nia |].
    rewrite Z.abs_eq by nia. apply binary_round_rounds; lia.
  - apply (exact_round_of_rounds _ _ true); [nia | symmetry; apply Z.ltb_lt; nia |].
    rewrite Z.abs_neq by nia.
    replace (- (Zneg p * 2 ^ (ez - -1074))) with (Zpos p * 2 ^ (ez - -1074)) by lia.
    apply binary_round_rounds; lia.
Qed.

Lemma aligned_value s m e ez :
  -1074 <= ez -> ez <= e ->
  cond_Zopp s (Zpos (fst (shl_align m e ez))) * 2 ^ (ez - -1074) = value64 s m e.
Proof.
  intros Hz He. rewrite shl_align_fst by assumption. unfold value64, scaled.
  replace (e - -1074) with ((e - ez) + (ez - -1074)) by lia.
  rewrite Z.pow_add_r by lia. unfold cond_Zopp. destruct s; ring.
Qed.

Lemma SFadd_exact sa ma ea sb mb eb :
  bounded FloatOps.prec emax ma ea = true -> bounded FloatOps.prec emax mb eb = true ->
  exact_round (value64 sa ma ea + value64 sb mb eb) (-1074)
    (SF64add (S754_finite sa ma ea) (S754_finite sb mb eb)).
Proof.
  intros Ha Hb. unfold SF64add, SFadd.
  pose proof (bounded_inv _ _ Ha) as (Ha1 & _).
  pose proof (bounded_inv _ _ Hb) as (Hb1 & _). unfold emin64 in *.
  set (ez := Z.min ea eb).
  rewrite <- (aligned_value sa ma ea ez), <- (aligned_value sb mb eb ez) by (unfold ez; lia).
  rewrite <- Z.mul_add_distr_r. apply binary_normalize_exact. unfold ez. lia.
Qed.

Lemma SFsub_exact sa ma ea sb mb eb :
  bounded FloatOps.prec emax ma ea = true -> bounded FloatOps.prec emax mb eb = true ->
  exact_round (value64 sa ma ea - value64 sb mb eb) (-1074)
    (SF64sub (S754_finite sa ma ea) (S754_finite sb mb eb)).
Proof.
  intros Ha Hb. unfold SF64sub, SFsub.
  pose proof (bounded_inv _ _ Ha) as (Ha1 & _).
  pose proof (bounded_inv _ _ Hb) as (Hb1 & _). unfold emin64 in *.
  set (ez := Z.min ea eb).
  rewrite <- (aligned_value sa ma ea ez), <- (aligned_value sb mb eb ez) by (unfold ez; lia).
  rewrite <- Z.mul_sub_distr_r. apply binary_normalize_exact. unfold ez. lia.
Qed.

Local Close Scope Z_scope.

(** The comparator [b - a > 0] of a sort decides [a < b]. *)
Lemma sub_positive x y : (0 <? y - x) = (x <? y).
Proof.
  rewrite !FloatAxioms.ltb_spec, FloatAxioms.sub_spec.
  change (Prim2SF 0) with (S754_zero false).
  apply SFsub_positive; apply Prim2SF_valid.
Qed.

(** *** Monotonicity of the operations *)

Lemma finite_bounded x s m e :
  Prim2SF x = S754_finite s m e -> bounded FloatOps.prec emax m e = true.
Proof. intros H. pose proof (Prim2SF_valid x) as Hv. rewrite H in Hv. exact Hv. Qed.

Lemma mul_le_mono_r k x y :
  finite_nonzero k -> (0 <? k) = true -> finite_nonzero x -> finite_nonzero y ->
  (x <=? y) = true -> (x * k <=? y * k) = true.
Proof.
  intros (sk & mk & ek & Hk) Hpos (sx & mx & ex & Hx) (sy & my & ey & Hy).
  pose proof (finite_bounded _ _ _ _ Hk) as Bk.
  pose proof (finite_bounded _ _ _ _ Hx) as Bx.
  pose proof (finite_bounded _ _ _ _ Hy) as By.
  rewrite FloatAxioms.ltb_spec, Hk in Hpos. change (Prim2SF 0) with (S754_zero false) in Hpos.
  rewrite !FloatAxioms.leb_spec, !FloatAxioms.mul_spec, Hk, Hx, Hy.
  intros Hle. apply SFleb_value64 in Hle; try assumption.
  apply (exact_round_mono (-2148) (value64 sx mx ex * value64 sk mk ek)
           (value64 sy my ey * value64 sk mk ek)); try (apply SFmul_exact; assumption); [lia |].
  destruct sk; [discriminate Hpos |].
  pose proof (bounded_inv _ _ Bk) as (Hk1 & _). unfold emin64 in Hk1.
  assert (0 < value64 false mk ek)%Z.
  { unfold value64, scaled, cond_Zopp.
    assert (0 < 2 ^ (ek - -1074))%Z by (apply Z.pow_pos_nonneg; lia). lia. }
  nia.
Qed.

Lemma add_le_mono_l a x y :
  finite_nonzero a -> finite_nonzero x -> finite_nonzero y ->
  (x <=? y) = true -> (a + x <=? a + y) = true.
Proof.
  intros (sa & ma & ea & Ha) (sx & mx & ex & Hx) (sy & my & ey & Hy).
  pose proof (finite_bounded _ _ _ _ Ha) as Ba.
  pose proof (finite_bounded _ _ _ _ Hx) as Bx.
  pose proof (finite_bounded _ _ _ _ Hy) as By.
  rewrite !FloatAxioms.leb_spec, !FloatAxioms.add_spec, Ha, Hx, Hy.
  intros Hle. apply SFleb_value64 in Hle; try assumption.
  apply (exact_round_mono (-1074) (value64 sa ma ea + value64 sx mx ex)
           (value64 sa ma ea + value64 sy my ey)); try (apply SFadd_exact; assumption); lia.
Qed.

Lemma sub_le_anti_l a x y :
  finite_nonzero a -> finite_nonzero x -> finite_nonzero y ->
  (x <=? y) = true -> (a - y <=? a - x) = true.
Proof.
  intros (sa & ma & ea & Ha) (sx & mx & ex & Hx) (sy & my & ey & Hy).
  pose proof (finite_bounded _ _ _ _ Ha) as Ba.
  pose proof (finite_bounded _ _ _ _ Hx) as Bx.
  pose proof (finite_bounded _ _ _ _ Hy) as By.
  rewrite !FloatAxioms.leb_spec, !FloatAxioms.sub_spec, Ha, Hx, Hy.
  intros Hle. apply SFleb_value64 in Hle; try assumption.
  apply (exact_round_mono (-1074) (value64 sa ma ea - value64 sy my ey)
           (value64 sa ma ea - value64 sx mx ex)); try (apply SFsub_exact; assumption); lia.
Qed.

Lemma finite_nonzero_compute x s m e :
  Prim2SF x = S754_finite s m e -> finite_nonzero x.
Proof. intros H. now exists s, m, e. Qed.

Lemma of_spec x y : Prim2SF x = Prim2SF y -> x = y.
Proof. apply Prim2SF_inj. Qed.

(** The confidence of a consistency that is a number is at least
    0.19999999999999998, the confidence [0.3 - 0.1] at consistency 0.5. *)
Lemma confidenceOf_lower c :
  is_nan c = false -> (0.19999999999999998 <=? confidenceOf c) = true.
Proof.
  intros Hnan. unfold confidenceOf. destruct (0.5 <? c) eqn:Hc.
  - (* coherent *)
    assert (Hle : (0.5 <=? c) = true) by now apply ltb_leb.
    destruct (Prim2SF c) as [s | s | | s m e] eqn:Ec.
    + rewrite FloatAxioms.ltb_spec, Ec in Hc. destruct s; discriminate Hc.
    + rewrite FloatAxioms.ltb_spec, Ec in Hc. destruct s; [discriminate Hc |].
      assert (c = infinity) as -> by (apply of_spec; rewrite Ec; reflexivity).
      reflexivity.
    + rewrite FloatAxioms.ltb_spec, Ec in Hc. discriminate Hc.
    + assert (Hf : finite_nonzero c) by (eapply finite_nonzero_compute; eassumption).
      assert (Ht : (0.5 * 0.2 <=? c * 0.2) = true)
        by (apply mul_le_mono_r; try assumption; try finite_constant; reflexivity).
      destruct (Prim2SF (c * 0.2)) as [s' | s' | | s' m' e'] eqn:Et.
      * rewrite FloatAxioms.leb_spec, Et in Ht. destruct s'; discriminate Ht.
      * rewrite FloatAxioms.leb_spec, Et in Ht. destruct s'; [discriminate Ht |].
        assert (c * 0.2 = infinity) as -> by (apply of_spec; rewrite Et; reflexivity).
        reflexivity.
      * rewrite FloatAxioms.leb_spec, Et in Ht. discriminate Ht.
      * apply leb_trans with (0.8 + 0.5 * 0.2); [reflexivity |].
        apply add_le_mono_l; try assumption; try finite_constant.
        eapply finite_nonzero_compute; eassumption.
  - (* not coherent *)
    assert (Hle : (c <=? 0.5) = true).
    { destruct (not_ltb_cases 0.5 c eq_refl Hnan Hc) as [H | H];
        [now apply ltb_leb | now apply eqb_leb]. }
    destruct (Prim2SF c) as [s | s | | s m e] eqn:Ec.
    + rewrite FloatAxioms.leb_spec, FloatAxioms.sub_spec, FloatAxioms.mul_spec, Ec.
      destruct s; reflexivity.
    + rewrite FloatAxioms.leb_spec, Ec in Hle. destruct s; [| discriminate Hle].
      rewrite FloatAxioms.leb_spec, FloatAxioms.sub_spec, FloatAxioms.mul_spec, Ec.
      reflexivity.
    + unfold is_nan in Hnan. rewrite FloatAxioms.eqb_spec, Ec in Hnan. discriminate Hnan.
    + assert (Hf : finite_nonzero c) by (eapply finite_nonzero_compute; eassumption).
      assert (Ht : (c * 0.2 <=? 0.5 * 0.2) = true)
        by (apply mul_le_mono_r; try assumption; try finite_constant; reflexivity).
      destruct (Prim2SF (c * 0.2)) as [s' | s' | | s' m' e'] eqn:Et.
      * rewrite FloatAxioms.leb_spec, FloatAxioms.sub_spec, Et. destruct s'; reflexivity.
      * rewrite FloatAxioms.leb_spec, Et in Ht. destruct s'; [| discriminate Ht].
        rewrite FloatAxioms.leb_spec, FloatAxioms.sub_spec, Et. reflexivity.
      * rewrite FloatAxioms.leb_spec, Et in Ht. discriminate Ht.
      * apply leb_trans with (0.3 - 0.5 * 0.2); [reflexivity |].
        apply sub_le_anti_l; try assumption; try finite_constant.
        eapply finite_nonzero_compute; eassumption.
Qed.

Lemma is_nan_true c : is_nan c = true -> c = nan.
Proof.
  unfold is_nan. rewrite FloatAxioms.eqb_spec. intros H. apply of_spec.
  change (Prim2SF nan) with S754_nan.
  destruct (Prim2SF c) as [[] | [] | | [] m e]; try reflexivity; try discriminate H.
  - unfold SFeqb in H. simpl in H. rewrite Z.compare_refl, Pos.compare_cont_refl in H.
    discriminate H.
  - unfold SFeqb in H. simpl in H. rewrite Z.compare_refl, Pos.compare_cont_refl in H.
    discriminate H.
Qed.

Lemma leb_not_nan x y : (x <=? y) = true -> is_nan x = false /\ is_nan y = false.
Proof. to_spec. sf_order. Qed.

Lemma positive_not_leb_zero a x : (0 <? a) = true -> (a <=? x) = true -> (x <=? 0) = false.
Proof.
  rewrite !FloatAxioms.ltb_spec, !FloatAxioms.leb_spec.
  change (Prim2SF 0) with (S754_zero false).
  generalize (Prim2SF a) (Prim2SF x). clear. intros a x. sf_order.
Qed.

(** A coherent result has confidence at least 0.9, and at most 1 when
    its consistency is at most 1. *)
Lemma confidenceOf_coherent c :
  (0.5 <? c) = true ->
  (0.9 <=? confidenceOf c) = true /\ ((c <=? 1) = true -> (confidenceOf c <=? 1) = true).
Proof.
  intros Hc. unfold confidenceOf. rewrite Hc.
  assert (Hle : (0.5 <=? c) = true) by now apply ltb_leb.
  destruct (Prim2SF c) as [s | s | | s m e] eqn:Ec.
  - rewrite FloatAxioms.ltb_spec, Ec in Hc. destruct s; discriminate Hc.
  - rewrite FloatAxioms.ltb_spec, Ec in Hc. destruct s; [discriminate Hc |].
    assert (c = infinity) as -> by (apply of_spec; rewrite Ec; reflexivity).
    split; [reflexivity | intros H; discriminate H].
  - rewrite FloatAxioms.ltb_spec, Ec in Hc. discriminate Hc.
  - assert (Hf : finite_nonzero c) by (eapply finite_nonzero_compute; eassumption).
    assert (Ht : (0.5 * 0.2 <=? c * 0.2) = true)
      by (apply mul_le_mono_r; try assumption; try finite_constant; reflexivity).
    destruct (Prim2SF (c * 0.2)) as [s' | s' | | s' m' e'] eqn:Et.
    + rewrite FloatAxioms.leb_spec, Et in Ht. destruct s'; discriminate Ht.
    + rewrite FloatAxioms.leb_spec, Et in Ht. destruct s'; [discriminate Ht |].
      split.
      * assert (c * 0.2 = infinity) as -> by (apply of_spec; rewrite Et; reflexivity).
        reflexivity.
      * intros H1.
        assert (Hu : (c * 0.2 <=? 1 * 0.2) = true)
          by (apply mul_le_mono_r; try assumption; try finite_constant; reflexivity).
        rewrite FloatAxioms.leb_spec, Et in Hu. discriminate Hu.
    + rewrite FloatAxioms.leb_spec, Et in Ht. discriminate Ht.
    + assert (Hft : finite_nonzero (c * 0.2)) by (eapply finite_nonzero_compute; eassumption).
      split.
      * apply leb_trans with (0.8 + 0.5 * 0.2); [reflexivity |].
        apply add_le_mono_l; try assumption; finite_constant.
      * intros H1.
        assert (Hu : (c * 0.2 <=? 1 * 0.2) = true)
          by (apply mul_le_mono_r; try assumption; try finite_constant; reflexivity).
        apply leb_trans with (0.8 + 1 * 0.2); [| reflexivity].
        apply add_le_mono_l; try assumption; finite_constant.
Qed.

(** A result that is not coherent, with a consistency that is a number
    not below -1, has confidence at most 0.5. *)
Lemma confidenceOf_incoherent c :
  (0.5 <? c) = false -> (-1 <=? c) = true -> (confidenceOf c <=? 0.5) = true.
Proof.
  intros Hc Hlo. unfold confidenceOf. rewrite Hc.
  destruct (leb_not_nan _ _ Hlo) as [_ Hnan].
  assert (Hle : (c <=? 0.5) = true).
  { destruct (not_ltb_cases 0.5 c eq_refl Hnan Hc) as [H | H];
      [now apply ltb_leb | now apply eqb_leb]. }
  destruct (Prim2SF c) as [s | s | | s m e] eqn:Ec.
  - rewrite FloatAxioms.leb_spec, FloatAxioms.sub_spec, FloatAxioms.mul_spec, Ec.
    destruct s; reflexivity.
  - rewrite FloatAxioms.leb_spec, Ec in Hle, Hlo. destruct s; discriminate.
  - unfold is_nan in Hnan. rewrite FloatAxioms.eqb_spec, Ec in Hnan. discriminate Hnan.
  - assert (Hf : finite_nonzero c) by (eapply finite_nonzero_compute; eassumption).
    assert (Ht : (-1 * 0.2 <=? c * 0.2) = true)
      by (apply mul_le_mono_r; try assumption; try finite_constant; reflexivity).
    assert (Hu : (c * 0.2 <=? 0.5 * 0.2) = true)
      by (apply mul_le_mono_r; try assumption; try finite_constant; reflexivity).
    destruct (Prim2SF (c * 0.2)) as [s' | s' | | s' m' e'] eqn:Et.
    + rewrite FloatAxioms.leb_spec, FloatAxioms.sub_spec, Et. destruct s'; reflexivity.
    + rewrite FloatAxioms.leb_spec, Et in Ht, Hu. destruct s'; discriminate.
    + rewrite FloatAxioms.leb_spec, Et in Ht. discriminate Ht.
    + apply leb_trans with (0.3 - -1 * 0.2); [| reflexivity].
      apply sub_le_anti_l; try assumption; try finite_constant.
      eapply finite_nonzero_compute; eassumption.
Qed.

(** The confidence is never zero and never negative. *)
Lemma confidenceOf_positive c : (confidenceOf c <=? 0) = false.
Proof.
  destruct (is_nan c) eqn:Hnan.
  - apply is_nan_true in Hnan. subst c. reflexivity.
  - apply (positive_not_leb_zero 0.19999999999999998); [reflexivity |].
    now apply confidenceOf_lower.
Qed.

Lemma confidenceOf_range c :
  (-1 <=? c) = true -> (c <=? 1) = true ->
  (0.19999999999999998 <=? confidenceOf c) = true /\ (confidenceOf c <=? 1) = true.
Proof.
  intros Hlo Hhi. destruct (leb_not_nan _ _ Hlo) as [_ Hnan].
  split; [now apply confidenceOf_lower |].
  destruct (0.5 <? c) eqn:Hc.
  - now apply confidenceOf_coherent.
  - apply leb_trans with 0.5; [now apply confidenceOf_incoherent | reflexivity].
Qed.

End FloatFacts.

(** *** Square roots

    A magnitude is a square root.  The square root of a positive
    binary64 number is a normal number, at least [2 ^ -537]; the
    product of two such numbers is at least [2 ^ -1074], the smallest
    positive number, and does not round to zero. *)

Module SqrtFacts.

Import FloatFacts.

Local Open Scope Z_scope.

Lemma round_nearest_even_bounds m l : m <= round_nearest_even m l <= m + 1.
Proof. destruct l as [| []]; simpl; try lia. destruct (Z.even m); lia. Qed.

(** Rounding a mantissa of 53 bits keeps it normal. *)
Lemma binary_round_aux_normal s q e l :
  2 ^ 52 <= q < 2 ^ 53 -> -1074 <= e <= 970 ->
  exists m e2,
    binary_round_aux FloatOps.prec emax s q e l = S754_finite s m e2 /\
    2 ^ 52 <= Zpos m /\ e <= e2.
Proof.
  intros Hq He.
  assert (Hd : Zdigits2 q = 53) by (apply Zdigits2_unique; simpl; lia).
  unfold binary_round_aux, shr_fexp. rewrite fexp64, Hd.
  replace (Z.max (53 + e - 53) (-1074) - e) with 0 by lia.
  cbn [shr]. rewrite shr_record_of_loc_m.
  pose proof (round_nearest_even_bounds q (loc_of_shr_record (shr_record_of_loc q l))) as Hr.
  set (q' := round_nearest_even q (loc_of_shr_record (shr_record_of_loc q l))) in *.
  rewrite fexp64.
  destruct (Z.eq_dec q' (2 ^ 53)) as [E | E].
  - rewrite E. change (Zdigits2 (2 ^ 53)) with 54.
    replace (Z.max (54 + e - 53) (-1074) - e) with 1 by lia.
    cbn [shr shr_record_of_loc iter_pos shr_1 shr_m Z.pow Z.pow_pos Pos.iter Z.mul Pos.mul].
    replace (e + 1 <=? emax - FloatOps.prec) with true
      by (symmetry; apply Z.leb_le; simpl; lia).
    eexists _, _. split; [reflexivity |]. split; [simpl; lia | lia].
  - assert (Hq' : 2 ^ 52 <= q' < 2 ^ 53) by lia.
    assert (Hd' : Zdigits2 q' = 53) by (apply Zdigits2_unique; simpl; lia).
    rewrite Hd'. replace (Z.max (53 + e - 53) (-1074) - e) with 0 by lia.
    cbn [shr shr_record_of_loc shr_m].
    destruct q' as [| p | p]; try (simpl in Hq'; lia).
    replace (e <=? emax - FloatOps.prec) with true
      by (symmetry; apply Z.leb_le; simpl; lia).
    eexists _, _. split; [reflexivity |]. split; [lia | lia].
Qed.

Lemma SFsqrt_core_normal m e :
  bounded FloatOps.prec emax m e = true ->
  exists q e' l,
    SFsqrt_core_binary FloatOps.prec emax (Zpos m) e = (q, e', l) /\
    2 ^ 52 <= q < 2 ^ 53 /\ -589 <= e' <= 459.
Proof.
  intros Hb. pose proof (bounded_le m e Hb) as Hle.
  pose proof (bounded_inv m e Hb) as (Hlo & Hm & _). unfold emin64 in Hlo.
  pose proof (digits2_pos_bounds m) as [Dlo Dhi].
  unfold SFsqrt_core_binary. rewrite fexp64. cbn [Zdigits2].
  set (d := Zpos (digits2_pos m)) in *.
  assert (Hd : 1 <= d <= 53).
  { split; [unfold d; lia |].
    destruct (Z.leb_spec d 53); [assumption |].
    assert (2 ^ 53 <= 2 ^ (d - 1)) by (apply Z.pow_le_mono_r; lia). lia. }
  rewrite !Z.div2_div.
  set (E1 := (d + e + 1) / 2).
  assert (HE1 : 2 * E1 <= d + e + 1 <= 2 * E1 + 1).
  { pose proof (Z.div_mod (d + e + 1) 2 ltac:(lia)).
    pose proof (Z.mod_pos_bound (d + e + 1) 2 ltac:(lia)). unfold E1. lia. }
  assert (He2 : 2 * (e / 2) <= e <= 2 * (e / 2) + 1).
  { pose proof (Z.div_mod e 2 ltac:(lia)). pose proof (Z.mod_pos_bound e 2 ltac:(lia)). lia. }
  replace (Z.min (Z.max (E1 - 53) (-1074)) (e / 2)) with (E1 - 53) by lia.
  destruct (e - 2 * (E1 - 53)) as [| s | s] eqn:Es; try lia.
  rewrite Z.shiftl_mul_pow2 by lia.
  assert (Hs : 105 <= d + Zpos s <= 106) by lia.
  assert (Hm' : 2 ^ 104 <= Zpos m * 2 ^ Zpos s < 2 ^ 106).
  { assert (HP : 0 < 2 ^ Zpos s) by (apply Z.pow_pos_nonneg; lia).
    split.
    - apply Z.le_trans with (2 ^ (d - 1) * 2 ^ Zpos s); [| nia].
      rewrite <- Z.pow_add_r by lia. apply Z.pow_le_mono_r; lia.
    - apply Z.lt_le_trans with (2 ^ d * 2 ^ Zpos s); [nia |].
      rewrite <- Z.pow_add_r by lia. apply Z.pow_le_mono_r; lia. }
  pose proof (Z.sqrtrem_spec (Zpos m * 2 ^ Zpos s) ltac:(lia)) as Hsq.
  destruct (Z.sqrtrem (Zpos m * 2 ^ Zpos s)) as [q r].
  destruct Hsq as [Hq Hr].
  eexists _, _, _. split; [reflexivity |]. split; [| lia].
  change (2 ^ 104) with (2 ^ 52 * 2 ^ 52) in Hm'.
  change (2 ^ 106) with (2 ^ 53 * 2 ^ 53) in Hm'.
  assert (0 < 2 ^ 52) by (simpl; lia). assert (0 < 2 ^ 53) by (simpl; lia).
  split; nia.
Qed.

(** A square root that is a number other than zero and infinity has a
    normal mantissa and an exponent from -589 on: it is at least
    [2 ^ -537]. *)
Lemma SFsqrt_normal x s m e :
  valid_binary x = true ->
  SF64sqrt x = S754_finite s m e ->
  s = false /\ 2 ^ 52 <= Zpos m /\ -589 <= e.
Proof.
  intros Hv. destruct x as [sx | sx | | sx mx ex]; simpl.
  - discriminate.
  - destruct sx; discriminate.
  - discriminate.
  - destruct sx; [discriminate |]. simpl in Hv.
    destruct (SFsqrt_core_normal mx ex Hv) as (q & e' & l & Hc & Hq & He).
    unfold SF64sqrt, SFsqrt. rewrite Hc.
    destruct (binary_round_aux_normal false q e' l Hq ltac:(lia)) as (m2 & e2 & Hr & Hm2 & He2).
    rewrite Hr. intros [= <- <- <-]. repeat split; lia.
Qed.

Lemma rounded_unit : rounded (2 ^ 1074) (-2148) = 2 ^ 1074.
Proof. vm_compute. reflexivity. Qed.

Lemma SFmul_normal m1 e1 m2 e2 :
  bounded FloatOps.prec emax m1 e1 = true -> bounded FloatOps.prec emax m2 e2 = true ->
  2 ^ 52 <= Zpos m1 -> -589 <= e1 -> 2 ^ 52 <= Zpos m2 -> -589 <= e2 ->
  signed_result false (SF64mul (S754_finite false m1 e1) (S754_finite false m2 e2)).
Proof.
  intros B1 B2 Hm1 He1 Hm2 He2.
  pose proof (SFmul_exact false m1 e1 false m2 e2 B1 B2) as Hx.
  set (r := SF64mul (S754_finite false m1 e1) (S754_finite false m2 e2)) in *.
  assert (Hv : forall m e, 2 ^ 52 <= Zpos m -> -589 <= e -> 2 ^ 537 <= value64 false m e).
  { intros m e Hm He. unfold value64, scaled, cond_Zopp.
    apply Z.le_trans with (2 ^ 52 * 2 ^ 485); [vm_compute; discriminate |].
    assert (2 ^ 485 <= 2 ^ (e - -1074)) by (apply Z.pow_le_mono_r; lia).
    assert (0 < 2 ^ 485) by (apply Z.pow_pos_nonneg; lia).
    nia. }
  pose proof (Hv m1 e1 Hm1 He1) as V1. pose proof (Hv m2 e2 Hm2 He2) as V2.
  assert (HV : 2 ^ 1074 <= value64 false m1 e1 * value64 false m2 e2).
  { change (2 ^ 1074) with (2 ^ 537 * 2 ^ 537).
    assert (0 < 2 ^ 537) by (apply Z.pow_pos_nonneg; lia). nia. }
  set (V := value64 false m1 e1 * value64 false m2 e2) in *.
  assert (HP : 0 < 2 ^ 1074) by (apply Z.pow_pos_nonneg; lia).
  destruct V as [| p | p] eqn:EV; try lia.
  simpl in Hx.
  pose proof (rounded_mono (2 ^ 1074) (Zpos p) (-2148) ltac:(lia) ltac:(lia)) as Hmono.
  rewrite rounded_unit in Hmono.
  destruct Hx as [Hz | m e Hb He Hw | Hi]; [lia | constructor | constructor].
Qed.

Local Close Scope Z_scope.

(** The product of two square roots that are not zero is not zero:
    the smallest square root of a positive number is [2 ^ -537], and
    its square is the smallest positive number. *)
Lemma sqrt_product_nonzero a b :
  (Math_sqrt a =? 0) = false -> (Math_sqrt b =? 0) = false ->
  (Math_sqrt a * Math_sqrt b =? 0) = false.
Proof.
  unfold Math_sqrt.
  rewrite !FloatAxioms.eqb_spec, FloatAxioms.mul_spec.
  change (Prim2SF 0) with (S754_zero false).
  pose proof (Prim2SF_valid (sqrt a)) as Va. pose proof (Prim2SF_valid (sqrt b)) as Vb.
  pose proof (SFsqrt_normal (Prim2SF a)) as Na.
  pose proof (SFsqrt_normal (Prim2SF b)) as Nb.
  rewrite <- FloatAxioms.sqrt_spec in Na, Nb.
  specialize (fun s m e => Na s m e (Prim2SF_valid a)).
  specialize (fun s m e => Nb s m e (Prim2SF_valid b)).
  destruct (Prim2SF (sqrt a)) as [sa | sa | | sa ma ea], (Prim2SF (sqrt b)) as [sb | sb | | sb mb eb];
    intros Ha Hb; try discriminate Ha; try discriminate Hb; try reflexivity;
    try (destruct sa; discriminate Ha); try (destruct sb; discriminate Hb).
  1-3: now destruct sa, sb.
  destruct (Na sa ma ea eq_refl) as (-> & Hma & Hea).
  destruct (Nb sb mb eb eq_refl) as (-> & Hmb & Heb).
  simpl in Va, Vb.
  pose proof (SFmul_normal ma ea mb eb Va Vb Hma Hea Hmb Heb) as H.
  destruct H; reflexivity.
Qed.

End SqrtFacts.

(** ** Array helpers *)

Section ArrayFacts.

Context {A B : Type}.

Lemma mapi_from_nth_error (f : A -> nat -> B) xs i k :
  nth_error (mapi_from f i xs) k = option_map (fun x => f x (i + k)%nat) (nth_error xs k).
Proof.
  revert i k. induction xs as [| x xs IH]; intros i [| k]; simpl; try reflexivity.
  - now rewrite Nat.add_0_r.
  - rewrite IH. now rewrite Nat.add_succ_r.
Qed.

Lemma mapi_from_In (f : A -> nat -> B) xs i y :
  In y (mapi_from f i xs) -> exists x k, nth_error xs k = Some x /\ y = f x (i + k)%nat.
Proof.
  intros H. apply In_nth_error in H. destruct H as [k Hk].
  rewrite mapi_from_nth_error in Hk.
  destruct (nth_error xs k) as [x |] eqn:E; simpl in Hk; [| discriminate].
  exists x, k. split; [exact E | congruence].
Qed.

Lemma mapi_from_length (f : A -> nat -> B) xs i : length (mapi_from f i xs) = length xs.
Proof. revert i. induction xs; intros; simpl; auto. Qed.

Lemma push_loop (g : A -> B) xs acc :
  fold_left (fun acc x => acc ++ [g x]) xs acc = acc ++ map g xs.
Proof.
  revert acc. induction xs as [| x xs IH]; intros acc; simpl.
  - now rewrite app_nil_r.
  - rewrite IH, <- app_assoc. reflexivity.
Qed.

Lemma filter_all_false (f : A -> bool) xs :
  (forall x, In x xs -> f x = false) -> filter f xs = [].
Proof.
  induction xs as [| x xs IH]; intros H; simpl; [reflexivity |].
  rewrite (H x (or_introl eq_refl)). apply IH. intros y Hy. apply H. now right.
Qed.

Lemma filter_andb (f g : A -> bool) xs :
  filter (fun x => f x && g x) xs = filter f (filter g xs).
Proof.
  induction xs as [| x xs IH]; simpl; [reflexivity |].
  destruct (g x) eqn:Eg, (f x) eqn:Ef; simpl; rewrite ?Ef, IH; reflexivity.
Qed.

Lemma filter_length_mono (f g : A -> bool) xs :
  (forall x, In x xs -> f x = true -> g x = true) ->
  (length (filter f xs) <= length (filter g xs))%nat.
Proof.
  induction xs as [| x xs IH]; intros H; simpl; [lia |].
  assert (IH' : (length (filter f xs) <= length (filter g xs))%nat)
    by (apply IH; intros y Hy; apply H; now right).
  destruct (f x) eqn:Ef.
  - rewrite (H x (or_introl eq_refl) Ef). simpl. lia.
  - destruct (g x); simpl; lia.
Qed.

Lemma filter_incl_mono (f g : A -> bool) xs :
  (forall x, In x xs -> f x = true -> g x = true) ->
  incl (filter f xs) (filter g xs).
Proof.
  intros H x Hx. apply filter_In in Hx. destruct Hx as [Hin Hf].
  apply filter_In. split; [assumption | now apply H].
Qed.

Lemma StronglySorted_filter (R : A -> A -> Prop) (f : A -> bool) xs :
  StronglySorted R xs -> StronglySorted R (filter f xs).
Proof.
  induction 1 as [| x xs Hs IH Hx]; simpl; [constructor |].
  destruct (f x); [| assumption].
  constructor; [assumption |].
  apply Forall_forall. intros y Hy. apply filter_In in Hy.
  rewrite Forall_forall in Hx. now apply Hx.
Qed.

Lemma StronglySorted_map (R : B -> B -> Prop) (g : A -> B) xs :
  StronglySorted (fun a b => R (g a) (g b)) xs -> StronglySorted R (map g xs).
Proof.
  induction 1 as [| x xs Hs IH Hx]; simpl; constructor; [assumption |].
  apply Forall_forall. intros y Hy. apply in_map_iff in Hy.
  destruct Hy as (z & <- & Hz). rewrite Forall_forall in Hx. now apply Hx.
Qed.

End ArrayFacts.

(** ** The sort *)

Section SortFacts.

Context {A : Type}.
Variable compareFn : A -> A -> number.

Lemma sort_insert_perm x l : Permutation (sort_insert compareFn x l) (x :: l).
Proof.
  induction l as [| y l IH]; simpl; [reflexivity |].
  destruct (0 <? compareFn x y); [| reflexivity].
  rewrite IH. apply perm_swap.
Qed.

Lemma sort_perm l : Permutation (sort compareFn l) l.
Proof.
  induction l as [| x l IH]; simpl; [reflexivity |].
  rewrite sort_insert_perm. now constructor.
Qed.

End SortFacts.

Section SortByKey.

Import FloatFacts.

Context {A : Type}.
Variable key : A -> number.
Variable rank : A -> nat.

Local Abbreviation byKey := (fun a b : A => key b - key a).

Lemma sort_insert_ranked x l :
  is_nan (key x) = false ->
  Forall (fun a => is_nan (key a) = false) l ->
  Forall (fun a => (rank x < rank a)%nat) l ->
  StronglySorted (ranked_before key rank) l ->
  StronglySorted (ranked_before key rank) (sort_insert byKey x l).
Proof.
  intros Hx Hnan Hrank Hs. induction Hs as [| y l Hs IH Hy]; simpl.
  - constructor; constructor.
  - rewrite sub_positive.
    inversion Hnan as [| ? ? Hny Hnl]; subst. inversion Hrank as [| ? ? Hry Hrl]; subst.
    destruct (key x <? key y) eqn:E.
    + constructor; [now apply IH |].
      apply (Permutation_Forall (Permutation_sym (sort_insert_perm byKey x l))).
      constructor; [| assumption]. now left.
    + assert (Hxy : ranked_before key rank x y).
      { destruct (not_ltb_cases _ _ Hx Hny E) as [H | H]; [now left | right; now split]. }
      constructor; [now constructor |].
      constructor; [assumption |].
      rewrite Forall_forall in Hy, Hrl |- *. intros z Hz.
      specialize (Hy z Hz). specialize (Hrl z Hz).
      destruct Hxy as [Hxy | [Hxy _]], Hy as [Hyz | [Hyz _]].
      * left. eapply ltb_trans; eassumption.
      * left. eapply eqb_ltb_trans; eassumption.
      * left. eapply ltb_eqb_trans; eassumption.
      * right. split; [eapply eqb_trans; eassumption | assumption].
Qed.

Lemma sort_ranked l :
  Forall (fun a => is_nan (key a) = false) l ->
  StronglySorted (fun a b => (rank a < rank b)%nat) l ->
  StronglySorted (ranked_before key rank) (sort byKey l).
Proof.
  intros Hnan Hs. induction Hs as [| x l Hs IH Hx]; simpl; [constructor |].
  inversion Hnan as [| ? ? Hnx Hnl]; subst.
  apply sort_insert_ranked; try assumption.
  - apply (Permutation_Forall (Permutation_sym (sort_perm byKey l))). assumption.
  - apply (Permutation_Forall (Permutation_sym (sort_perm byKey l))). assumption.
  - now apply IH.
Qed.

Lemma ranked_before_leb a b : ranked_before key rank a b -> (key b <=? key a) = true.
Proof. intros [H | [H _]]; [now apply ltb_leb | now apply eqb_leb]. Qed.

End SortByKey.

(** ** The pipeline *)

Section Pipeline.

Variables Math_cos Math_sin : number -> number.
Variable config : DetectionConfig.
Variable data : list ClimateData.

Lemma validatedAnomalies_map :
  validatedAnomalies Math_cos Math_sin config data =
  map (validate Math_cos Math_sin config data) (candidateAnomalies config data).
Proof. unfold validatedAnomalies. now rewrite push_loop. Qed.

Lemma detectMagnitudeOutliers_eq :
  detectMagnitudeOutliers config data =
  mapi (fun point index =>
          {| point := point;
             index := index;
             zScore := Math_abs (prec point - precMean data) / precStd data;
             isOutlier :=
               zScoreThreshold config <? Math_abs (prec point - precMean data) / precStd data |})
    data.
Proof. reflexivity. Qed.

Lemma detectMagnitudeOutliers_In p :
  In p (detectMagnitudeOutliers config data) ->
  exists d k,
    nth_error data k = Some d /\
    nth_error (detectMagnitudeOutliers config data) k = Some p /\
    point p = d /\ index p = k /\
    zScore p = Math_abs (prec d - precMean data) / precStd data /\
    isOutlier p = (zScoreThreshold config <? zScore p).
Proof.
  rewrite detectMagnitudeOutliers_eq. unfold mapi. intros H.
  apply mapi_from_In in H. destruct H as (d & k & Hk & ->).
  exists d, k. rewrite mapi_from_nth_error, Hk. simpl.
  repeat split; assumption || reflexivity.
Qed.

Lemma detectMagnitudeOutliers_nth k p :
  nth_error (detectMagnitudeOutliers config data) k = Some p ->
  index p = k /\ isOutlier p = (zScoreThreshold config <? zScore p).
Proof.
  rewrite detectMagnitudeOutliers_eq. unfold mapi. rewrite mapi_from_nth_error.
  destruct (nth_error data k); simpl; [| discriminate].
  intros [= <-]. split; reflexivity.
Qed.

Lemma detectMagnitudeOutliers_ranked :
  StronglySorted (fun a b => (index a < index b)%nat) (detectMagnitudeOutliers config data).
Proof.
  rewrite detectMagnitudeOutliers_eq. unfold mapi.
  match goal with |- context [mapi_from ?g _ _] => set (f := g) end.
  assert (Hf : forall x k, index (f x k) = k) by reflexivity.
  clearbody f. generalize 0%nat.
  induction data as [| d l IH]; intros i; simpl; constructor; [apply IH |].
  apply Forall_forall. intros p Hp. apply mapi_from_In in Hp.
  destruct Hp as (x & k & _ & ->). rewrite !Hf. lia.
Qed.

Lemma candidateAnomalies_ranked :
  StronglySorted (fun a b => (index a < index b)%nat) (candidateAnomalies config data).
Proof. apply StronglySorted_filter, detectMagnitudeOutliers_ranked. Qed.

Lemma validate_candidate c : candidate (validate Math_cos Math_sin config data c) = c.
Proof. unfold validate. now destruct (enableDirectionalConsistency config). Qed.

Lemma validate_neighbors c :
  neighbors (validate Math_cos Math_sin config data c) = length (findNeighbors config c data).
Proof. unfold validate. now destruct (enableDirectionalConsistency config). Qed.

Lemma validatedAnomalies_candidates :
  map candidate (validatedAnomalies Math_cos Math_sin config data) =
  candidateAnomalies config data.
Proof.
  rewrite validatedAnomalies_map, map_map.
  erewrite map_ext; [apply map_id |]. intros c. apply validate_candidate.
Qed.

Lemma validatedAnomalies_ranked :
  StronglySorted (fun a b : Anomaly => (index a < index b)%nat)
    (validatedAnomalies Math_cos Math_sin config data).
Proof.
  pose proof candidateAnomalies_ranked as H.
  rewrite <- validatedAnomalies_candidates in H.
  induction (validatedAnomalies Math_cos Math_sin config data) as [| a l IH];
    [constructor |].
  simpl in H. inversion H as [| ? ? Hs Hf]; subst.
  constructor; [now apply IH |].
  rewrite Forall_forall in Hf |- *. intros b Hb. apply Hf. now apply in_map.
Qed.

Lemma sortedAnomalies_perm :
  Permutation (sortedAnomalies Math_cos Math_sin config data)
    (validatedAnomalies Math_cos Math_sin config data).
Proof. apply sort_perm. Qed.

Lemma sortedAnomalies_In a :
  In a (sortedAnomalies Math_cos Math_sin config data) <->
  exists c, In c (candidateAnomalies config data) /\
            a = validate Math_cos Math_sin config data c.
Proof.
  split.
  - intros H. apply (Permutation_in _ sortedAnomalies_perm) in H.
    rewrite validatedAnomalies_map in H. apply in_map_iff in H.
    destruct H as (c & <- & Hc). now exists c.
  - intros (c & Hc & ->).
    apply (Permutation_in _ (Permutation_sym sortedAnomalies_perm)).
    rewrite validatedAnomalies_map. now apply in_map.
Qed.

Lemma calculateDirectionalConsistency_step targetPoint neighbors :
  calculateDirectionalConsistency Math_cos Math_sin config targetPoint neighbors =
  match consistencyStep Math_cos Math_sin config targetPoint neighbors with
  | TooFewNeighbors => {| consistency := 0; isCoherent := false |}
  | ZeroMagnitude => {| consistency := 0; isCoherent := false |}
  | Divide dotProduct divisor =>
      {| consistency := dotProduct / divisor; isCoherent := 0.5 <? dotProduct / divisor |}
  end.
Proof.
  unfold calculateDirectionalConsistency, consistencyStep.
  destruct (of_length (length neighbors) <? minimumNeighbors config); [reflexivity |].
  cbv zeta. fold (meanNeighborVector Math_cos Math_sin neighbors).
  fold (magnitude (convertWindToVector Math_cos Math_sin (ws10m targetPoint) (wd10m targetPoint))).
  fold (magnitude (meanNeighborVector Math_cos Math_sin neighbors)).
  destruct ((magnitude (convertWindToVector Math_cos Math_sin (ws10m targetPoint)
                          (wd10m targetPoint)) =? 0) ||
            (magnitude (meanNeighborVector Math_cos Math_sin neighbors) =? 0));
    reflexivity.
Qed.

(** The callback runs once, on a non-empty dataset, with the sorted list. *)
Lemma runDetection_delivers out :
  In (onAnomaliesDetected out) (runDetection Math_cos Math_sin config data) <->
  data <> [] /\ out = sortedAnomalies Math_cos Math_sin config data.
Proof.
  unfold runDetection. destruct data as [| d l]; simpl.
  - split; [intros [H | []]; discriminate H | intros [H _]; now elim H].
  - split.
    + intros [H | [H | [H | [H | []]]]]; try discriminate H.
      injection H as <-. split; [discriminate | reflexivity].
    + intros [_ ->]. right. now left.
Qed.

End Pipeline.

(** ** Constant precipitation *)

Section ConstantPrecipitation.

Import FloatFacts.

Variable data : list ClimateData.
Variable value : number.
Hypothesis constant : forall d, In d data -> prec d = value.
Hypothesis mean_exact : (precMean data =? value) = true.

Lemma deviation_zero d : In d data -> zero_or_nan (Prim2SF (prec d - precMean data)).
Proof. intros H. rewrite (constant d H). now apply sub_of_equal. Qed.

Lemma squares_sum_zero (l : list ClimateData) acc :
  incl l data -> pzero_or_nan (Prim2SF acc) ->
  pzero_or_nan
    (Prim2SF (reduce (fun sum d => sum + Math_pow2 (prec d - precMean data)) acc l)).
Proof.
  unfold reduce. revert acc. induction l as [| d l IH]; intros acc Hl Hacc; simpl.
  - assumption.
  - apply IH.
    + intros x Hx. apply Hl. now right.
    + apply add_pzero; [assumption |].
      apply square_of_zero, deviation_zero, Hl. now left.
Qed.

Lemma precStd_zero : zero_or_nan (Prim2SF (precStd data)).
Proof.
  unfold precStd. apply sqrt_of_zero, div_of_zero, pzero_or_nan_weaken.
  apply squares_sum_zero; [apply incl_refl | now left].
Qed.

Lemma zScore_nan config p :
  In p (detectMagnitudeOutliers config data) -> zScore p = nan.
Proof.
  intros H. apply detectMagnitudeOutliers_In in H.
  destruct H as (d & k & Hk & _ & _ & _ & Hz & _). rewrite Hz.
  apply div_zero_zero; [| exact precStd_zero].
  apply abs_of_zero, deviation_zero. eapply nth_error_In, Hk.
Qed.

Lemma isOutlier_false config p :
  In p (detectMagnitudeOutliers config data) -> isOutlier p = false.
Proof.
  intros H. pose proof (zScore_nan config p H) as Hz.
  apply detectMagnitudeOutliers_In in H.
  destruct H as (d & k & _ & _ & _ & _ & _ & Ho). rewrite Ho, Hz. apply ltb_nan_r.
Qed.

Lemma candidateAnomalies_nil config : candidateAnomalies config data = [].
Proof.
  unfold candidateAnomalies. apply filter_all_false.
  intros p Hp. exact (isOutlier_false config p Hp).
Qed.

End ConstantPrecipitation.

(** C1, as the code has it.  When all precipitation values are equal
    and the computed mean is that value, every deviation from the mean
    is zero, the standard deviation is zero, and the z-score of every
    observation is 0/0, that is [NaN]: there is no fallback to 0.
    [NaN] exceeds no threshold, so no observation is flagged. *)
Theorem constant_precipitation_zScore_is_nan
    (config : DetectionConfig) (data : list ClimateData) (value : number) :
  (forall d, In d data -> prec d = value) ->
  (precMean data =? value) = true ->
  forall p, In p (detectMagnitudeOutliers config data) ->
    zScore p = nan /\ is_nan (zScore p) = true /\ isOutlier p = false.
Proof.
  intros Hc Hm p Hp.
  rewrite (zScore_nan data value Hc Hm config p Hp).
  repeat split. exact (isOutlier_false data value Hc Hm config p Hp).
Qed.

Lemma constant_precipitation_zScore_is_nan_witness :
  Forall (fun p => zScore p = nan /\ is_nan (zScore p) = true /\ isOutlier p = false)
    (detectMagnitudeOutliers defaultConfig drySpell).
Proof.
  apply Forall_forall. intros p Hp.
  apply (constant_precipitation_zScore_is_nan defaultConfig drySpell 0).
  - intros d [<- | [<- | [<- | []]]]; reflexivity.
  - reflexivity.
  - exact Hp.
Defined.

(** C1 as stated fails.  On three dry days every precipitation value
    is 0 and the standard deviation is exactly 0, and the z-scores are
    [NaN], which is not 0.  On three days with the same
    [0.1 * 2^-600] the computed mean is off that value by one rounding,
    the squared deviations underflow, the standard deviation is
    exactly 0 again, and the z-scores are infinite. *)
Lemma constant_precipitation_zScore_not_zero :
  (Forall (fun d => prec d = 0) drySpell /\
   precStd drySpell = 0 /\
   map zScore (detectMagnitudeOutliers defaultConfig drySpell) = [nan; nan; nan] /\
   (nan =? 0) = false) /\
  (Forall (fun d => prec d = 0x1.999999999999ap-604) trace /\
   precStd trace = 0 /\
   map zScore (detectMagnitudeOutliers defaultConfig trace) = [infinity; infinity; infinity]).
Proof.
  split; (split; [repeat constructor | repeat split; reflexivity]).
Qed.

(** C6, as the code has it.  When all precipitation values are equal
    and the computed mean is that value, no observation is a candidate
    at any threshold, and a run delivers the empty list. *)
Theorem constant_precipitation_no_candidates
    (Math_cos Math_sin : number -> number)
    (config : DetectionConfig) (data : list ClimateData) (value : number) :
  (forall d, In d data -> prec d = value) ->
  (precMean data =? value) = true ->
  candidateAnomalies config data = [] /\
  sortedAnomalies Math_cos Math_sin config data = [] /\
  (forall out,
     In (onAnomaliesDetected out) (runDetection Math_cos Math_sin config data) -> out = []).
Proof.
  intros Hc Hm.
  assert (Hnil : candidateAnomalies config data = [])
    by exact (candidateAnomalies_nil data value Hc Hm config).
  assert (Hs : sortedAnomalies Math_cos Math_sin config data = []).
  { unfold sortedAnomalies. rewrite validatedAnomalies_map, Hnil. reflexivity. }
  repeat split; try assumption.
  intros out Hout. apply runDetection_delivers in Hout. destruct Hout as [_ ->]. exact Hs.
Qed.

Lemma constant_precipitation_no_candidates_witness :
  candidateAnomalies defaultConfig drySpell = [] /\
  sortedAnomalies cos_sample sin_sample defaultConfig drySpell = [] /\
  (forall out,
     In (onAnomaliesDetected out) (runDetection cos_sample sin_sample defaultConfig drySpell) ->
     out = []).
Proof.
  apply (constant_precipitation_no_candidates cos_sample sin_sample defaultConfig drySpell 0).
  - intros d [<- | [<- | [<- | []]]]; reflexivity.
  - reflexivity.
Defined.

(** C6 as stated fails.  Three days with the same 0.1 mm: the computed
    mean is 0.10000000000000002, every z-score is 1, and at threshold
    0.5 all three are candidates.  Three days with the same
    [0.1 * 2^-600]: the squared deviations underflow, the standard
    deviation is 0, every z-score is infinite, and all three are
    candidates at the default threshold 2.5. *)
Lemma constant_precipitation_candidates :
  (Forall (fun d => prec d = 0.1) drizzle /\
   map zScore (detectMagnitudeOutliers lowThreshold drizzle) = [1; 1; 1] /\
   map (fun p => index p) (candidateAnomalies lowThreshold drizzle) = [0; 1; 2]%nat) /\
  (Forall (fun d => prec d = 0x1.999999999999ap-604) trace /\
   precStd trace = 0 /\
   map zScore (detectMagnitudeOutliers defaultConfig trace) = [infinity; infinity; infinity] /\
   map (fun p => index p) (candidateAnomalies defaultConfig trace) = [0; 1; 2]%nat).
Proof.
  split; (split; [repeat constructor | repeat split; reflexivity]).
Qed.

(** ** Empty input *)

(** C2, as the code has it.  On an empty dataset a run does not
    fail.  It shows one destructive toast, "No data available", and
    returns: its promise is fulfilled, processing is not started and
    the callback of the caller is not called.  No run, on any
    dataset, ends with an exception. *)
Theorem runDetection_empty_input
    (Math_cos Math_sin : number -> number) (config : DetectionConfig) :
  runDetection Math_cos Math_sin config [] = [toast noDataToast] /\
  title noDataToast = "No data available"%string /\
  variant noDataToast = variant_destructive /\
  runDetection_settled [] = fulfilled /\
  (forall out, ~ In (onAnomaliesDetected out) (runDetection Math_cos Math_sin config [])) /\
  (forall b, ~ In (setIsProcessing b) (runDetection Math_cos Math_sin config [])) /\
  (forall data reason, runDetection_settled data <> rejected reason).
Proof.
  split; [reflexivity | split; [reflexivity | split; [reflexivity | split; [reflexivity |]]]].
  split; [| split].
  - intros out [H | []]. discriminate H.
  - intros b [H | []]. discriminate H.
  - intros [| d l] reason; discriminate.
Qed.

(** C2 as stated fails.  The run on the empty dataset with the
    initial configuration is the toast and nothing else; the promise
    of the call is fulfilled, not rejected with an [EmptyInputError],
    and the caller is handed neither an error nor a result. *)
Lemma empty_input_is_not_an_error :
  runDetection cos_sample sin_sample defaultConfig [] = [toast noDataToast] /\
  runDetection_settled [] = fulfilled /\
  runDetection_settled [] <> rejected "EmptyInputError" /\
  ~ In (onAnomaliesDetected []) (runDetection cos_sample sin_sample defaultConfig []).
Proof.
  split; [reflexivity | split; [reflexivity | split; [discriminate |]]].
  intros [H | []]. discriminate H.
Qed.

(** ** Neighbour search *)

Lemma findNeighbors_In config targetPoint allPoints point :
  In point (findNeighbors config targetPoint allPoints) <->
  In point allPoints /\
  sameCoordinates point targetPoint = false /\
  (distance point targetPoint <=? spatialRadius config) = true.
Proof.
  unfold findNeighbors, sameCoordinates. rewrite filter_In.
  destruct ((lat point =? lat targetPoint) && (lon point =? lon targetPoint)); intuition congruence.
Qed.

Lemma findNeighbors_filter config targetPoint allPoints :
  findNeighbors config targetPoint allPoints =
  filter (fun point =>
            negb (sameCoordinates point targetPoint) &&
            (distance point targetPoint <=? spatialRadius config)) allPoints.
Proof.
  unfold findNeighbors, sameCoordinates. apply filter_ext. intros point.
  now destruct ((lat point =? lat targetPoint) && (lon point =? lon targetPoint)).
Qed.

(** C3, as the code has it.  The neighbour query returns, in dataset
    order, exactly the observations within the radius whose
    coordinates differ from the target's: every record at the
    target's latitude and longitude is left out, the target and its
    duplicates at other indices alike. *)
Theorem findNeighbors_excludes_by_coordinates
    (config : DetectionConfig) (targetPoint : ClimateData) (allPoints : list ClimateData) :
  (forall point,
     In point (findNeighbors config targetPoint allPoints) <->
     In point allPoints /\
     sameCoordinates point targetPoint = false /\
     (distance point targetPoint <=? spatialRadius config) = true) /\
  (forall point,
     In point allPoints -> sameCoordinates point targetPoint = true ->
     ~ In point (findNeighbors config targetPoint allPoints)) /\
  findNeighbors config targetPoint allPoints =
  filter (fun point => negb (sameCoordinates point targetPoint))
    (withinRadius config targetPoint allPoints).
Proof.
  split; [| split].
  - intros point. apply findNeighbors_In.
  - intros point _ Hsame Hin. apply findNeighbors_In in Hin.
    destruct Hin as (_ & Hdiff & _). congruence.
  - rewrite findNeighbors_filter. unfold withinRadius. apply filter_andb.
Qed.

(** C3 as stated fails.  At a station with ten daily records the first
    day's record is another record than the second day's, at distance
    0 from it, and the query for the second day returns nothing. *)
Lemma findNeighbors_drops_duplicate_coordinates :
  nth_error stationSeries 1 = Some (row 29 79 2 3 0 6.21) /\
  nth_error stationSeries 0 = Some (row 29 79 1 3 0 0.29) /\
  distance (row 29 79 1 3 0 0.29) (row 29 79 2 3 0 6.21) = 0 /\
  (0 <=? spatialRadius defaultConfig) = true /\
  findNeighbors defaultConfig (row 29 79 2 3 0 6.21) stationSeries = [].
Proof. repeat split; reflexivity. Qed.

(** ** Monotonicity *)

Lemma candidateAnomalies_filter config data :
  map (fun p => index p) (candidateAnomalies config data) =
  map (fun p => index p)
    (filter (fun p => zScoreThreshold config <? zScore p)
       (detectMagnitudeOutliers defaultConfig data)).
Proof.
  unfold candidateAnomalies. rewrite !detectMagnitudeOutliers_eq. unfold mapi.
  generalize 0%nat.
  generalize (precMean data) (precStd data). intros mean std.
  induction data as [| d l IH]; intros i; simpl; [reflexivity |].
  destruct (zScoreThreshold config <? Math_abs (prec d - mean) / std); simpl; now rewrite IH.
Qed.

(** C9.  (i) Raising the z-score threshold never adds a candidate;
    (ii) widening the radius never removes a neighbour. *)
Theorem threshold_and_radius_monotone
    (config : DetectionConfig) (data : list ClimateData) (targetPoint : ClimateData)
    (t1 t2 r1 r2 : number) :
  (t1 <=? t2) = true ->
  (r1 <=? r2) = true ->
  ((length (candidateAnomalies (setZScoreThreshold config t2) data) <=
    length (candidateAnomalies (setZScoreThreshold config t1) data))%nat /\
   incl (map (fun p => index p) (candidateAnomalies (setZScoreThreshold config t2) data))
        (map (fun p => index p) (candidateAnomalies (setZScoreThreshold config t1) data))) /\
  (incl (findNeighbors (setSpatialRadius config r1) targetPoint data)
        (findNeighbors (setSpatialRadius config r2) targetPoint data) /\
   (length (findNeighbors (setSpatialRadius config r1) targetPoint data) <=
    length (findNeighbors (setSpatialRadius config r2) targetPoint data))%nat).
Proof.
  intros Ht Hr. split; split.
  - rewrite <- (length_map (fun p => index p)), <- (length_map (fun p => index p) (candidateAnomalies (setZScoreThreshold config t1) data)).
    rewrite !candidateAnomalies_filter, !length_map. simpl.
    apply filter_length_mono. intros p _ H. eapply FloatFacts.leb_ltb_trans; eassumption.
  - rewrite !candidateAnomalies_filter. simpl. intros i Hi.
    apply in_map_iff in Hi. destruct Hi as (p & <- & Hp). apply in_map.
    revert Hp. apply filter_incl_mono. intros q _ H.
    eapply FloatFacts.leb_ltb_trans; eassumption.
  - rewrite !findNeighbors_filter. simpl. apply filter_incl_mono.
    intros p _ H. apply andb_prop in H. destruct H as [H1 H2]. rewrite H1. simpl.
    eapply FloatFacts.leb_trans; eassumption.
  - rewrite !findNeighbors_filter. simpl. apply filter_length_mono.
    intros p _ H. apply andb_prop in H. destruct H as [H1 H2]. rewrite H1. simpl.
    eapply FloatFacts.leb_trans; eassumption.
Qed.

Lemma threshold_and_radius_monotone_witness :
  ((length (candidateAnomalies strictScreen breeze) <=
    length (candidateAnomalies looseScreen breeze))%nat /\
   incl (map (fun p => index p) (candidateAnomalies strictScreen breeze))
        (map (fun p => index p) (candidateAnomalies looseScreen breeze))) /\
  (incl (findNeighbors narrowSearch wetCell breeze) (findNeighbors wideSearch wetCell breeze) /\
   (length (findNeighbors narrowSearch wetCell breeze) <=
    length (findNeighbors wideSearch wetCell breeze))%nat).
Proof.
  apply (threshold_and_radius_monotone defaultConfig breeze wetCell 1.5 2.5 0.1 0.5);
    reflexivity.
Defined.

(** ** Dependence on [Math.cos] and [Math.sin]

    A run reads the two functions only through the wind vectors of
    the observations of the dataset. *)

Section TrigonometryUsed.

Variables cos1 sin1 cos2 sin2 : number -> number.
Variable config : DetectionConfig.
Variable data : list ClimateData.

Hypothesis same_vectors : forall d, In d data ->
  convertWindToVector cos1 sin1 (ws10m d) (wd10m d) =
  convertWindToVector cos2 sin2 (ws10m d) (wd10m d).

Lemma meanNeighborVector_ext neighbors :
  incl neighbors data ->
  meanNeighborVector cos1 sin1 neighbors = meanNeighborVector cos2 sin2 neighbors.
Proof.
  intros Hin. unfold meanNeighborVector, reduce.
  generalize {| u := 0; v := 0 |}. intros acc.
  assert (H : forall acc,
    fold_left (fun acc neighbor =>
      {| u := u acc + u (convertWindToVector cos1 sin1 (ws10m neighbor) (wd10m neighbor));
         v := v acc + v (convertWindToVector cos1 sin1 (ws10m neighbor) (wd10m neighbor)) |})
      neighbors acc =
    fold_left (fun acc neighbor =>
      {| u := u acc + u (convertWindToVector cos2 sin2 (ws10m neighbor) (wd10m neighbor));
         v := v acc + v (convertWindToVector cos2 sin2 (ws10m neighbor) (wd10m neighbor)) |})
      neighbors acc).
  { induction neighbors as [| n l IH]; intros a; cbn [fold_left]; [reflexivity |].
    rewrite (same_vectors n) by (apply Hin; now left).
    apply IH. intros x Hx. apply Hin. now right. }
  now rewrite H.
Qed.

Lemma consistencyStep_ext targetPoint neighbors :
  In targetPoint data -> incl neighbors data ->
  consistencyStep cos1 sin1 config targetPoint neighbors =
  consistencyStep cos2 sin2 config targetPoint neighbors.
Proof.
  intros Ht Hn. unfold consistencyStep.
  now rewrite (same_vectors targetPoint Ht), (meanNeighborVector_ext neighbors Hn).
Qed.

Lemma validate_ext c :
  In (point c) data -> validate cos1 sin1 config data c = validate cos2 sin2 config data c.
Proof.
  intros Hc. unfold validate. rewrite !calculateDirectionalConsistency_step.
  rewrite (consistencyStep_ext (point c) (findNeighbors config c data) Hc); [reflexivity |].
  intros x Hx. apply findNeighbors_In in Hx. tauto.
Qed.

Lemma sortedAnomalies_ext :
  sortedAnomalies cos1 sin1 config data = sortedAnomalies cos2 sin2 config data.
Proof.
  unfold sortedAnomalies. rewrite !validatedAnomalies_map. f_equal.
  apply map_ext_in. intros c Hc. apply validate_ext.
  unfold candidateAnomalies in Hc. apply filter_In in Hc. destruct Hc as [Hc _].
  apply detectMagnitudeOutliers_In in Hc. destruct Hc as (d & k & Hk & _ & -> & _).
  eapply nth_error_In, Hk.
Qed.

End TrigonometryUsed.

(** With every wind direction at 0 degrees only [cos 0] and [sin 0] are read. *)
Lemma sortedAnomalies_at_0 cos sin config data :
  cos 0 = 1 -> sin 0 = 0 ->
  Forall (fun d => wd10m d = 0) data ->
  sortedAnomalies cos sin config data = sortedAnomalies cos_sample sin_sample config data.
Proof.
  intros Hc Hs Hd. apply sortedAnomalies_ext. intros d Hin.
  rewrite Forall_forall in Hd. unfold convertWindToVector. rewrite (Hd d Hin).
  change (0 * Math_PI / 180) with 0. rewrite Hc, Hs. reflexivity.
Qed.

(** With wind directions 0 and 90 degrees the two functions are read at
    0 and at [quarterTurn]. *)
Lemma sortedAnomalies_sampled cos sin config data :
  cos 0 = 1 -> sin 0 = 0 ->
  cos quarterTurn = 0x1.1a62633145c07p-54 -> sin quarterTurn = 1 ->
  Forall (fun d => wd10m d = 0 \/ wd10m d = 90) data ->
  sortedAnomalies cos sin config data = sortedAnomalies cos_sample sin_sample config data.
Proof.
  intros Hc Hs Hcq Hsq Hd. apply sortedAnomalies_ext. intros d Hin.
  rewrite Forall_forall in Hd. unfold convertWindToVector.
  destruct (Hd d Hin) as [-> | ->].
  - change (0 * Math_PI / 180) with 0. rewrite Hc, Hs. reflexivity.
  - change (90 * Math_PI / 180) with quarterTurn. rewrite Hcq, Hsq. reflexivity.
Qed.

(** ** Directional consistency *)



(** C8.  Past the neighbour-count guard, when the magnitude of the
    candidate's wind vector or of the neighbours' mean vector is zero,
    the function returns at the zero-magnitude guard with consistency
    0 and coherent false, and the division is not reached.  Whenever
    the division is reached, both magnitudes are non-zero, the divisor
    is their product, and the divisor is not zero: the magnitudes are
    square roots, and the product of two non-zero square roots does
    not underflow to zero. *)
Theorem zero_magnitude_guard
    (Math_cos Math_sin : number -> number) (config : DetectionConfig)
    (targetPoint : ClimateData) (neighbors : list ClimateData) :
  (of_length (length neighbors) <? minimumNeighbors config) = false ->
  (magnitude (convertWindToVector Math_cos Math_sin (ws10m targetPoint) (wd10m targetPoint))
     =? 0) = true \/
  (magnitude (meanNeighborVector Math_cos Math_sin neighbors) =? 0) = true ->
  consistencyStep Math_cos Math_sin config targetPoint neighbors = ZeroMagnitude /\
  calculateDirectionalConsistency Math_cos Math_sin config targetPoint neighbors =
    {| consistency := 0; isCoherent := false |} /\
  (forall config' targetPoint' neighbors' dotProduct divisor,
     consistencyStep Math_cos Math_sin config' targetPoint' neighbors' =
       Divide dotProduct divisor ->
     (magnitude (convertWindToVector Math_cos Math_sin (ws10m targetPoint') (wd10m targetPoint'))
        =? 0) = false /\
     (magnitude (meanNeighborVector Math_cos Math_sin neighbors') =? 0) = false /\
     divisor =
       magnitude (convertWindToVector Math_cos Math_sin (ws10m targetPoint') (wd10m targetPoint'))
       * magnitude (meanNeighborVector Math_cos Math_sin neighbors') /\
     (divisor =? 0) = false /\
     consistency
       (calculateDirectionalConsistency Math_cos Math_sin config' targetPoint' neighbors') =
       dotProduct / divisor).
Proof.
  intros Hn Hz.
  assert (Hstep : consistencyStep Math_cos Math_sin config targetPoint neighbors = ZeroMagnitude).
  { unfold consistencyStep. rewrite Hn. cbv zeta.
    destruct Hz as [Hz | Hz]; rewrite Hz; [reflexivity | now rewrite orb_true_r]. }
  split; [exact Hstep | split].
  - now rewrite calculateDirectionalConsistency_step, Hstep.
  - intros config' targetPoint' neighbors' dotProduct divisor Hdiv.
    rewrite calculateDirectionalConsistency_step, Hdiv. cbn [consistency].
    revert Hdiv. unfold consistencyStep.
    destruct (of_length (length neighbors') <? minimumNeighbors config'); [discriminate |].
    cbv zeta.
    destruct (magnitude (convertWindToVector Math_cos Math_sin (ws10m targetPoint') (wd10m targetPoint')) =? 0)
      eqn:Ht; [discriminate |].
    destruct (magnitude (meanNeighborVector Math_cos Math_sin neighbors') =? 0)
      eqn:Hm; [discriminate |].
    simpl. intros [= _ <-]. repeat split.
    unfold magnitude in *. now apply SqrtFacts.sqrt_product_nonzero.
Qed.

Lemma zero_magnitude_guard_witness :
  (consistencyStep cos_sample sin_sample defaultConfig (row 29.05 79 1 0 0 6.21)
     (findNeighbors defaultConfig (row 29.05 79 1 0 0 6.21) calm) = ZeroMagnitude /\
   calculateDirectionalConsistency cos_sample sin_sample defaultConfig (row 29.05 79 1 0 0 6.21)
     (findNeighbors defaultConfig (row 29.05 79 1 0 0 6.21) calm) =
     {| consistency := 0; isCoherent := false |}) /\
  (consistencyStep cos_sample sin_sample defaultConfig (row 29.05 79 1 1e-200 0 6.21)
     (findNeighbors defaultConfig (row 29.05 79 1 1e-200 0 6.21) stillAir) = ZeroMagnitude) /\
  (exists dotProduct divisor,
     consistencyStep cos_sample sin_sample defaultConfig (row 29.05 79 1 1e-160 0 6.21)
       (findNeighbors defaultConfig (row 29.05 79 1 1e-160 0 6.21) lightAir) =
       Divide dotProduct divisor /\
     (divisor <? 1e-319) = true /\
     (divisor =? 0) = false).
Proof.
  pose proof (zero_magnitude_guard cos_sample sin_sample defaultConfig (row 29.05 79 1 0 0 6.21)
                (findNeighbors defaultConfig (row 29.05 79 1 0 0 6.21) calm)) as H.
  destruct H as (H1 & H2 & H3); [reflexivity | left; reflexivity |].
  split; [split; assumption | split; [reflexivity |]].
  destruct (consistencyStep cos_sample sin_sample defaultConfig (row 29.05 79 1 1e-160 0 6.21)
              (findNeighbors defaultConfig (row 29.05 79 1 1e-160 0 6.21) lightAir))
    as [| | dotProduct divisor] eqn:E; [discriminate E | discriminate E |].
  exists dotProduct, divisor. split; [reflexivity |].
  destruct (H3 _ _ _ _ _ E) as (_ & _ & _ & Hnz & _). split; [| exact Hnz].
  vm_compute in E. injection E as _ <-. reflexivity.
Defined.

(** ** The result list *)

Lemma ranked_NoDup {A : Type} (rank : A -> nat) l :
  StronglySorted (fun a b => (rank a < rank b)%nat) l -> NoDup (map rank l).
Proof.
  induction 1 as [| a l Hs IH Ha]; simpl; constructor; [| assumption].
  intros Hin. apply in_map_iff in Hin. destruct Hin as (b & Hb & Hbl).
  rewrite Forall_forall in Ha. specialize (Ha b Hbl). lia.
Qed.

Lemma flagged_index config data i :
  In i (map (fun p => index p) (candidateAnomalies config data)) <->
  exists p, nth_error (detectMagnitudeOutliers config data) i = Some p /\
            (zScoreThreshold config <? zScore p) = true.
Proof.
  unfold candidateAnomalies. rewrite in_map_iff. split.
  - intros (p & <- & Hp). apply filter_In in Hp. destruct Hp as [Hin Hout].
    apply detectMagnitudeOutliers_In in Hin.
    destruct Hin as (d & k & _ & Hk & _ & -> & _ & Ho).
    exists p. split; [assumption | now rewrite <- Ho].
  - intros (p & Hp & Hz). exists p.
    pose proof (detectMagnitudeOutliers_nth config data i p Hp) as [Hi Ho].
    split; [assumption |]. apply filter_In. split; [eapply nth_error_In, Hp | now rewrite Ho].
Qed.

Lemma confidence_stable_descending l : confidence_stable l -> confidence_descending l.
Proof.
  unfold confidence_stable, confidence_descending.
  induction 1 as [| a l Hs IH Ha]; constructor; [assumption |].
  rewrite Forall_forall in Ha |- *. intros b Hb.
  eapply ranked_before_leb, Ha, Hb.
Qed.

(** C5, as the code has it.  The delivered list holds exactly one
    result for each observation whose z-score exceeds the threshold
    and none for any other index.  When no confidence is [NaN] the
    list is in descending order of confidence, results of equal
    confidence in dataset order. *)
Theorem detection_output_ranked
    (Math_cos Math_sin : number -> number) (config : DetectionConfig)
    (data : list ClimateData) (out : list Anomaly) :
  In (onAnomaliesDetected out) (runDetection Math_cos Math_sin config data) ->
  Permutation (map candidate out) (candidateAnomalies config data) /\
  NoDup (map (fun a : Anomaly => index a) out) /\
  (forall i,
     In i (map (fun a : Anomaly => index a) out) <->
     exists p, nth_error (detectMagnitudeOutliers config data) i = Some p /\
               (zScoreThreshold config <? zScore p) = true) /\
  (Forall (fun a => is_nan (confidence a) = false) out ->
   confidence_descending out /\ confidence_stable out).
Proof.
  intros Hout. apply runDetection_delivers in Hout. destruct Hout as [_ ->].
  pose proof (sortedAnomalies_perm Math_cos Math_sin config data) as Hperm.
  assert (Hcand : Permutation
            (map candidate (sortedAnomalies Math_cos Math_sin config data))
            (candidateAnomalies config data)).
  { rewrite <- (validatedAnomalies_candidates Math_cos Math_sin config data).
    now apply Permutation_map. }
  assert (Hidx : Permutation
            (map (fun a : Anomaly => index a) (sortedAnomalies Math_cos Math_sin config data))
            (map (fun p => index p) (candidateAnomalies config data))).
  { rewrite <- (map_map candidate (fun p => index p)). now apply Permutation_map. }
  split; [exact Hcand | split; [| split]].
  - apply (Permutation_NoDup (Permutation_sym Hidx)).
    apply ranked_NoDup, candidateAnomalies_ranked.
  - intros i. rewrite <- flagged_index. split; intros H.
    + exact (Permutation_in _ Hidx H).
    + exact (Permutation_in _ (Permutation_sym Hidx) H).
  - intros Hnan.
    assert (Hs : confidence_stable (sortedAnomalies Math_cos Math_sin config data)).
    { unfold confidence_stable, sortedAnomalies.
      apply (sort_ranked confidence (fun a : Anomaly => index a)).
      - exact (Permutation_Forall Hperm Hnan).
      - apply validatedAnomalies_ranked. }
    split; [now apply confidence_stable_descending | exact Hs].
Qed.

Lemma detection_output_ranked_witness :
  map (fun a : Anomaly => (index a, confidence a))
    (sortedAnomalies cos_sample sin_sample defaultConfig tiedEvents) =
    [(1%nat, 1); (0%nat, 0.3); (5%nat, 0.3)] /\
  Permutation (map candidate (sortedAnomalies cos_sample sin_sample defaultConfig tiedEvents))
    (candidateAnomalies defaultConfig tiedEvents) /\
  confidence_descending (sortedAnomalies cos_sample sin_sample defaultConfig tiedEvents) /\
  confidence_stable (sortedAnomalies cos_sample sin_sample defaultConfig tiedEvents).
Proof.
  split; [reflexivity |].
  pose proof (detection_output_ranked cos_sample sin_sample defaultConfig tiedEvents
                (sortedAnomalies cos_sample sin_sample defaultConfig tiedEvents)) as H.
  destruct H as (H1 & _ & _ & H2); [right; left; reflexivity |].
  split; [exact H1 |]. apply H2. repeat constructor.
Defined.

(** C5 as stated fails.  Three of the twenty-five cells are flagged.
    With [cos 0 = 1] and [sin 0 = 0] their confidences are 0.3 (no
    neighbours), [NaN] (the squares of the wind speeds overflow) and
    1, and the list is delivered in that order: the comparator returns
    [NaN] for each adjacent pair, and 0.3 stays ahead of 1. *)
Lemma detection_output_not_descending :
  enableDirectionalConsistency defaultConfig = true /\
  (0.3 <? 1) = true /\
  (forall cos sin : number -> number, cos 0 = 1 -> sin 0 = 0 ->
     map (fun a : Anomaly => (index a, confidence a))
       (sortedAnomalies cos sin defaultConfig threeEvents) =
     [(0%nat, 0.3); (1%nat, nan); (5%nat, 1)]).
Proof.
  split; [reflexivity | split; [reflexivity |]]. intros cos sin Hc Hs.
  rewrite (sortedAnomalies_at_0 cos sin defaultConfig threeEvents Hc Hs).
  - reflexivity.
  - repeat constructor.
Qed.

Lemma sortedAnomalies_without_direction cos1 sin1 cos2 sin2 config data :
  enableDirectionalConsistency config = false ->
  sortedAnomalies cos1 sin1 config data = sortedAnomalies cos2 sin2 config data.
Proof.
  intros Hen. unfold sortedAnomalies. rewrite !validatedAnomalies_map. f_equal.
  apply map_ext. intros c. unfold validate. now rewrite Hen.
Qed.

(** C10, as the code has it.  With the directional check disabled the
    neighbour search still runs for each candidate: the [neighbors]
    field is the number of observations within the radius whose
    coordinates differ from the candidate's, and both directional
    fields are null. *)
Theorem neighbors_counted_without_direction
    (Math_cos Math_sin : number -> number) (config : DetectionConfig)
    (data : list ClimateData) (out : list Anomaly) (a : Anomaly) :
  enableDirectionalConsistency config = false ->
  In (onAnomaliesDetected out) (runDetection Math_cos Math_sin config data) ->
  In a out ->
  neighbors a = length (findNeighbors config a data) /\
  neighbors a =
    length (filter (fun point => negb (sameCoordinates point a)) (withinRadius config a data)) /\
  directionalConsistency a = None /\
  isDirectionallyCoherent a = None.
Proof.
  intros Hen Hout Ha.
  apply runDetection_delivers in Hout. destruct Hout as [_ ->].
  apply sortedAnomalies_In in Ha. destruct Ha as (c & _ & ->).
  rewrite validate_neighbors, validate_candidate.
  split; [reflexivity | split].
  - rewrite findNeighbors_filter. unfold withinRadius. now rewrite filter_andb.
  - unfold validate. rewrite Hen. split; reflexivity.
Qed.

Lemma neighbors_counted_without_direction_witness :
  Forall (fun a : Anomaly =>
            neighbors a = length (findNeighbors withoutDirection a breeze) /\
            neighbors a =
              length (filter (fun point => negb (sameCoordinates point a))
                        (withinRadius withoutDirection a breeze)) /\
            directionalConsistency a = None /\
            isDirectionallyCoherent a = None)
    (sortedAnomalies cos_sample sin_sample withoutDirection breeze).
Proof.
  apply Forall_forall. intros a Ha.
  apply (neighbors_counted_without_direction cos_sample sin_sample withoutDirection breeze
           (sortedAnomalies cos_sample sin_sample withoutDirection breeze) a).
  - reflexivity.
  - right. left. reflexivity.
  - exact Ha.
Defined.

(** C10 as stated fails.  At the station with ten daily records, all
    ten lie within the radius of the wet day (nine of them other
    records), and with the directional check disabled its [neighbors]
    field is 0. *)
Lemma neighbors_not_the_count_within_radius :
  enableDirectionalConsistency withoutDirection = false /\
  length (withinRadius withoutDirection (row 29 79 2 3 0 6.21) stationSeries) = 10%nat /\
  (forall cos sin : number -> number,
     map (fun a : Anomaly => (index a, point a, neighbors a))
       (sortedAnomalies cos sin withoutDirection stationSeries) =
     [(1%nat, row 29 79 2 3 0 6.21, 0%nat)]).
Proof.
  split; [reflexivity | split; [reflexivity |]]. intros cos sin.
  rewrite (sortedAnomalies_without_direction cos sin cos_sample sin_sample
             withoutDirection stationSeries eq_refl).
  reflexivity.
Qed.

(** ** Confidence *)

Lemma validate_confidence Math_cos Math_sin config data c :
  enableDirectionalConsistency config = true ->
  exists x,
    directionalConsistency (validate Math_cos Math_sin config data c) = Some x /\
    isDirectionallyCoherent (validate Math_cos Math_sin config data c) = Some (0.5 <? x) /\
    isTrueAnomaly (validate Math_cos Math_sin config data c) = (0.5 <? x) /\
    confidence (validate Math_cos Math_sin config data c) = confidenceOf x.
Proof.
  intros Hen. unfold validate. rewrite Hen, calculateDirectionalConsistency_step.
  destruct (consistencyStep Math_cos Math_sin config c (findNeighbors config c data))
    as [| | dotProduct divisor]; cbn.
  - exists 0. repeat split; reflexivity.
  - exists 0. repeat split; reflexivity.
  - exists (dotProduct / divisor). unfold confidenceOf.
    destruct (0.5 <? dotProduct / divisor); repeat split; reflexivity.
Qed.

(** C4, as the code has it.  The confidence of a result is never zero
    and never negative.  With the directional check disabled it is
    exactly 0.7 and the directional fields are null.  With the check
    enabled the consistency [c] is never null, the result is coherent
    exactly when [c > 0.5], and the confidence is [0.8 + 0.2 c] when
    coherent and [0.3 - 0.2 c] otherwise.  When [c] is a number the
    confidence is at least 0.19999999999999998, which is [0.3 - 0.1]
    in binary64; it is at least 0.9 for a coherent result; when [c]
    lies in [-1, 1] it is at most 1, and at most 0.5 for a result
    that is not coherent.  Neither [c] nor the confidence is
    guaranteed to be a number. *)
Theorem confidence_bounds
    (Math_cos Math_sin : number -> number) (config : DetectionConfig)
    (data : list ClimateData) (out : list Anomaly) (a : Anomaly) :
  In (onAnomaliesDetected out) (runDetection Math_cos Math_sin config data) ->
  In a out ->
  (confidence a <=? 0) = false /\
  if enableDirectionalConsistency config then
    exists c,
      directionalConsistency a = Some c /\
      isDirectionallyCoherent a = Some (0.5 <? c) /\
      isTrueAnomaly a = (0.5 <? c) /\
      confidence a = confidenceOf c /\
      (is_nan c = false -> (0.19999999999999998 <=? confidence a) = true) /\
      ((0.5 <? c) = true -> (0.9 <=? confidence a) = true) /\
      ((-1 <=? c) = true -> (c <=? 1) = true -> (confidence a <=? 1) = true) /\
      ((0.5 <? c) = false -> (-1 <=? c) = true -> (confidence a <=? 0.5) = true)
  else
    confidence a = 0.7 /\
    directionalConsistency a = None /\
    isDirectionallyCoherent a = None /\
    isTrueAnomaly a = true.
Proof.
  intros Hout Ha.
  apply runDetection_delivers in Hout. destruct Hout as [_ ->].
  apply sortedAnomalies_In in Ha. destruct Ha as (x & _ & ->).
  destruct (enableDirectionalConsistency config) eqn:Hen.
  - destruct (validate_confidence Math_cos Math_sin config data x Hen)
      as (c & Hc & Hcoh & Htrue & Hconf).
    split; [rewrite Hconf; apply FloatFacts.confidenceOf_positive |].
    exists c. rewrite Hconf. repeat split; try assumption.
    + apply FloatFacts.confidenceOf_lower.
    + intros H. now apply FloatFacts.confidenceOf_coherent.
    + intros H1 H2. now apply FloatFacts.confidenceOf_range.
    + apply FloatFacts.confidenceOf_incoherent.
  - unfold validate. rewrite Hen. cbn. repeat split.
Qed.

Lemma confidence_bounds_witness :
  Forall (fun a =>
            (confidence a <=? 0) = false /\
            exists c,
              directionalConsistency a = Some c /\
              isDirectionallyCoherent a = Some (0.5 <? c) /\
              isTrueAnomaly a = (0.5 <? c) /\
              confidence a = confidenceOf c /\
              (is_nan c = false -> (0.19999999999999998 <=? confidence a) = true) /\
              ((0.5 <? c) = true -> (0.9 <=? confidence a) = true) /\
              ((-1 <=? c) = true -> (c <=? 1) = true -> (confidence a <=? 1) = true) /\
              ((0.5 <? c) = false -> (-1 <=? c) = true -> (confidence a <=? 0.5) = true))
    (sortedAnomalies cos_sample sin_sample defaultConfig breeze).
Proof.
  apply Forall_forall. intros a Ha.
  apply (confidence_bounds cos_sample sin_sample defaultConfig breeze
           (sortedAnomalies cos_sample sin_sample defaultConfig breeze) a).
  - right. left. reflexivity.
  - exact Ha.
Defined.

(** C4 as stated fails, in two ways.  On the [crosswind] cells, with
    the values of [Math.cos] and [Math.sin] at 0 and at a quarter
    turn, the mean neighbour vector is (1, 1.7320508075688774), its
    magnitude is 2, the consistency of the wet cell is exactly 0.5 and
    its confidence is 0.3 - 0.1 = 0.19999999999999998, below 0.2.  On
    ten grid cells whose wind speed is the finite value 1e200, both
    magnitudes and the dot product are infinite, the consistency of
    the wet cell is infinity / infinity, that is [NaN], and so is its
    confidence. *)
Lemma confidence_outside_range :
  enableDirectionalConsistency defaultConfig = true /\
  ((0.2 <=? 0.19999999999999998) = false /\
   forall cos sin : number -> number,
     cos 0 = 1 -> sin 0 = 0 ->
     cos quarterTurn = 6.123233995736766e-17 -> sin quarterTurn = 1 ->
     map (fun a : Anomaly => (index a, directionalConsistency a, confidence a))
       (sortedAnomalies cos sin defaultConfig crosswind) =
     [(1%nat, Some 0.5, 0.19999999999999998)]) /\
  ((0.2 <=? nan) = false /\ (nan <=? 1) = false /\ (-1 <=? nan) = false /\
   forall cos sin : number -> number,
     cos 0 = 1 -> sin 0 = 0 ->
     map (fun a : Anomaly => (index a, directionalConsistency a, confidence a))
       (sortedAnomalies cos sin defaultConfig gale) =
     [(1%nat, Some nan, nan)]).
Proof.
  split; [reflexivity | split].
  - split; [reflexivity |]. intros cos sin Hc Hs Hcq Hsq.
    rewrite (sortedAnomalies_sampled cos sin defaultConfig crosswind Hc Hs Hcq Hsq).
    + reflexivity.
    + repeat (constructor; [first [left; reflexivity | right; reflexivity] |]).
      constructor.
  - repeat (split; [reflexivity |]). intros cos sin Hc Hs.
    rewrite (sortedAnomalies_at_0 cos sin defaultConfig gale Hc Hs).
    + reflexivity.
    + repeat constructor.
Qed.

(** * The other components

    Facts about numbers, arrays and strings that the statistics card,
    the dashboard, the overview, the upload panel and the page need. *)

(** ** Numbers *)

Module NumberFacts.

Import FloatFacts.

(** *** [NaN] *)

Lemma add_nan_l x : nan + x = nan.
Proof.
  apply of_spec. rewrite FloatAxioms.add_spec. reflexivity.
Qed.

Lemma add_nan_r x : x + nan = nan.
Proof.
  apply of_spec. rewrite FloatAxioms.add_spec. change (Prim2SF nan) with S754_nan.
  now destruct (Prim2SF x) as [[] | [] | | [] ? ?].
Qed.

Lemma sub_nan_l x : nan - x = nan.
Proof. apply of_spec. rewrite FloatAxioms.sub_spec. reflexivity. Qed.

Lemma leb_nan_l x : (nan <=? x) = false.
Proof. rewrite FloatAxioms.leb_spec. reflexivity. Qed.

Lemma div_nan_l x : nan / x = nan.
Proof.
  apply of_spec. rewrite FloatAxioms.div_spec. reflexivity.
Qed.

(** A sum that has reached [NaN] stays there. *)
Lemma sum_from_nan {A : Type} (f : A -> number) l :
  fold_left (fun sum a => sum + f a) l nan = nan.
Proof.
  induction l as [| a l IH]; simpl; [reflexivity |]. now rewrite add_nan_l.
Qed.

Lemma sum_with_nan {A : Type} (f : A -> number) l init a :
  In a l -> is_nan (f a) = true -> fold_left (fun sum a => sum + f a) l init = nan.
Proof.
  intros Hin Hnan. apply is_nan_true in Hnan. revert init.
  induction l as [| b l IH]; intros init; simpl; [destruct Hin |].
  destruct Hin as [-> | Hin].
  - rewrite Hnan, add_nan_r. apply sum_from_nan.
  - now apply IH.
Qed.

(** *** The length of an array

    Within the limit of the language, below [2 ^ 32], it is a positive
    number or zero. *)
Lemma of_length_spec n :
  (0 < Z.of_nat n < 2 ^ 32)%Z ->
  Prim2SF (of_length n) = binary_round FloatOps.prec emax false (Z.to_pos (Z.of_nat n)) 0.
Proof.
  intros Hn. unfold of_length. rewrite FloatAxioms.of_uint63_spec, Uint63.of_Z_spec.
  rewrite Z.mod_small by (change Uint63Axioms.wB with (2 ^ 63)%Z; lia).
  destruct (Z.of_nat n) as [| p | p]; try lia. reflexivity.
Qed.

Lemma of_length_positive n :
  (0 < Z.of_nat n < 2 ^ 32)%Z -> signed_result false (Prim2SF (of_length n)).
Proof.
  intros Hn. rewrite of_length_spec by assumption. apply binary_round_pos.
  unfold emin64. lia.
Qed.

Lemma of_length_finite n :
  (0 < Z.of_nat n < 2 ^ 32)%Z ->
  exists m e, Prim2SF (of_length n) = S754_finite false m e.
Proof.
  intros Hn. pose proof (of_length_positive n Hn) as Hs.
  rewrite of_length_spec in * by assumption.
  set (p := Z.to_pos (Z.of_nat n)) in *.
  assert (Hp : (0 < Zpos p < 2 ^ 32)%Z) by (unfold p; rewrite Z2Pos.id; lia).
  pose proof (binary_round_rounds false p 0 (-1074) ltac:(lia) ltac:(lia)) as Hr.
  inversion Hs as [m e Hm | Hinf]; [now exists m, e |].
  exfalso. rewrite <- Hinf in Hr. inversion Hr as [| | Hbig].
  revert Hbig. unfold rounded, cexp.
  change (0 - -1074)%Z with 1074%Z. change (1024 - -1074)%Z with 2098%Z.
  set (N := (Zpos p * 2 ^ 1074)%Z).
  assert (HN : (0 < N < 2 ^ 1106)%Z).
  { unfold N. change (2 ^ 1106)%Z with (2 ^ 32 * 2 ^ 1074)%Z.
    assert (0 < 2 ^ 1074)%Z by (apply Z.pow_pos_nonneg; lia). nia. }
  pose proof (Zdigits2_bounds N ltac:(lia)) as [Lo Hi].
  pose proof (Zdigits2_pos N ltac:(lia)) as Hd.
  assert (Hd2 : (Zdigits2 N <= 1106)%Z).
  { destruct (Z.le_gt_cases (Zdigits2 N) 1106) as [H | H]; [exact H | exfalso].
    assert (2 ^ 1106 <= 2 ^ (Zdigits2 N - 1))%Z by (apply Z.pow_le_mono_r; lia). lia. }
  set (k := (Z.max (Zdigits2 N + -1074 - 53) (-1074) - -1074)%Z).
  assert (Hk : (0 <= k <= 1106)%Z) by (unfold k; lia).
  assert (HP : (0 < 2 ^ k)%Z) by (apply Z.pow_pos_nonneg; lia).
  assert (HP2 : (2 ^ k <= 2 ^ 1106)%Z) by (apply Z.pow_le_mono_r; lia).
  pose proof (rne_bounds N k ltac:(lia) ltac:(lia)) as [_ Hb].
  pose proof (Z.mul_div_le N (2 ^ k) HP) as Hdiv.
  assert (2 ^ 1106 + 2 ^ 1106 < 2 ^ 2098)%Z by reflexivity.
  nia.
Qed.

(** *** Quotients *)

Lemma div_pzero x : signed_result false (Prim2SF x) -> 0 / x = 0.
Proof.
  intros H. apply of_spec. rewrite FloatAxioms.div_spec.
  change (Prim2SF 0) with (S754_zero false). now destruct H.
Qed.

Lemma div_eucl_pair a b : Z.div_eucl a b = ((a / b)%Z, (a mod b)%Z).
Proof. unfold Z.div, Z.modulo. now destruct (Z.div_eucl a b). Qed.

(** A number that is neither zero, nor infinite, nor [NaN], divided by
    itself, is 1. *)
Lemma div_self x : finite_nonzero x -> x / x = 1.
Proof.
  intros (s & m & e & Hx). apply of_spec. rewrite FloatAxioms.div_spec, Hx.
  unfold SF64div, SFdiv, SFdiv_core_binary.
  replace (Zdigits2 (Zpos m) + e - (Zdigits2 (Zpos m) + e))%Z with 0%Z by lia.
  replace (e - e)%Z with 0%Z by lia.
  change (0 - Z.min (fexp FloatOps.prec emax 0) 0)%Z with 53%Z.
  change (Z.min (fexp FloatOps.prec emax 0) 0) with (-53)%Z.
  cbv iota. rewrite Z.shiftl_mul_pow2 by lia.
  rewrite div_eucl_pair, Z.mul_comm, Z.div_mul, Z.mod_mul by lia.
  assert (Hl : new_location (Zpos m) 0 = loc_Exact).
  { unfold new_location, new_location_even, new_location_odd.
    now destruct (Z.even (Zpos m)). }
  rewrite Hl. now destruct s.
Qed.

(** *** The square of a difference *)

Lemma binary_round_aux_opp s m e l :
  binary_round_aux FloatOps.prec emax (negb s) m e l =
  SFopp (binary_round_aux FloatOps.prec emax s m e l).
Proof.
  unfold binary_round_aux.
  destruct (shr_fexp FloatOps.prec emax m e l) as [mrs' e'].
  destruct (shr_fexp FloatOps.prec emax _ e' loc_Exact) as [mrs'' e''].
  destruct (shr_m mrs''); try reflexivity.
  now destruct (e'' <=? emax - FloatOps.prec)%Z.
Qed.

Lemma binary_round_opp s m e :
  binary_round FloatOps.prec emax (negb s) m e = SFopp (binary_round FloatOps.prec emax s m e).
Proof.
  unfold binary_round.
  destruct (shl_align m e _) as [mz ez]. apply binary_round_aux_opp.
Qed.

Lemma binary_normalize_opp D e :
  binary_normalize FloatOps.prec emax (- D) e false =
    SFopp (binary_normalize FloatOps.prec emax D e false) \/
  (binary_normalize FloatOps.prec emax (- D) e false = S754_zero false /\
   binary_normalize FloatOps.prec emax D e false = S754_zero false).
Proof.
  destruct D as [| p | p]; simpl.
  - right. split; reflexivity.
  - left. apply (binary_round_opp false).
  - left. apply (binary_round_opp true).
Qed.

Lemma SFsub_opposite a b : opposite (SF64sub a b) (SF64sub b a).
Proof.
  unfold opposite.
  destruct a as [sa | sa | | sa ma ea], b as [sb | sb | | sb mb eb];
    try (left; reflexivity);
    try (destruct sa, sb; (left; reflexivity) || (right; eexists; eexists; split; reflexivity)).
  unfold SF64sub, SFsub. rewrite (Z.min_comm eb ea).
  set (ez := Z.min ea eb).
  set (A := cond_Zopp sa (Zpos (fst (shl_align ma ea ez)))).
  set (B := cond_Zopp sb (Zpos (fst (shl_align mb eb ez)))).
  replace (B - A)%Z with (- (A - B))%Z by lia.
  destruct (binary_normalize_opp (A - B) ez) as [H | [H1 H2]].
  - now left.
  - right. rewrite H1, H2. eexists; eexists; split; reflexivity.
Qed.

Lemma SFmul_opposite r r' : opposite r r' -> SF64mul r r = SF64mul r' r'.
Proof.
  intros [-> | (s & s' & -> & ->)].
  - destruct r as [[] | [] | | [] m e]; reflexivity.
  - now destruct s, s'.
Qed.

Lemma pow2_sub_sym a b : Math_pow2 (a - b) = Math_pow2 (b - a).
Proof.
  unfold Math_pow2. apply of_spec. rewrite !FloatAxioms.mul_spec, !FloatAxioms.sub_spec.
  apply SFmul_opposite, SFsub_opposite.
Qed.

(** *** [Math.min] and [Math.max] *)

Lemma is_neg_zero_eq x : is_neg_zero x = true -> x = neg_zero.
Proof.
  unfold is_neg_zero. rewrite FloatAxioms.classify_spec. intros H. apply of_spec.
  change (Prim2SF neg_zero) with (S754_zero true).
  destruct (Prim2SF x) as [[] | [] | | [] m e]; try discriminate H; try reflexivity;
    unfold SF64classify, SFclassify in H;
    destruct (Zpos (digits2_pos m) =? FloatOps.prec)%Z; discriminate H.
Qed.

Lemma is_pos_zero_eq x : is_pos_zero x = true -> x = 0.
Proof.
  unfold is_pos_zero. rewrite FloatAxioms.classify_spec. intros H. apply of_spec.
  change (Prim2SF 0) with (S754_zero false).
  destruct (Prim2SF x) as [[] | [] | | [] m e]; try discriminate H; try reflexivity;
    unfold SF64classify, SFclassify in H;
    destruct (Zpos (digits2_pos m) =? FloatOps.prec)%Z; discriminate H.
Qed.

Lemma leb_refl x : is_nan x = false -> (x <=? x) = true.
Proof.
  unfold is_nan. rewrite FloatAxioms.leb_spec, FloatAxioms.eqb_spec.
  generalize (Prim2SF x). intros a. unfold SFleb, SFeqb.
  destruct a as [[] | [] | | [] m e]; simpl; try reflexivity; try discriminate;
    rewrite Z.compare_refl, Pos.compare_cont_refl; reflexivity.
Qed.

Lemma not_ltb_leb x y :
  is_nan x = false -> is_nan y = false -> (x <? y) = false -> (y <=? x) = true.
Proof.
  intros Hx Hy H. destruct (not_ltb_cases x y Hx Hy H) as [H1 | H1].
  - now apply ltb_leb.
  - now apply eqb_leb.
Qed.

Lemma min_step_spec lowest x :
  is_nan lowest = false -> is_nan x = false ->
  (min_step lowest x = lowest \/ min_step lowest x = x) /\
  is_nan (min_step lowest x) = false /\
  (min_step lowest x <=? lowest) = true /\
  (min_step lowest x <=? x) = true.
Proof.
  intros Hl Hx. unfold min_step.
  destruct (is_neg_zero x && is_pos_zero lowest) eqn:Ez.
  - apply andb_prop in Ez. destruct Ez as [E1 E2].
    apply is_neg_zero_eq in E1. apply is_pos_zero_eq in E2. subst. simpl.
    repeat split; auto.
  - destruct (x <? lowest) eqn:E.
    + repeat split; auto. now apply ltb_leb. now apply leb_refl.
    + repeat split; auto. now apply leb_refl. now apply not_ltb_leb.
Qed.

Lemma min_loop_spec values : forall lowest,
  is_nan lowest = false ->
  Forall (fun x => is_nan x = false) values ->
  (min_loop lowest values = lowest \/ In (min_loop lowest values) values) /\
  is_nan (min_loop lowest values) = false /\
  (min_loop lowest values <=? lowest) = true /\
  Forall (fun x => (min_loop lowest values <=? x) = true) values.
Proof.
  induction values as [| x rest IH]; intros lowest Hl Hv; simpl.
  - repeat split; auto. now apply leb_refl.
  - inversion Hv as [| ? ? Hx Hrest]; subst. rewrite Hx.
    fold (min_step lowest x).
    destruct (min_step_spec lowest x Hl Hx) as (Hc & Hn & H1 & H2).
    destruct (IH (min_step lowest x) Hn Hrest) as (Hc' & Hn' & H1' & H2').
    repeat split.
    + destruct Hc' as [Hc' | Hc']; [| right; now right].
      rewrite Hc'. destruct Hc as [Hc | Hc]; [now left | right; now left].
    + assumption.
    + eapply leb_trans; eassumption.
    + constructor; [eapply leb_trans; eassumption | assumption].
Qed.

Lemma not_ltb_infinity x : is_nan x = false -> (x <? infinity) = false -> x = infinity.
Proof.
  intros Hn H. apply of_spec. change (Prim2SF infinity) with (S754_infinity false).
  revert Hn H. unfold is_nan. rewrite FloatAxioms.ltb_spec, FloatAxioms.eqb_spec.
  change (Prim2SF infinity) with (S754_infinity false).
  destruct (Prim2SF x) as [[] | [] | | [] m e]; try discriminate; reflexivity.
Qed.

(** [Math.min] of numbers, none of them [NaN] and at least one: a
    lower bound of them that is one of them. *)
Lemma Math_min_spec values :
  values <> [] ->
  Forall (fun x => is_nan x = false) values ->
  In (Math_min values) values /\
  Forall (fun x => (Math_min values <=? x) = true) values.
Proof.
  intros Hne Hv. unfold Math_min.
  destruct (min_loop_spec values infinity eq_refl Hv) as (Hc & Hn & H1 & H2).
  split; [| assumption].
  destruct Hc as [Hc | Hc]; [| assumption].
  destruct values as [| x rest]; [contradiction |].
  inversion Hv as [| ? ? Hx _]; subst. inversion H2 as [| ? ? Hle _]; subst.
  rewrite Hc in Hle |- *. left.
  apply not_ltb_infinity; [assumption |].
  destruct (x <? infinity) eqn:E; [| reflexivity].
  revert Hle E. to_spec. sf_order.
Qed.

Lemma max_step_spec highest x :
  is_nan highest = false -> is_nan x = false ->
  (max_step highest x = highest \/ max_step highest x = x) /\
  is_nan (max_step highest x) = false /\
  (highest <=? max_step highest x) = true /\
  (x <=? max_step highest x) = true.
Proof.
  intros Hl Hx. unfold max_step.
  destruct (is_pos_zero x && is_neg_zero highest) eqn:Ez.
  - apply andb_prop in Ez. destruct Ez as [E1 E2].
    apply is_pos_zero_eq in E1. apply is_neg_zero_eq in E2. subst. simpl.
    repeat split; auto.
  - destruct (highest <? x) eqn:E.
    + repeat split; auto. now apply ltb_leb. now apply leb_refl.
    + repeat split; auto. now apply leb_refl. now apply not_ltb_leb.
Qed.

Lemma max_loop_spec values : forall highest,
  is_nan highest = false ->
  Forall (fun x => is_nan x = false) values ->
  (max_loop highest values = highest \/ In (max_loop highest values) values) /\
  is_nan (max_loop highest values) = false /\
  (highest <=? max_loop highest values) = true /\
  Forall (fun x => (x <=? max_loop highest values) = true) values.
Proof.
  induction values as [| x rest IH]; intros highest Hl Hv; simpl.
  - repeat split; auto. now apply leb_refl.
  - inversion Hv as [| ? ? Hx Hrest]; subst. rewrite Hx.
    fold (max_step highest x).
    destruct (max_step_spec highest x Hl Hx) as (Hc & Hn & H1 & H2).
    destruct (IH (max_step highest x) Hn Hrest) as (Hc' & Hn' & H1' & H2').
    repeat split.
    + destruct Hc' as [Hc' | Hc']; [| right; now right].
      rewrite Hc'. destruct Hc as [Hc | Hc]; [now left | right; now left].
    + assumption.
    + eapply leb_trans; eassumption.
    + constructor; [eapply leb_trans; eassumption | assumption].
Qed.

Lemma not_gtb_neg_infinity x :
  is_nan x = false -> (neg_infinity <? x) = false -> x = neg_infinity.
Proof.
  intros Hn H. apply of_spec. change (Prim2SF neg_infinity) with (S754_infinity true).
  revert Hn H. unfold is_nan. rewrite FloatAxioms.ltb_spec, FloatAxioms.eqb_spec.
  change (Prim2SF neg_infinity) with (S754_infinity true).
  destruct (Prim2SF x) as [[] | [] | | [] m e]; try discriminate; reflexivity.
Qed.

(** [Math.max] of numbers, none of them [NaN] and at least one: an
    upper bound of them that is one of them. *)
Lemma Math_max_spec values :
  values <> [] ->
  Forall (fun x => is_nan x = false) values ->
  In (Math_max values) values /\
  Forall (fun x => (x <=? Math_max values) = true) values.
Proof.
  intros Hne Hv. unfold Math_max.
  destruct (max_loop_spec values neg_infinity eq_refl Hv) as (Hc & Hn & H1 & H2).
  split; [| assumption].
  destruct Hc as [Hc | Hc]; [| assumption].
  destruct values as [| x rest]; [contradiction |].
  inversion Hv as [| ? ? Hx _]; subst. inversion H2 as [| ? ? Hle _]; subst.
  rewrite Hc in Hle |- *. left.
  apply not_gtb_neg_infinity; [assumption |].
  destruct (neg_infinity <? x) eqn:E; [| reflexivity].
  revert Hle E. to_spec. sf_order.
Qed.

(** *** Order *)

Lemma eqb_sym x y : (x =? y) = (y =? x).
Proof.
  rewrite !FloatAxioms.eqb_spec. generalize (Prim2SF x) (Prim2SF y). intros a b.
  sf_order.
Qed.

Lemma leb_contradiction a b : (0.9 <=? a) = true -> (b <=? 0.5) = true -> (a <=? b) = false.
Proof.
  intros H1 H2. destruct (a <=? b) eqn:E; [| reflexivity].
  pose proof (leb_trans _ _ _ (leb_trans _ _ _ H1 E) H2) as H. discriminate H.
Qed.

(** *** Signs *)

Lemma binary_round_aux_unsigned m e l :
  unsigned (binary_round_aux FloatOps.prec emax false m e l).
Proof.
  unfold binary_round_aux.
  destruct (shr_fexp FloatOps.prec emax m e l) as [mrs' e'].
  destruct (shr_fexp FloatOps.prec emax _ e' loc_Exact) as [mrs'' e''].
  destruct (shr_m mrs''); try exact I; try reflexivity.
  now destruct (e'' <=? emax - FloatOps.prec)%Z.
Qed.

Lemma binary_round_unsigned m e : unsigned (binary_round FloatOps.prec emax false m e).
Proof.
  unfold binary_round. destruct (shl_align m e _) as [mz ez].
  apply binary_round_aux_unsigned.
Qed.

Lemma abs_unsigned x : unsigned (Prim2SF (Math_abs x)).
Proof.
  unfold Math_abs. rewrite FloatAxioms.abs_spec.
  destruct (Prim2SF x) as [[] | [] | | [] m e]; try reflexivity; exact I.
Qed.

Lemma pow2_unsigned x : unsigned (Prim2SF (Math_pow2 x)).
Proof.
  unfold Math_pow2. rewrite FloatAxioms.mul_spec.
  destruct (Prim2SF x) as [[] | [] | | [] m e]; try reflexivity; try exact I;
    apply binary_round_aux_unsigned.
Qed.

Lemma add_unsigned x y :
  unsigned (Prim2SF x) -> unsigned (Prim2SF y) -> unsigned (Prim2SF (x + y)).
Proof.
  rewrite FloatAxioms.add_spec.
  destruct (Prim2SF x) as [sx | sx | | sx mx ex], (Prim2SF y) as [sy | sy | | sy my ey];
    simpl unsigned; intros Hx Hy; subst; try reflexivity; try exact I.
  unfold SF64add, SFadd. cbn [cond_Zopp].
  apply binary_round_unsigned.
Qed.

Lemma div_unsigned x y :
  unsigned (Prim2SF x) -> unsigned (Prim2SF y) -> unsigned (Prim2SF (x / y)).
Proof.
  rewrite FloatAxioms.div_spec.
  destruct (Prim2SF x) as [sx | sx | | sx mx ex], (Prim2SF y) as [sy | sy | | sy my ey];
    simpl unsigned; intros Hx Hy; subst; try reflexivity; try exact I.
  unfold SF64div, SFdiv.
  destruct (SFdiv_core_binary _ _ _ _ _ _) as [[mz ez] lz].
  apply binary_round_aux_unsigned.
Qed.

Lemma sqrt_unsigned x : unsigned (Prim2SF x) -> unsigned (Prim2SF (Math_sqrt x)).
Proof.
  unfold Math_sqrt. rewrite FloatAxioms.sqrt_spec.
  destruct (Prim2SF x) as [sx | sx | | sx mx ex]; simpl unsigned; intros Hx; subst;
    try reflexivity; try exact I.
  unfold SF64sqrt, SFsqrt.
  destruct (SFsqrt_core_binary _ _ _ _) as [[mz ez] lz].
  apply binary_round_aux_unsigned.
Qed.

Lemma of_length_unsigned n : unsigned (Prim2SF (of_length n)).
Proof.
  unfold of_length. rewrite FloatAxioms.of_uint63_spec.
  pose proof (Uint63.to_Z_bounded (Uint63.of_Z (Z.of_nat n))) as [H _].
  destruct (Uint63.to_Z _) as [| p | p]; try lia; [reflexivity |].
  apply binary_round_unsigned.
Qed.

Lemma sum_unsigned {A : Type} (f : A -> number) l init :
  (forall a, unsigned (Prim2SF (f a))) -> unsigned (Prim2SF init) ->
  unsigned (Prim2SF (fold_left (fun sum a => sum + f a) l init)).
Proof.
  intros Hf. revert init. induction l as [| a l IH]; intros init Hi; [exact Hi |].
  simpl. apply IH. now apply add_unsigned.
Qed.

Lemma unsigned_not_negative x :
  unsigned (Prim2SF x) -> (x <? 0) = false /\ is_neg_zero x = false.
Proof.
  unfold is_neg_zero. rewrite FloatAxioms.ltb_spec, FloatAxioms.classify_spec.
  change (Prim2SF 0) with (S754_zero false).
  destruct (Prim2SF x) as [s | s | | s m e]; simpl unsigned; intros H; subst;
    split; try reflexivity.
  unfold SF64classify, SFclassify. now destruct (Zpos (digits2_pos m) =? FloatOps.prec)%Z.
Qed.

End NumberFacts.

(** ** Arrays *)

Section ListFacts.

Context {A : Type}.

Lemma filter_all_true (f : A -> bool) xs :
  (forall x, In x xs -> f x = true) -> filter f xs = xs.
Proof.
  induction xs as [| x xs IH]; intros H; simpl; [reflexivity |].
  rewrite (H x (or_introl eq_refl)). f_equal. apply IH. intros y Hy. apply H. now right.
Qed.

Lemma StronglySorted_app_inv (R : A -> A -> Prop) l1 l2 :
  StronglySorted R (l1 ++ l2) -> forall a b, In a l1 -> In b l2 -> R a b.
Proof.
  induction l1 as [| x l1 IH]; simpl; intros Hs a b Ha Hb; [destruct Ha |].
  inversion Hs as [| ? ? Hs' Hx]; subst. destruct Ha as [<- | Ha].
  - rewrite Forall_forall in Hx. apply Hx, in_or_app. now right.
  - now apply IH.
Qed.

Lemma sorted_partition (R : A -> A -> Prop) (P : A -> bool) l :
  (forall a b, In a l -> In b l -> P a = false -> P b = true -> ~ R a b) ->
  StronglySorted R l ->
  l = filter P l ++ filter (fun a => negb (P a)) l.
Proof.
  intros HR Hs. induction Hs as [| x l Hs IH Hx]; [reflexivity |].
  assert (IH' : l = filter P l ++ filter (fun a => negb (P a)) l).
  { apply IH. intros a b Ha Hb. apply HR; now right. }
  simpl. destruct (P x) eqn:Ex; simpl.
  - now rewrite <- IH'.
  - assert (Hall : forall y, In y l -> P y = false).
    { intros y Hy. destruct (P y) eqn:Ey; [| reflexivity].
      exfalso. rewrite Forall_forall in Hx.
      exact (HR x y (or_introl eq_refl) (or_intror Hy) Ex Ey (Hx y Hy)). }
    rewrite (filter_all_false P l Hall). simpl. f_equal.
    symmetry. apply filter_all_true. intros y Hy. now rewrite (Hall y Hy).
Qed.

Lemma Permutation_filter_length (f : A -> bool) l1 l2 :
  Permutation l1 l2 -> length (filter f l1) = length (filter f l2).
Proof.
  induction 1 as [| x l1 l2 H IH | x y l | l1 l2 l3 H1 IH1 H2 IH2]; simpl.
  - reflexivity.
  - destruct (f x); simpl; now rewrite IH.
  - destruct (f x), (f y); reflexivity.
  - now rewrite IH1.
Qed.

Lemma StronglySorted_middle (R : A -> A -> Prop) l1 x l2 :
  StronglySorted R (l1 ++ x :: l2) ->
  Forall (fun a => R a x) l1 /\ Forall (fun b => R x b) l2.
Proof.
  induction l1 as [| y l1 IH]; simpl; intros Hs.
  - inversion Hs; subst. split; [constructor | assumption].
  - inversion Hs as [| ? ? Hs' Hy]; subst. destruct (IH Hs') as [H1 H2].
    split; [| assumption]. constructor; [| assumption].
    rewrite Forall_forall in Hy. apply Hy, in_or_app. right. now left.
Qed.

Lemma filter_length_lt (f : A -> bool) l x :
  In x l -> f x = false -> (length (filter f l) < length l)%nat.
Proof.
  induction l as [| y l IH]; intros Hin Hf; [destruct Hin |].
  simpl. destruct Hin as [-> | Hin].
  - rewrite Hf. pose proof (filter_length_le f l). lia.
  - specialize (IH Hin Hf). destruct (f y); simpl; lia.
Qed.

Lemma nodup_length_bounds (dec : forall x y : A, {x = y} + {x <> y}) (l : list A) :
  l <> [] -> (1 <= length (nodup dec l) <= length l)%nat.
Proof.
  intros Hne. split.
  - destruct l as [| x l]; [contradiction |].
    assert (Hin : In x (nodup dec (x :: l))) by (apply nodup_In; now left).
    destruct (nodup dec (x :: l)); [destruct Hin | simpl; lia].
  - clear Hne. induction l as [| x l IH]; simpl; [lia |].
    destruct (in_dec dec x l); simpl; lia.
Qed.

End ListFacts.

(** ** The ascending sort *)

Section AscendingSort.

Import FloatFacts NumberFacts.

Local Abbreviation byValue := (fun a b : number => a - b).

Lemma sort_insert_ascending x l :
  is_nan x = false ->
  Forall (fun a => is_nan a = false) l ->
  ascending l -> ascending (sort_insert byValue x l).
Proof.
  intros Hx Hnan Hs. induction Hs as [| y l Hs IH Hy]; simpl.
  - constructor; constructor.
  - rewrite sub_positive.
    inversion Hnan as [| ? ? Hny Hnl]; subst.
    destruct (y <? x) eqn:E.
    + constructor; [now apply IH |].
      apply (Permutation_Forall (Permutation_sym (sort_insert_perm byValue x l))).
      constructor; [now apply ltb_leb | assumption].
    + assert (Hxy : (x <=? y) = true) by now apply not_ltb_leb.
      constructor; [now constructor |].
      constructor; [assumption |].
      rewrite Forall_forall in Hy |- *. intros z Hz.
      eapply leb_trans; [exact Hxy | now apply Hy].
Qed.

Lemma sort_ascending l :
  Forall (fun a => is_nan a = false) l -> ascending (sort byValue l).
Proof.
  intros Hnan. induction l as [| x l IH]; simpl; [constructor |].
  inversion Hnan as [| ? ? Hnx Hnl]; subst.
  apply sort_insert_ascending; try assumption.
  - apply (Permutation_Forall (Permutation_sym (sort_perm byValue l))). assumption.
  - now apply IH.
Qed.

(** In an ascending array, the entry at index [k] has at least [k + 1]
    entries at most as large and at least [length - k] at least as large. *)
Lemma ascending_position l k m :
  Forall (fun x => is_nan x = false) l -> ascending l -> nth_error l k = Some m ->
  (k + 1 <= length (filter (fun x => (x <=? m)%float) l))%nat /\
  (length l - k <= length (filter (fun x => (m <=? x)%float) l))%nat.
Proof.
  intros Hnan Hs Hk.
  pose proof (firstn_skipn_middle k l Hk) as Hsplit.
  assert (Hklt : (k < length l)%nat) by (apply nth_error_Some; congruence).
  assert (Hm : is_nan m = false).
  { rewrite Forall_forall in Hnan. apply Hnan. eapply nth_error_In, Hk. }
  rewrite <- Hsplit in Hs. apply StronglySorted_middle in Hs. destruct Hs as [H1 H2].
  rewrite <- Hsplit at 1 3. rewrite !filter_app, !length_app. cbn [filter].
  rewrite (leb_refl m Hm). cbn [length].
  split.
  - rewrite (filter_all_true _ (firstn k l)).
    + rewrite length_firstn. lia.
    + intros x Hx. rewrite Forall_forall in H1. now apply H1.
  - rewrite (filter_all_true (fun x => m <=? x) (skipn (S k) l)).
    + rewrite length_skipn. lia.
    + intros x Hx. rewrite Forall_forall in H2. now apply H2.
Qed.

End AscendingSort.

(** ** Strings *)

Section StringFacts.

Lemma append_nil_r s : (s ++ "")%string = s.
Proof. induction s as [| a s IH]; simpl; [reflexivity | now rewrite IH]. Qed.

Lemma occurs_app c s1 s2 : occurs c (s1 ++ s2) = occurs c s1 || occurs c s2.
Proof.
  induction s1 as [| a s1 IH]; simpl; [reflexivity |].
  rewrite IH. now rewrite orb_assoc.
Qed.

Lemma occurs_join c separator xs :
  occurs c separator = false ->
  Forall (fun x => occurs c x = false) xs ->
  occurs c (join separator xs) = false.
Proof.
  intros Hsep Hxs. unfold join. induction Hxs as [| x xs Hx Hxs IH]; [reflexivity |].
  destruct xs as [| y ys]; [exact Hx |].
  change (String.concat separator (x :: y :: ys))
    with (x ++ separator ++ String.concat separator (y :: ys))%string.
  rewrite !occurs_app, Hx, Hsep. simpl orb. exact IH.
Qed.

Lemma join_records separator x xs :
  join separator (x :: xs) = (x ++ records separator xs)%string.
Proof.
  unfold join, records. revert x. induction xs as [| y ys IH]; intros x.
  - simpl. now rewrite append_nil_r.
  - change (String.concat separator (x :: y :: ys))
      with (x ++ separator ++ String.concat separator (y :: ys))%string.
    now rewrite IH.
Qed.

Lemma string_of_uint_digits c d :
  (forall k, (k < 10)%nat -> ascii_of_nat (48 + k) <> c) ->
  occurs c (NilEmpty.string_of_uint d) = false.
Proof.
  intros Hc. induction d; cbn [NilEmpty.string_of_uint occurs]; try reflexivity;
    rewrite IHd, orb_false_r; apply Ascii.eqb_neq.
  - apply (Hc 0%nat); lia.
  - apply (Hc 1%nat); lia.
  - apply (Hc 2%nat); lia.
  - apply (Hc 3%nat); lia.
  - apply (Hc 4%nat); lia.
  - apply (Hc 5%nat); lia.
  - apply (Hc 6%nat); lia.
  - apply (Hc 7%nat); lia.
  - apply (Hc 8%nat); lia.
  - apply (Hc 9%nat); lia.
Qed.

Lemma show_nat_line_feed n : occurs line_feed (show_nat n) = false.
Proof.
  apply string_of_uint_digits. intros k Hk.
  do 10 (destruct k as [| k]; [discriminate |]). lia.
Qed.

End StringFacts.

(** * The detection panel, beyond the specification *)

(** ** The statistics card *)

Lemma dataStats_nonempty data :
  data <> [] ->
  dataStats data =
  Some {| precStats :=
            {| mean := precMean data;
               std := precStd data;
               median :=
                 nth_error (sort (fun a b => a - b) (map (fun d => prec d) data))
                   (Nat.div (length (sort (fun a b => a - b) (map (fun d => prec d) data))) 2)
            |} |}.
Proof. destruct data; [contradiction | reflexivity]. Qed.

(** X1.  The statistics card has no statistics exactly for an empty
    dataset.  Otherwise the mean and the standard deviation it shows
    are the two constants of the screening: the z-score of every
    observation is its distance from the card's mean in units of the
    card's standard deviation, and the observation is flagged when
    that exceeds the threshold. *)
Theorem statistics_card_matches_screening (config : DetectionConfig) (data : list ClimateData) :
  match dataStats data with
  | None => data = []
  | Some card =>
      data <> [] /\
      mean (precStats card) = precMean data /\
      std (precStats card) = precStd data /\
      forall p,
        In p (detectMagnitudeOutliers config data) ->
        zScore p =
          Math_abs (prec p - mean (precStats card)) / std (precStats card) /\
        isOutlier p =
          (zScoreThreshold config <?
           Math_abs (prec p - mean (precStats card)) / std (precStats card))
  end.
Proof.
  destruct data as [| d0 l0] eqn:Ed; [reflexivity |]. rewrite <- Ed.
  assert (Hne : data <> []) by (rewrite Ed; discriminate). clear Ed d0 l0.
  rewrite dataStats_nonempty by assumption. cbn [precStats mean std].
  split; [assumption | split; [reflexivity | split; [reflexivity |]]].
  intros p Hp. apply detectMagnitudeOutliers_In in Hp.
  destruct Hp as (d & k & _ & _ & Hd & _ & Hz & Ho). rewrite Hd.
  split; [exact Hz | now rewrite Ho, Hz].
Qed.

(** X2.  For a dataset that is not empty the median of the card is
    never undefined: it is the precipitation of one of the
    observations.  When no precipitation is [NaN] it is the upper
    median: more than half of the observations have at most that
    much precipitation and at least half have at least that much.
    For an even number of observations it is the larger of the two
    middle values, not their mean. *)
Theorem statistics_card_median (data : list ClimateData) :
  match dataStats data with
  | None => data = []
  | Some card =>
      exists m,
        median (precStats card) = Some m /\
        In m (map (fun d => prec d) data) /\
        (Forall (fun d => is_nan (prec d) = false) data ->
         (length data < 2 * length (filter (fun d => (prec d <=? m)%float) data))%nat /\
         (length data <= 2 * length (filter (fun d => (m <=? prec d)%float) data))%nat)
  end.
Proof.
  destruct data as [| d0 l0] eqn:Ed; [reflexivity |]. rewrite <- Ed.
  assert (Hne : data <> []) by (rewrite Ed; discriminate). clear Ed d0 l0.
  rewrite dataStats_nonempty by assumption. cbn [precStats median].
  set (precs := map (fun d => prec d) data).
  match goal with |- context [nth_error ?s _] => set (sortedPrec := s) end.
  assert (Hperm : Permutation sortedPrec precs) by apply sort_perm.
  assert (Hlen : length sortedPrec = length data).
  { rewrite (Permutation_length Hperm). apply length_map. }
  assert (Hpos : (0 < length data)%nat) by (destruct data; [contradiction | simpl; lia]).
  assert (Hk : (length sortedPrec / 2 < length sortedPrec)%nat).
  { rewrite Hlen. apply Nat.div_lt; lia. }
  destruct (nth_error sortedPrec (length sortedPrec / 2)) as [m |] eqn:Em;
    [| apply nth_error_None in Em; lia].
  exists m. split; [reflexivity | split].
  - apply (Permutation_in _ Hperm). eapply nth_error_In, Em.
  - intros Hv.
    assert (Hnan : Forall (fun x => is_nan x = false) sortedPrec).
    { apply (Permutation_Forall (Permutation_sym Hperm)). apply Forall_map. exact Hv. }
    assert (Hasc : ascending sortedPrec).
    { apply sort_ascending. apply Forall_map. exact Hv. }
    destruct (ascending_position sortedPrec _ m Hnan Hasc Em) as [H1 H2].
    rewrite (Permutation_filter_length _ _ _ Hperm) in H1.
    rewrite (Permutation_filter_length _ _ _ Hperm) in H2.
    unfold precs in H1, H2. rewrite filter_map_swap, length_map in H1, H2.
    rewrite Hlen in H1, H2.
    pose proof (Nat.div_mod_eq (length data) 2) as Hdm.
    pose proof (Nat.mod_upper_bound (length data) 2 ltac:(lia)) as Hmod.
    lia.
Qed.

Lemma statistics_card_median_witness :
  exists card m,
    dataStats stationSeries = Some card /\
    median (precStats card) = Some m /\
    (length stationSeries <
     2 * length (filter (fun d => (prec d <=? m)%float) stationSeries))%nat.
Proof.
  pose proof (statistics_card_median stationSeries) as H.
  destruct (dataStats stationSeries) as [card |]; [| discriminate H].
  destruct H as (m & Hm & _ & Hcount).
  exists card, m. split; [reflexivity | split; [exact Hm |]].
  apply Hcount. repeat constructor.
Defined.

(** ** The neighbour relation *)

Section NeighbourFacts.

Import FloatFacts NumberFacts.

Lemma sameCoordinates_sym p q : sameCoordinates p q = sameCoordinates q p.
Proof. unfold sameCoordinates. now rewrite (eqb_sym (lat p)), (eqb_sym (lon p)). Qed.

Lemma distance_sym p q : distance p q = distance q p.
Proof.
  unfold distance.
  now rewrite (pow2_sub_sym (lat p)), (pow2_sub_sym (lon p)).
Qed.

(** A point with a [NaN] coordinate is at distance [NaN] from itself. *)
Lemma distance_self_nan p : sameCoordinates p p = false -> distance p p = nan.
Proof.
  unfold sameCoordinates, distance. intros H. apply andb_false_iff in H.
  destruct H as [H | H].
  - assert (Hn : lat p = nan) by (apply is_nan_true; unfold is_nan; now rewrite H).
    rewrite Hn, sub_nan_l. unfold Math_pow2 at 1.
    change (nan * nan) with nan. now rewrite add_nan_l.
  - assert (Hn : lon p = nan) by (apply is_nan_true; unfold is_nan; now rewrite H).
    rewrite Hn, sub_nan_l. unfold Math_pow2 at 2.
    change (nan * nan) with nan. now rewrite add_nan_r.
Qed.

Lemma findNeighbors_length_lt config p data :
  In p data -> (length (findNeighbors config p data) < length data)%nat.
Proof.
  intros Hin. rewrite findNeighbors_filter. apply (filter_length_lt _ _ p Hin).
  destruct (sameCoordinates p p) eqn:E; [reflexivity |].
  rewrite (distance_self_nan p E), leb_nan_l. reflexivity.
Qed.

End NeighbourFacts.

(** X3.  Being a neighbour is symmetric and irreflexive: of two
    observations of a dataset each is among the neighbours of the
    other or neither is, and no observation is its own neighbour,
    not even one whose coordinates are [NaN] and so differ from
    themselves.  The distance between two observations is the same
    number in both directions. *)
Theorem neighbours_symmetric_irreflexive
    (config : DetectionConfig) (data : list ClimateData) (p q : ClimateData) :
  In p data -> In q data ->
  (In q (findNeighbors config p data) <-> In p (findNeighbors config q data)) /\
  ~ In p (findNeighbors config p data) /\
  distance p q = distance q p.
Proof.
  intros Hp Hq. split; [| split].
  - rewrite !findNeighbors_In, (sameCoordinates_sym q p), (distance_sym q p). tauto.
  - rewrite findNeighbors_In. intros (_ & Hs & Hd).
    rewrite (distance_self_nan p Hs) in Hd.
    now rewrite NumberFacts.leb_nan_l in Hd.
  - apply distance_sym.
Qed.

Lemma neighbours_symmetric_irreflexive_witness :
  (In (row 29.00 79 1 3 0 0.29) (findNeighbors defaultConfig wetCell breeze) <->
   In wetCell (findNeighbors defaultConfig (row 29.00 79 1 3 0 0.29) breeze)) /\
  ~ In wetCell (findNeighbors defaultConfig wetCell breeze).
Proof.
  destruct (neighbours_symmetric_irreflexive defaultConfig breeze wetCell
              (row 29.00 79 1 3 0 0.29)) as (H1 & H2 & _).
  - right. left. reflexivity.
  - left. reflexivity.
  - split; [exact H1 | exact H2].
Defined.

(** ** The z-score *)

(** X4.  No z-score is negative, and none is negative zero: a z-score
    is positive zero, positive, infinite or [NaN].  The same holds of
    the standard deviation. *)
Theorem zScore_never_negative (config : DetectionConfig) (data : list ClimateData) :
  Forall (fun p => (zScore p <? 0) = false /\ is_neg_zero (zScore p) = false)
    (detectMagnitudeOutliers config data) /\
  (precStd data <? 0) = false /\
  is_neg_zero (precStd data) = false.
Proof.
  assert (Hstd : unsigned (Prim2SF (precStd data))).
  { unfold precStd. apply NumberFacts.sqrt_unsigned, NumberFacts.div_unsigned;
      [| apply NumberFacts.of_length_unsigned].
    unfold reduce.
    apply (NumberFacts.sum_unsigned (fun d => Math_pow2 (prec d - precMean data))).
    - intros d. apply NumberFacts.pow2_unsigned.
    - reflexivity. }
  split; [| now apply NumberFacts.unsigned_not_negative].
  apply Forall_forall. intros p Hp. apply detectMagnitudeOutliers_In in Hp.
  destruct Hp as (d & k & _ & _ & _ & _ & Hz & _). rewrite Hz.
  apply NumberFacts.unsigned_not_negative, NumberFacts.div_unsigned;
    [apply NumberFacts.abs_unsigned | exact Hstd].
Qed.

(** ** The settings that are read *)

(** X5.  A run reads four of the six settings: two configurations
    that agree on the z-score threshold, the radius, the switch of
    the directional check and the minimum number of neighbours give
    the same effects on every dataset.  The MAD threshold and the
    switch of the seasonal decomposition change nothing. *)
Theorem unread_settings_change_nothing
    (Math_cos Math_sin : number -> number) (config config' : DetectionConfig)
    (data : list ClimateData) :
  zScoreThreshold config = zScoreThreshold config' ->
  spatialRadius config = spatialRadius config' ->
  enableDirectionalConsistency config = enableDirectionalConsistency config' ->
  minimumNeighbors config = minimumNeighbors config' ->
  runDetection Math_cos Math_sin config data = runDetection Math_cos Math_sin config' data /\
  detectMagnitudeOutliers config data = detectMagnitudeOutliers config' data.
Proof.
  intros Hz Hr Hd Hm.
  unfold runDetection, sortedAnomalies, validatedAnomalies, candidateAnomalies, validate,
    calculateDirectionalConsistency, findNeighbors, detectMagnitudeOutliers.
  rewrite Hz, Hr, Hd, Hm. split; reflexivity.
Qed.

Lemma unread_settings_change_nothing_witness :
  runDetection cos_sample sin_sample
    (setEnableSeasonalDecomposition defaultConfig false) twoEvents =
  runDetection cos_sample sin_sample defaultConfig twoEvents.
Proof.
  apply (unread_settings_change_nothing cos_sample sin_sample
           (setEnableSeasonalDecomposition defaultConfig false) defaultConfig twoEvents);
    reflexivity.
Defined.

(** ** The delivered list *)

Section DeliveredFacts.

Variables Math_cos Math_sin : number -> number.
Variable config : DetectionConfig.
Variable data : list ClimateData.

Lemma sortedAnomalies_length :
  (length (sortedAnomalies Math_cos Math_sin config data) <= length data)%nat.
Proof.
  rewrite (Permutation_length (sortedAnomalies_perm Math_cos Math_sin config data)).
  rewrite validatedAnomalies_map, length_map. unfold candidateAnomalies.
  rewrite filter_length_le. unfold detectMagnitudeOutliers, mapi.
  now rewrite mapi_from_length.
Qed.

Lemma validate_without_direction c :
  enableDirectionalConsistency config = false ->
  isTrueAnomaly (validate Math_cos Math_sin config data c) = true /\
  directionalConsistency (validate Math_cos Math_sin config data c) = None.
Proof. intros H. unfold validate. rewrite H. split; reflexivity. Qed.

Lemma sortedAnomalies_descending :
  Forall (fun a => is_nan (confidence a) = false)
    (sortedAnomalies Math_cos Math_sin config data) ->
  confidence_descending (sortedAnomalies Math_cos Math_sin config data).
Proof.
  intros Hnan. apply confidence_stable_descending.
  unfold confidence_stable, sortedAnomalies.
  apply (sort_ranked confidence (fun a : Anomaly => index a)).
  - exact (Permutation_Forall (sortedAnomalies_perm Math_cos Math_sin config data) Hnan).
  - apply validatedAnomalies_ranked.
Qed.

Lemma sortedAnomalies_ranked :
  Forall (fun a => is_nan (confidence a) = false)
    (sortedAnomalies Math_cos Math_sin config data) ->
  confidence_descending (sortedAnomalies Math_cos Math_sin config data) /\
  confidence_stable (sortedAnomalies Math_cos Math_sin config data).
Proof.
  intros Hnan.
  assert (Hs : confidence_stable (sortedAnomalies Math_cos Math_sin config data)).
  { unfold confidence_stable, sortedAnomalies.
    apply (sort_ranked confidence (fun a : Anomaly => index a)).
    - exact (Permutation_Forall (sortedAnomalies_perm Math_cos Math_sin config data) Hnan).
    - apply validatedAnomalies_ranked. }
  split; [now apply confidence_stable_descending | exact Hs].
Qed.

End DeliveredFacts.

(** X6.  Every result of a run is an observation of the dataset: at
    the index it carries the dataset has the row it carries, the row
    was flagged, its z-score exceeds the threshold, and its count of
    neighbours is below the number of observations.  There are no
    more results than observations. *)
Theorem anomalies_are_rows
    (Math_cos Math_sin : number -> number) (config : DetectionConfig)
    (data : list ClimateData) (out : list Anomaly) (a : Anomaly) :
  In (onAnomaliesDetected out) (runDetection Math_cos Math_sin config data) ->
  In a out ->
  nth_error data (index a) = Some (point a) /\
  isOutlier a = true /\
  (zScoreThreshold config <? zScore a) = true /\
  (neighbors a < length data)%nat /\
  (length out <= length data)%nat.
Proof.
  intros Hout Ha. apply runDetection_delivers in Hout. destruct Hout as [_ ->].
  apply sortedAnomalies_In in Ha. destruct Ha as (c & Hc & ->).
  rewrite validate_candidate, validate_neighbors.
  unfold candidateAnomalies in Hc. apply filter_In in Hc. destruct Hc as [Hc Ho].
  apply detectMagnitudeOutliers_In in Hc.
  destruct Hc as (d & k & Hd & _ & Hp & Hk & _ & Hz).
  subst d. rewrite Hk. split; [exact Hd | split; [exact Ho | split; [now rewrite <- Hz |]]].
  split; [| apply sortedAnomalies_length].
  apply findNeighbors_length_lt. eapply nth_error_In, Hd.
Qed.

Lemma anomalies_are_rows_witness :
  Forall (fun a : Anomaly =>
            nth_error twoEvents (index a) = Some (point a) /\
            (neighbors a < length twoEvents)%nat)
    (sortedAnomalies cos_sample sin_sample defaultConfig twoEvents).
Proof.
  apply Forall_forall. intros a Ha.
  destruct (anomalies_are_rows cos_sample sin_sample defaultConfig twoEvents
              (sortedAnomalies cos_sample sin_sample defaultConfig twoEvents) a)
    as (H1 & _ & _ & H2 & _).
  - right. left. reflexivity.
  - exact Ha.
  - split; [exact H1 | exact H2].
Defined.

(** X7.  With the directional check enabled, in a run in which every
    directional consistency is a number from -1 on, the true
    anomalies come first: the delivered list is its true anomalies
    followed by its false positives, every true anomaly has
    confidence at least 0.9 and every false positive at most 0.5. *)
Theorem true_anomalies_ranked_first
    (Math_cos Math_sin : number -> number) (config : DetectionConfig)
    (data : list ClimateData) (out : list Anomaly) :
  enableDirectionalConsistency config = true ->
  In (onAnomaliesDetected out) (runDetection Math_cos Math_sin config data) ->
  Forall (fun a => consistencyFrom (-1) a = true) out ->
  out = filter (fun a => isTrueAnomaly a) out ++
        filter (fun a => negb (isTrueAnomaly a)) out /\
  Forall (fun a => (0.9 <=? confidence a) = true) (filter (fun a => isTrueAnomaly a) out) /\
  Forall (fun a => (confidence a <=? 0.5) = true)
    (filter (fun a => negb (isTrueAnomaly a)) out).
Proof.
  intros Hen Hout Hfrom. apply runDetection_delivers in Hout. destruct Hout as [_ ->].
  set (out := sortedAnomalies Math_cos Math_sin config data) in *.
  assert (Hconf : forall a, In a out ->
            if isTrueAnomaly a then (0.9 <=? confidence a) = true
            else (confidence a <=? 0.5) = true).
  { intros a Ha. rewrite Forall_forall in Hfrom. specialize (Hfrom a Ha).
    apply sortedAnomalies_In in Ha. destruct Ha as (c & _ & ->).
    destruct (validate_confidence Math_cos Math_sin config data c Hen)
      as (x & Hx & _ & Ht & Hc).
    unfold consistencyFrom in Hfrom. rewrite Hx in Hfrom. rewrite Ht, Hc.
    destruct (0.5 <? x) eqn:E.
    - now apply FloatFacts.confidenceOf_coherent.
    - now apply FloatFacts.confidenceOf_incoherent. }
  assert (Hnan : Forall (fun a => is_nan (confidence a) = false) out).
  { apply Forall_forall. intros a Ha. specialize (Hconf a Ha).
    destruct (isTrueAnomaly a); now apply FloatFacts.leb_not_nan in Hconf. }
  pose proof (sortedAnomalies_descending _ _ _ _ Hnan) as Hs. fold out in Hs.
  split; [| split].
  - apply (sorted_partition _ (fun a => isTrueAnomaly a) out) in Hs; [exact Hs |].
    intros a b Hia Hib Ha Hb Hle.
    pose proof (Hconf a Hia) as Ca. pose proof (Hconf b Hib) as Cb.
    rewrite Ha in Ca. rewrite Hb in Cb.
    rewrite (NumberFacts.leb_contradiction _ _ Cb Ca) in Hle. discriminate Hle.
  - apply Forall_forall. intros a Ha. apply filter_In in Ha. destruct Ha as [Ha Ht].
    specialize (Hconf a Ha). now rewrite Ht in Hconf.
  - apply Forall_forall. intros a Ha. apply filter_In in Ha. destruct Ha as [Ha Ht].
    specialize (Hconf a Ha). apply negb_true_iff in Ht. now rewrite Ht in Hconf.
Qed.

Lemma true_anomalies_ranked_first_witness :
  map (fun a : Anomaly => (index a, isTrueAnomaly a))
    (sortedAnomalies cos_sample sin_sample defaultConfig twoEvents) =
    [(1%nat, true); (0%nat, false)] /\
  sortedAnomalies cos_sample sin_sample defaultConfig twoEvents =
    filter (fun a => isTrueAnomaly a)
      (sortedAnomalies cos_sample sin_sample defaultConfig twoEvents) ++
    filter (fun a => negb (isTrueAnomaly a))
      (sortedAnomalies cos_sample sin_sample defaultConfig twoEvents).
Proof.
  split; [reflexivity |].
  apply (true_anomalies_ranked_first cos_sample sin_sample defaultConfig twoEvents
           (sortedAnomalies cos_sample sin_sample defaultConfig twoEvents)).
  - reflexivity.
  - right. left. reflexivity.
  - repeat constructor.
Defined.

(** * The results dashboard *)

Lemma stats_nonempty (anomalies : list Anomaly) :
  anomalies <> [] ->
  ResultsDashboard.stats anomalies =
  Some {| ResultsDashboard.total := length anomalies;
          ResultsDashboard.trueCount := length (filter (fun a => isTrueAnomaly a) anomalies);
          ResultsDashboard.falseCount :=
            length (filter (fun a => negb (isTrueAnomaly a)) anomalies);
          ResultsDashboard.truePercentage :=
            (of_length (length (filter (fun a => isTrueAnomaly a) anomalies)) /
             of_length (length anomalies)) * 100;
          ResultsDashboard.avgConfidence :=
            reduce (fun sum a => sum + confidence a) 0 anomalies /
            of_length (length anomalies);
          ResultsDashboard.avgZScore :=
            reduce (fun sum (a : Anomaly) => sum + zScore a) 0 anomalies /
            of_length (length anomalies);
          ResultsDashboard.avgDirectionalConsistency :=
            reduce (fun sum a => sum + ResultsDashboard.directionalConsistencyOrZero a) 0
              (filter ResultsDashboard.hasDirectionalConsistency anomalies) /
            of_length (length anomalies) |}.
Proof. destruct anomalies; [contradiction | reflexivity]. Qed.

(** X8.  The dashboard has no statistics exactly when it has no
    anomalies.  Otherwise the total is the number of anomalies and
    every anomaly is counted once, as true or as false: the two
    counts add up to the total. *)
Theorem dashboard_counts_partition (anomalies : list Anomaly) :
  match ResultsDashboard.stats anomalies with
  | None => anomalies = []
  | Some st =>
      anomalies <> [] /\
      ResultsDashboard.total st = length anomalies /\
      (ResultsDashboard.trueCount st + ResultsDashboard.falseCount st)%nat =
        ResultsDashboard.total st /\
      ResultsDashboard.trueCount st = length (filter (fun a => isTrueAnomaly a) anomalies)
  end.
Proof.
  destruct anomalies as [| a l]; [reflexivity |].
  cbn [ResultsDashboard.stats ResultsDashboard.total ResultsDashboard.trueCount
       ResultsDashboard.falseCount].
  split; [discriminate | split; [reflexivity | split; [| reflexivity]]].
  apply filter_length.
Qed.

(** X9.  One anomaly whose confidence is [NaN] makes the average
    confidence of the dashboard [NaN]. *)
Theorem dashboard_average_confidence_nan (anomalies : list Anomaly) (a : Anomaly) :
  In a anomalies -> is_nan (confidence a) = true ->
  exists st, ResultsDashboard.stats anomalies = Some st /\
             ResultsDashboard.avgConfidence st = nan.
Proof.
  intros Hin Hnan. destruct anomalies as [| b l]; [destruct Hin |].
  eexists. split; [reflexivity |].
  cbn [ResultsDashboard.avgConfidence]. unfold reduce.
  rewrite (NumberFacts.sum_with_nan (fun a : Anomaly => confidence a) (b :: l) 0 a Hin Hnan).
  apply NumberFacts.div_nan_l.
Qed.

Lemma dashboard_average_confidence_nan_witness :
  exists st,
    ResultsDashboard.stats (sortedAnomalies cos_sample sin_sample defaultConfig gale) = Some st /\
    ResultsDashboard.avgConfidence st = nan.
Proof.
  destruct (sortedAnomalies cos_sample sin_sample defaultConfig gale) as [| a l] eqn:E;
    [discriminate E |].
  apply (dashboard_average_confidence_nan (a :: l) a).
  - left. reflexivity.
  - injection E as <- _. reflexivity.
Defined.

(** X10.  The dashboard of a run without the directional check, for a
    dataset within the length limit of an array and with at least
    one result: every anomaly counts as true, none as false, the true
    percentage is exactly 100 and the average directional consistency
    is exactly 0. *)
Theorem dashboard_without_direction
    (Math_cos Math_sin : number -> number) (config : DetectionConfig)
    (data : list ClimateData) (out : list Anomaly) :
  enableDirectionalConsistency config = false ->
  (Z.of_nat (length data) < 2 ^ 32)%Z ->
  In (onAnomaliesDetected out) (runDetection Math_cos Math_sin config data) ->
  out <> [] ->
  exists st,
    ResultsDashboard.stats out = Some st /\
    ResultsDashboard.trueCount st = ResultsDashboard.total st /\
    ResultsDashboard.falseCount st = 0%nat /\
    ResultsDashboard.truePercentage st = 100 /\
    ResultsDashboard.avgDirectionalConsistency st = 0.
Proof.
  intros Hoff Hlen Hout Hne. apply runDetection_delivers in Hout. destruct Hout as [_ ->].
  pose proof (sortedAnomalies_length Math_cos Math_sin config data) as Hle.
  set (out := sortedAnomalies Math_cos Math_sin config data) in *.
  assert (Hall : forall a, In a out ->
            isTrueAnomaly a = true /\ directionalConsistency a = None).
  { intros a Ha. apply sortedAnomalies_In in Ha. destruct Ha as (c & _ & ->).
    now apply validate_without_direction. }
  assert (Hn : (0 < Z.of_nat (length out) < 2 ^ 32)%Z).
  { destruct out; [contradiction | simpl length in *; lia]. }
  assert (Ht : filter (fun a => isTrueAnomaly a) out = out).
  { apply filter_all_true. intros a Ha. now apply Hall. }
  assert (Hf : filter (fun a => negb (isTrueAnomaly a)) out = []).
  { apply filter_all_false. intros a Ha. destruct (Hall a Ha) as [-> _]. reflexivity. }
  assert (Hd : filter ResultsDashboard.hasDirectionalConsistency out = []).
  { apply filter_all_false. intros a Ha. unfold ResultsDashboard.hasDirectionalConsistency.
    destruct (Hall a Ha) as [_ ->]. reflexivity. }
  rewrite (stats_nonempty out Hne). eexists. split; [reflexivity |].
  cbn [ResultsDashboard.total ResultsDashboard.trueCount ResultsDashboard.falseCount
       ResultsDashboard.truePercentage ResultsDashboard.avgDirectionalConsistency].
  rewrite Ht, Hf, Hd. split; [reflexivity | split; [reflexivity |]].
  split.
  - destruct (NumberFacts.of_length_finite (length out) Hn) as (m & e & Hfin).
    rewrite NumberFacts.div_self by (now exists false, m, e). reflexivity.
  - unfold reduce. simpl fold_left. apply NumberFacts.div_pzero.
    now apply NumberFacts.of_length_positive.
Qed.

Lemma dashboard_without_direction_witness :
  exists st,
    ResultsDashboard.stats (sortedAnomalies cos_sample sin_sample withoutDirection twoEvents) =
      Some st /\
    ResultsDashboard.trueCount st = ResultsDashboard.total st /\
    ResultsDashboard.falseCount st = 0%nat /\
    ResultsDashboard.truePercentage st = 100 /\
    ResultsDashboard.avgDirectionalConsistency st = 0.
Proof.
  apply (dashboard_without_direction cos_sample sin_sample withoutDirection twoEvents).
  - reflexivity.
  - reflexivity.
  - right. left. reflexivity.
  - discriminate.
Defined.

(** X11.  The detailed list shows the first twenty anomalies of the
    list the dashboard is given, all of them when there are fewer, and
    the note on the anomalies left out is rendered exactly when some
    are; this holds of every list.  For the list that a run
    delivers, when no confidence is [NaN], the anomalies shown are the
    most confident ones: no anomaly left out has a greater confidence
    than one that is shown. *)
Theorem detailed_results_most_confident
    (Math_cos Math_sin : number -> number) (config : DetectionConfig)
    (data : list ClimateData) (out : list Anomaly) :
  length (ResultsDashboard.detailedResults out) = Nat.min 20 (length out) /\
  ResultsDashboard.detailedResults out ++ skipn 20 out = out /\
  (ResultsDashboard.showsTruncationNote out = true <-> skipn 20 out <> []) /\
  (In (onAnomaliesDetected out) (runDetection Math_cos Math_sin config data) ->
   Forall (fun a => is_nan (confidence a) = false) out ->
   forall a b,
     In a (ResultsDashboard.detailedResults out) -> In b (skipn 20 out) ->
     (confidence b <=? confidence a) = true).
Proof.
  unfold ResultsDashboard.detailedResults, ResultsDashboard.showsTruncationNote.
  split; [apply length_firstn | split; [apply firstn_skipn | split]].
  - rewrite Nat.ltb_lt. split; intros H.
    + intros Hnil. apply (f_equal (@length _)) in Hnil. rewrite length_skipn in Hnil.
      simpl in Hnil. lia.
    + destruct (Nat.lt_ge_cases 20 (length out)) as [Hlt | Hge]; [exact Hlt |].
      exfalso. apply H. apply skipn_all2. exact Hge.
  - intros Hout Hnan. apply runDetection_delivers in Hout. destruct Hout as [_ ->].
    pose proof (sortedAnomalies_descending _ _ _ _ Hnan) as Hs.
    set (out := sortedAnomalies Math_cos Math_sin config data) in *.
    intros a b Ha Hb. unfold confidence_descending in Hs.
    rewrite <- (firstn_skipn 20 out) in Hs.
    exact (StronglySorted_app_inv _ _ _ Hs a b Ha Hb).
Qed.

(** Of the twenty-two results of [manyEvents] the one inside the
    cluster, the last but one in dataset order, is shown first, and
    the two left out are isolated cells. *)
Lemma detailed_results_most_confident_witness :
  let out := sortedAnomalies cos_sample sin_sample defaultConfig manyEvents in
  length out = 22%nat /\
  map (fun a : Anomaly => (index a, confidence a)) (firstn 2 out) =
    [(20%nat, 1); (0%nat, 0.3)] /\
  map (fun a : Anomaly => (index a, confidence a)) (skipn 20 out) =
    [(19%nat, 0.3); (24%nat, 0.3)] /\
  ResultsDashboard.showsTruncationNote out = true /\
  forall a b,
    In a (ResultsDashboard.detailedResults out) -> In b (skipn 20 out) ->
    (confidence b <=? confidence a) = true.
Proof.
  cbv zeta.
  assert (Hnan : forallb (fun a => negb (is_nan (confidence a)))
                   (sortedAnomalies cos_sample sin_sample defaultConfig manyEvents) = true)
    by (vm_compute; reflexivity).
  split; [vm_compute; reflexivity |].
  split; [vm_compute; reflexivity |].
  split; [vm_compute; reflexivity |].
  split; [vm_compute; reflexivity |].
  apply (detailed_results_most_confident cos_sample sin_sample defaultConfig manyEvents).
  - right. left. reflexivity.
  - apply Forall_forall. intros a Ha. rewrite forallb_forall in Hnan.
    apply negb_true_iff. exact (Hnan a Ha).
Defined.

(** X12.  Exporting no anomalies hands nothing to the browser.
    Otherwise one file [climate_anomalies_results.csv] of type
    [text/csv] is handed over: the line of column names, then for each
    anomaly, in the order of the list, a separator and its fourteen
    cells joined by commas.  The separator is not a line feed but a
    backslash followed by the letter n, so when the renderings of
    numbers contain no line feed the file contains none: it is one
    line. *)
Theorem export_is_one_line
    (Number_toString : number -> string) (Number_toFixed : number -> nat -> string)
    (anomalies : list Anomaly) :
  (forall x, occurs line_feed (Number_toString x) = false) ->
  (forall x digits, occurs line_feed (Number_toFixed x digits) = false) ->
  match ResultsDashboard.exportResults Number_toString Number_toFixed anomalies with
  | None => anomalies = []
  | Some file =>
      anomalies <> [] /\
      ResultsDashboard.download file = "climate_anomalies_results.csv"%string /\
      ResultsDashboard.type file = "text/csv"%string /\
      ResultsDashboard.content file =
        (ResultsDashboard.columns ++
         records ResultsDashboard.rowSeparator
           (map (fun a => join "," (ResultsDashboard.cells Number_toString Number_toFixed a))
                anomalies))%string /\
      Forall (fun a =>
                length (ResultsDashboard.cells Number_toString Number_toFixed a) = 14%nat)
        anomalies /\
      ResultsDashboard.rowSeparator = String backslash (String "n"%char EmptyString) /\
      occurs line_feed (ResultsDashboard.content file) = false
  end.
Proof.
  intros Hs Hf. destruct anomalies as [| a l]; [reflexivity |].
  cbn [ResultsDashboard.exportResults ResultsDashboard.download ResultsDashboard.type
       ResultsDashboard.content].
  split; [discriminate | split; [reflexivity | split; [reflexivity |]]].
  split; [apply join_records | split; [| split; [reflexivity |]]].
  { apply Forall_forall. reflexivity. }
  unfold ResultsDashboard.csvContent. apply occurs_join; [reflexivity |].
  constructor; [reflexivity |].
  apply Forall_forall. intros row Hrow. apply in_map_iff in Hrow.
  destruct Hrow as (b & <- & _). apply occurs_join; [reflexivity |].
  unfold ResultsDashboard.cells.
  repeat (constructor; [first [apply Hs | apply Hf | apply show_nat_line_feed | idtac] |]);
    [| | constructor].
  - unfold ResultsDashboard.directionalConsistencyCell.
    destruct (directionalConsistency b) as [c |]; [| reflexivity].
    destruct (Number_toFixed c 3%nat =? "")%string; [reflexivity | apply Hf].
  - now destruct (isTrueAnomaly b).
Qed.

Lemma export_is_one_line_witness :
  exists file,
    ResultsDashboard.exportResults toString_sample toFixed_sample
      (sortedAnomalies cos_sample sin_sample defaultConfig twoEvents) = Some file /\
    occurs line_feed (ResultsDashboard.content file) = false.
Proof.
  pose proof (export_is_one_line toString_sample toFixed_sample
                (sortedAnomalies cos_sample sin_sample defaultConfig twoEvents)) as H.
  destruct (ResultsDashboard.exportResults _ _ _) as [file |].
  - exists file. split; [reflexivity |]. apply H.
    + intros x. unfold toString_sample. now destruct (x =? 0).
    + intros x digits. unfold toFixed_sample. now destruct (x =? 0).
  - exfalso. assert (Hnil : sortedAnomalies cos_sample sin_sample defaultConfig twoEvents = []).
    { apply H.
      - intros x. unfold toString_sample. now destruct (x =? 0).
      - intros x digits. unfold toFixed_sample. now destruct (x =? 0). }
    discriminate Hnil.
Defined.
(** * The data overview *)

Lemma min_max_tight (field : ClimateData -> number) valid :
  valid <> [] ->
  Forall (fun d => is_nan (field d) = false) valid ->
  tight_range field valid (Math_min (map field valid)) (Math_max (map field valid)).
Proof.
  intros Hne Hv.
  assert (Hne' : map field valid <> []) by (destruct valid; [contradiction | discriminate]).
  assert (Hv' : Forall (fun x => is_nan x = false) (map field valid)).
  { apply Forall_map. exact Hv. }
  destruct (NumberFacts.Math_min_spec _ Hne' Hv') as [Hmin1 Hmin2].
  destruct (NumberFacts.Math_max_spec _ Hne' Hv') as [Hmax1 Hmax2].
  rewrite Forall_map, Forall_forall in Hmin2, Hmax2.
  split; [| split].
  - intros d Hd. split; [now apply Hmin2 | now apply Hmax2].
  - apply in_map_iff in Hmin1. destruct Hmin1 as (d & H1 & H2). now exists d.
  - apply in_map_iff in Hmax1. destruct Hmax1 as (d & H1 & H2). now exists d.
Qed.

(** X13.  The geographic bounds are missing exactly when no
    observation has a latitude and a longitude that are numbers, or
    when those observations are too many for the argument list of
    [Math.min] (the spread throws, and the [catch] branch returns
    [null]).  Otherwise the bounds are tight over the observations
    with such coordinates: every such latitude lies between [minLat]
    and [maxLat], every such longitude between [minLon] and
    [maxLon], and each of the four bounds is the coordinate of such
    an observation. *)
Theorem geographic_bounds_tight (fitsArgumentList : nat -> bool) (data : list ClimateData) :
  match DataVisualization.geographicBounds fitsArgumentList data with
  | None =>
      filter validCoordinates data = [] \/
      fitsArgumentList (length (filter validCoordinates data)) = false
  | Some b =>
      filter validCoordinates data <> [] /\
      fitsArgumentList (length (filter validCoordinates data)) = true /\
      tight_range (fun d => lat d) (filter validCoordinates data)
        (DataVisualization.minLat b) (DataVisualization.maxLat b) /\
      tight_range (fun d => lon d) (filter validCoordinates data)
        (DataVisualization.minLon b) (DataVisualization.maxLon b)
  end.
Proof.
  unfold DataVisualization.geographicBounds, DataVisualization.spread. fold validCoordinates.
  destruct data as [| d0 l0] eqn:Ed; [now left |]. rewrite <- Ed. clear Ed d0 l0.
  destruct (filter validCoordinates data) as [| d l] eqn:E; [now left |].
  rewrite <- E. rewrite !length_map.
  destruct (fitsArgumentList (length (filter validCoordinates data))); [| now right].
  assert (Hne : filter validCoordinates data <> []) by (rewrite E; discriminate).
  assert (Hv : forall d, In d (filter validCoordinates data) ->
                 is_nan (lat d) = false /\ is_nan (lon d) = false).
  { intros x Hx. apply filter_In in Hx. destruct Hx as [_ Hx].
    unfold validCoordinates, isNaN in Hx. apply andb_prop in Hx.
    destruct Hx as [H1 H2]. split; now apply negb_true_iff. }
  cbn [DataVisualization.minLat DataVisualization.maxLat
       DataVisualization.minLon DataVisualization.maxLon].
  split; [exact Hne | split; [reflexivity |]].
  split; apply min_max_tight; try assumption; apply Forall_forall; intros x Hx; now apply Hv.
Qed.

(** X14.  The overview has no statistics exactly for an empty
    dataset and for one whose years that are numbers are too many for
    the argument list of [Math.min] (the spread throws, and the
    [catch] branch returns [null]).  Otherwise: the total is the
    number of observations; the number of unique locations is at
    least one and at most the total; the date range is tight over the
    years that are numbers, and is 0 to 0 when no year is; and when
    no precipitation is [NaN] the average precipitation is the mean
    that the screening and the statistics card of the detection
    panel use. *)
Theorem overview_statistics
    (fitsArgumentList : nat -> bool) (Number_toString : number -> string)
    (data : list ClimateData) :
  match DataVisualization.stats fitsArgumentList Number_toString data with
  | None =>
      data = [] \/
      (filter validYear data <> [] /\
       fitsArgumentList (length (filter validYear data)) = false)
  | Some st =>
      data <> [] /\
      DataVisualization.totalPoints st = length data /\
      (1 <= DataVisualization.uniqueLocations st <= length data)%nat /\
      match filter validYear data with
      | [] =>
          DataVisualization.start (DataVisualization.dateRange st) = 0 /\
          DataVisualization.end_ (DataVisualization.dateRange st) = 0
      | _ :: _ =>
          fitsArgumentList (length (filter validYear data)) = true /\
          tight_range (fun d => year d) (filter validYear data)
            (DataVisualization.start (DataVisualization.dateRange st))
            (DataVisualization.end_ (DataVisualization.dateRange st))
      end /\
      (Forall (fun d => is_nan (prec d) = false) data ->
       DataVisualization.avgPrecipitation st = precMean data)
  end.
Proof.
  unfold DataVisualization.stats, DataVisualization.spread. fold validYear.
  destruct data as [| d0 l0] eqn:Ed; [now left |]. rewrite <- Ed.
  assert (Hne : data <> []) by (rewrite Ed; discriminate). clear Ed d0 l0.
  rewrite !length_map.
  assert (Hrest :
    (1 <= length (nodup string_dec
                    (map (fun d => (Number_toString (lat d) ++ "," ++
                                    Number_toString (lon d))%string) data))
       <= length data)%nat /\
    (Forall (fun d => is_nan (prec d) = false) data ->
     (if (0 <? length (filter (fun d => negb (isNaN (prec d))) data))%nat
      then reduce (fun sum d => sum + prec d) 0 (filter (fun d => negb (isNaN (prec d))) data) /
           of_length (length (filter (fun d => negb (isNaN (prec d))) data))
      else 0) = precMean data)).
  { split.
    - set (keys := map _ data).
      replace (length data) with (length keys) by apply length_map.
      apply nodup_length_bounds. unfold keys. destruct data; [contradiction | discriminate].
    - intros Hv.
      assert (Hf : filter (fun d => negb (isNaN (prec d))) data = data).
      { apply filter_all_true. intros x Hx. rewrite Forall_forall in Hv.
        unfold isNaN. now rewrite (Hv x Hx). }
      rewrite Hf. destruct data; [contradiction | reflexivity]. }
  destruct Hrest as [Hu Ha].
  destruct (filter validYear data) as [| d l] eqn:E.
  - cbn [length Nat.ltb Nat.leb].
    cbn [DataVisualization.totalPoints DataVisualization.uniqueLocations
         DataVisualization.dateRange DataVisualization.avgPrecipitation
         DataVisualization.start DataVisualization.end_].
    split; [assumption | split; [reflexivity | split; [exact Hu | split]]].
    + split; reflexivity.
    + exact Ha.
  - rewrite <- E.
    assert (Hlen : (0 <? length (filter validYear data))%nat = true) by now rewrite E.
    rewrite Hlen.
    destruct (fitsArgumentList (length (filter validYear data)));
      [| right; split; [rewrite E; discriminate | reflexivity]].
    cbn [DataVisualization.totalPoints DataVisualization.uniqueLocations
         DataVisualization.dateRange DataVisualization.avgPrecipitation
         DataVisualization.start DataVisualization.end_].
    split; [assumption | split; [reflexivity | split; [exact Hu | split]]].
    + rewrite E. rewrite <- E. split; [reflexivity |].
      apply (min_max_tight (fun d => year d)); [rewrite E; discriminate |].
      apply Forall_forall. intros x Hx. apply filter_In in Hx. destruct Hx as [_ Hx].
      unfold validYear, isNaN in Hx. now apply negb_true_iff.
    + exact Ha.
Qed.

Lemma overview_statistics_witness :
  (exists st,
     DataVisualization.stats fits_sample toString_sample twoEvents = Some st /\
     DataVisualization.avgPrecipitation st = precMean twoEvents) /\
  DataVisualization.stats (fun n => (n <=? 20)%nat) toString_sample twoEvents = None.
Proof.
  split; [| reflexivity].
  pose proof (overview_statistics fits_sample toString_sample twoEvents) as H.
  destruct (DataVisualization.stats fits_sample toString_sample twoEvents) as [st |];
    [| exfalso; destruct H as [H | [_ H]]; discriminate H].
  exists st. split; [reflexivity |].
  destruct H as (_ & _ & _ & _ & H). apply H. repeat constructor.
Defined.

(** * The upload panel *)

(** ** The loop over the lines *)

Section UploadFacts.

Variables parseFloat parseInt : string -> number.
Variable Math_round : number -> number.
Variable Number_toString : number -> string.

Local Abbreviation parseLine := (DataUpload.parseLine parseFloat parseInt).
Local Abbreviation rows := (rowsOf parseFloat parseInt).

Lemma parseLine_valid line d : parseLine line = Some d -> validRow d = true.
Proof.
  unfold DataUpload.parseLine, validRow.
  destruct (JSString.trim line =? "")%string; [discriminate |].
  destruct (9 <=? length _)%nat; [| discriminate].
  match goal with |- context [if ?b then _ else _] => destruct b eqn:E end;
    [| discriminate].
  intros H. injection H as <-. exact E.
Qed.

Lemma rowsOf_app l1 l2 : rows (l1 ++ l2) = rows l1 ++ rows l2.
Proof. apply flat_map_app. Qed.

Lemma rowsOf_valid ls : Forall (fun d => validRow d = true) (rows ls).
Proof.
  apply Forall_forall. intros d Hd. apply in_flat_map in Hd.
  destruct Hd as (line & _ & Hd).
  destruct (parseLine line) as [r |] eqn:E; [| destruct Hd].
  destruct Hd as [<- | []]. exact (parseLine_valid line r E).
Qed.

Lemma rowsOf_length ls : (length (rows ls) <= length ls)%nat.
Proof.
  induction ls as [| line ls IH]; simpl; [lia |].
  rewrite length_app. destruct (parseLine line); simpl; lia.
Qed.

Lemma nth_seq_slice (lines : list string) s n :
  (s + n <= length lines)%nat ->
  map (fun i => nth i lines ""%string) (seq s n) = firstn n (skipn s lines).
Proof.
  revert s lines. induction n as [| n IH]; intros s lines H; [reflexivity |].
  simpl seq. simpl map.
  destruct (skipn s lines) as [| x rest] eqn:E.
  - assert (length (skipn s lines) = 0%nat) by now rewrite E.
    rewrite length_skipn in *. lia.
  - simpl. f_equal.
    + rewrite <- (firstn_skipn s lines) at 1. rewrite E.
      rewrite app_nth2; rewrite length_firstn; [| lia].
      replace (s - Nat.min s (length lines))%nat with 0%nat by lia. reflexivity.
    + rewrite IH by lia. f_equal.
      replace (S s) with (1 + s)%nat by lia. rewrite <- skipn_skipn, E. reflexivity.
Qed.

Lemma parseChunk_rows lines s e data :
  (s <= e <= length lines)%nat ->
  DataUpload.parseChunk parseFloat parseInt lines s e data =
  data ++ rows (firstn (e - s) (skipn s lines)).
Proof.
  intros H. unfold DataUpload.parseChunk.
  rewrite <- (nth_seq_slice lines s (e - s)) by lia.
  generalize (seq s (e - s)). intros idx. revert data.
  induction idx as [| i idx IH]; intros data; simpl.
  - now rewrite app_nil_r.
  - rewrite IH. unfold rowsOf at 2. simpl.
    destruct (parseLine (nth i lines ""%string)); simpl.
    + now rewrite <- app_assoc.
    + reflexivity.
Qed.

Lemma parseChunks_rows fuel : forall lines s reports data,
  (length lines <= s + fuel)%nat ->
  snd (DataUpload.parseChunks parseFloat parseInt Math_round Number_toString
         fuel lines s reports data) =
  data ++ rows (skipn s lines).
Proof.
  induction fuel as [| fuel IH]; intros lines s reports data H.
  - simpl. rewrite skipn_all2 by lia. simpl. now rewrite app_nil_r.
  - cbn [DataUpload.parseChunks].
    destruct (s <? length lines)%nat eqn:E.
    + apply Nat.ltb_lt in E. rewrite IH by (unfold DataUpload.chunkSize; lia).
      rewrite parseChunk_rows by lia. rewrite <- app_assoc. f_equal.
      rewrite <- rowsOf_app. f_equal.
      destruct (Nat.le_gt_cases (s + DataUpload.chunkSize) (length lines)) as [Hle | Hgt].
      * rewrite Nat.min_l by lia.
        replace (s + DataUpload.chunkSize - s)%nat with DataUpload.chunkSize by lia.
        rewrite (Nat.add_comm s), <- skipn_skipn. apply firstn_skipn.
      * rewrite Nat.min_r by lia.
        rewrite (@skipn_all2 _ (s + DataUpload.chunkSize) lines) by lia.
        rewrite app_nil_r. apply firstn_all2. rewrite length_skipn. lia.
    + apply Nat.ltb_ge in E. simpl. rewrite skipn_all2 by lia. simpl.
      now rewrite app_nil_r.
Qed.

Lemma parseChunks_quiet fuel : forall lines s reports data,
  (length lines <= 5000)%nat ->
  fst (DataUpload.parseChunks parseFloat parseInt Math_round Number_toString
         fuel lines s reports data) = reports.
Proof.
  induction fuel as [| fuel IH]; intros lines s reports data H; [reflexivity |].
  cbn [DataUpload.parseChunks].
  destruct (s <? length lines)%nat; [| reflexivity].
  assert (E : (5000 <? length lines)%nat = false) by (apply Nat.ltb_ge; lia).
  rewrite E. now apply IH.
Qed.

End UploadFacts.

(** ** The parser *)

Section ParseFacts.

Variables parseFloat parseInt : string -> number.
Variable Math_round : number -> number.
Variable Number_toString : number -> string.

Local Abbreviation parseCSVData :=
  (DataUpload.parseCSVData parseFloat parseInt Math_round Number_toString).

Lemma split_nonempty separator s : JSString.split separator s <> [].
Proof.
  destruct s as [| c rest]; simpl; [discriminate |].
  destruct (separator c); [discriminate |].
  destruct (JSString.split separator rest); discriminate.
Qed.

Lemma parseCSVData_outcome csvText :
  DataUpload.outcome (parseCSVData csvText) =
  let lines := JSString.split JSString.lineFeed (JSString.trim csvText) in
  if DataUpload.hasValidHeaders (JSString.split JSString.commaOrTab (nth 0 lines ""%string))
  then inr (rowsOf parseFloat parseInt (tl lines))
  else inl invalidFormat.
Proof.
  unfold DataUpload.parseCSVData. cbv zeta.
  set (lines := JSString.split JSString.lineFeed (JSString.trim csvText)).
  destruct (DataUpload.hasValidHeaders _); simpl negb; cbv iota; [| reflexivity].
  pose proof (parseChunks_rows parseFloat parseInt Math_round Number_toString
                (length lines) lines 1 [] [] ltac:(lia)) as H.
  destruct (DataUpload.parseChunks _ _ _ _ _ _ _ _ _) as [reports data].
  simpl in H. cbn [DataUpload.outcome]. rewrite H.
  destruct lines; reflexivity.
Qed.

Lemma parseCSVData_quiet csvText :
  (length (JSString.split JSString.lineFeed (JSString.trim csvText)) <= 5000)%nat ->
  DataUpload.progressReports (parseCSVData csvText) = [].
Proof.
  intros Hlen. unfold DataUpload.parseCSVData. cbv zeta.
  set (lines := JSString.split JSString.lineFeed (JSString.trim csvText)) in *.
  destruct (DataUpload.hasValidHeaders _); simpl negb; cbv iota; [| reflexivity].
  pose proof (parseChunks_quiet parseFloat parseInt Math_round Number_toString
                (length lines) lines 1 [] [] Hlen) as H.
  destruct (DataUpload.parseChunks _ _ _ _ _ _ _ _ _) as [reports data].
  exact H.
Qed.

Lemma parseCSVData_valid csvText data :
  DataUpload.outcome (parseCSVData csvText) = inr data ->
  Forall (fun d => validRow d = true) data /\
  (length data < length (JSString.split JSString.lineFeed (JSString.trim csvText)))%nat.
Proof.
  rewrite parseCSVData_outcome. cbv zeta.
  pose proof (split_nonempty JSString.lineFeed (JSString.trim csvText)) as Hne.
  set (lines := JSString.split JSString.lineFeed (JSString.trim csvText)) in *.
  destruct (DataUpload.hasValidHeaders _); [| discriminate].
  intros H. injection H as <-. split; [apply rowsOf_valid |].
  pose proof (rowsOf_length parseFloat parseInt (tl lines)).
  destruct lines; [contradiction | simpl in *; lia].
Qed.

Lemma parseCSVData_settles csvText :
  match DataUpload.outcome (parseCSVData csvText) with
  | inr data =>
      Forall (fun d => validRow d = true) data /\
      (length data < length (JSString.split JSString.lineFeed (JSString.trim csvText)))%nat
  | inl e => e = invalidFormat
  end.
Proof.
  destruct (DataUpload.outcome _) as [e | data] eqn:E.
  - rewrite parseCSVData_outcome in E. cbv zeta in E.
    destruct (DataUpload.hasValidHeaders _); [discriminate | now injection E as <-].
  - now apply parseCSVData_valid.
Qed.

End ParseFacts.

(** X15.  Parsing in chunks of a thousand lines is parsing line by
    line: a text whose first line has the expected header resolves to
    the rows of its other lines, in order, each line read once; for a
    text of at most 5000 lines no progress is reported.  A text whose
    first line lacks one of the nine column names is rejected with
    the error that lists them, whatever its other lines hold, and no
    progress is reported. *)
Theorem parse_is_one_pass
    (parseFloat parseInt : string -> number) (Math_round : number -> number)
    (Number_toString : number -> string) (csvText : string) :
  let lines := JSString.split JSString.lineFeed (JSString.trim csvText) in
  let parsed := DataUpload.parseCSVData parseFloat parseInt Math_round Number_toString csvText in
  lines <> [] /\
  if DataUpload.hasValidHeaders (JSString.split JSString.commaOrTab (nth 0 lines ""%string))
  then
    DataUpload.outcome parsed = inr (rowsOf parseFloat parseInt (tl lines)) /\
    ((length lines <= 5000)%nat -> DataUpload.progressReports parsed = [])
  else
    DataUpload.outcome parsed = inl invalidFormat /\
    DataUpload.progressReports parsed = [].
Proof.
  cbv zeta. split; [apply split_nonempty |].
  rewrite parseCSVData_outcome. cbv zeta.
  destruct (DataUpload.hasValidHeaders _) eqn:E.
  - split; [reflexivity | apply parseCSVData_quiet].
  - split; [reflexivity |]. unfold DataUpload.parseCSVData. cbv zeta. now rewrite E.
Qed.

Lemma parse_is_one_pass_witness :
  DataUpload.progressReports
    (DataUpload.parseCSVData parse_sample parse_sample round_sample toString_sample
       sampleText) = [] /\
  DataUpload.outcome
    (DataUpload.parseCSVData parse_sample parse_sample round_sample toString_sample
       sampleText) =
    inr (rowsOf parse_sample parse_sample (tl sampleLines)).
Proof.
  pose proof (parse_is_one_pass parse_sample parse_sample round_sample toString_sample
                sampleText) as H.
  cbv zeta in H. destruct H as [_ H].
  match type of H with
  | (if ?c then _ else _) => replace c with true in H by reflexivity
  end.
  destruct H as [H1 H2]. split; [apply H2; vm_compute; lia | exact H1].
Defined.

(** X16.  Every row that the parser resolves to has a latitude, a
    longitude, a year and a precipitation that are numbers, and
    there are fewer rows than lines.  The only error the parser
    rejects with is the one of the header. *)
Theorem parsed_rows_are_valid
    (parseFloat parseInt : string -> number) (Math_round : number -> number)
    (Number_toString : number -> string) (csvText : string) :
  match DataUpload.outcome
          (DataUpload.parseCSVData parseFloat parseInt Math_round Number_toString csvText) with
  | inr data =>
      Forall (fun d => is_nan (lat d) = false /\ is_nan (lon d) = false /\
                       is_nan (year d) = false /\ is_nan (prec d) = false) data /\
      (length data < length (JSString.split JSString.lineFeed (JSString.trim csvText)))%nat
  | inl e => e = invalidFormat
  end.
Proof.
  pose proof (parseCSVData_settles parseFloat parseInt Math_round Number_toString csvText)
    as H.
  destruct (DataUpload.outcome _) as [e | data]; [exact H |].
  destruct H as [Hv Hl]. split; [| exact Hl].
  apply Forall_forall. intros d Hd. rewrite Forall_forall in Hv. specialize (Hv d Hd).
  unfold validRow, isNaN in Hv.
  apply andb_prop in Hv. destruct Hv as [Hv H4].
  apply andb_prop in Hv. destruct Hv as [Hv H3].
  apply andb_prop in Hv. destruct Hv as [H1 H2].
  repeat split; now apply negb_true_iff.
Qed.

(** X17.  A line is turned into a row on four of its nine cells: when
    the line is not blank, has at least nine cells, and its first,
    second, third and ninth cell parse to numbers, the row is
    pushed with whatever the month, the date, the wind speed, the
    wind direction and the humidity parse to, [NaN] included. *)
Theorem row_accepted_on_four_fields
    (parseFloat parseInt : string -> number) (line : string) :
  let values := JSString.split JSString.commaOrTab (JSString.trim line) in
  JSString.trim line <> ""%string ->
  (9 <= length values)%nat ->
  is_nan (parseFloat (nth 0 values ""%string)) = false ->
  is_nan (parseFloat (nth 1 values ""%string)) = false ->
  is_nan (parseInt (nth 2 values ""%string)) = false ->
  is_nan (parseFloat (nth 8 values ""%string)) = false ->
  DataUpload.parseLine parseFloat parseInt line =
  Some {| lat := parseFloat (nth 0 values ""%string);
          lon := parseFloat (nth 1 values ""%string);
          year := parseInt (nth 2 values ""%string);
          month := parseInt (nth 3 values ""%string);
          date := parseInt (nth 4 values ""%string);
          ws10m := parseFloat (nth 5 values ""%string);
          wd10m := parseFloat (nth 6 values ""%string);
          qv2m := parseFloat (nth 7 values ""%string);
          prec := parseFloat (nth 8 values ""%string) |}.
Proof.
  cbv zeta. intros Hne Hlen H0 H1 H2 H8. unfold DataUpload.parseLine.
  apply String.eqb_neq in Hne. rewrite Hne.
  apply Nat.leb_le in Hlen. rewrite Hlen.
  cbn [lat lon year prec]. unfold isNaN. now rewrite H0, H1, H2, H8.
Qed.

Lemma row_accepted_on_four_fields_witness :
  exists parsedRow,
    DataUpload.parseLine parse_sample parse_sample "29,79,1981,1,7,,,,0.29" = Some parsedRow /\
    is_nan (ws10m parsedRow) = true /\ is_nan (wd10m parsedRow) = true.
Proof.
  eexists. split.
  - apply (row_accepted_on_four_fields parse_sample parse_sample "29,79,1981,1,7,,,,0.29");
      try reflexivity.
    vm_compute. discriminate.
  - split; reflexivity.
Defined.

(** ** White space *)

Section TrimFacts.

Import JSString.

Lemma trimStart_white w s : allWhiteSpace w = true -> trimStart (w ++ s) = trimStart s.
Proof.
  induction w as [| c w IH]; simpl; intros H; [reflexivity |].
  apply andb_prop in H. destruct H as [Hc Hw]. rewrite Hc. now apply IH.
Qed.

Lemma trimEnd_all_white w : allWhiteSpace w = true -> trimEnd w = EmptyString.
Proof.
  induction w as [| c w IH]; simpl; intros H; [reflexivity |].
  apply andb_prop in H. destruct H as [Hc Hw]. now rewrite (IH Hw), Hc.
Qed.

Lemma trimEnd_white s w : allWhiteSpace w = true -> trimEnd (s ++ w) = trimEnd s.
Proof.
  intros H. induction s as [| c s IH]; simpl.
  - now apply trimEnd_all_white.
  - now rewrite IH.
Qed.

Lemma trimStart_app s w :
  trimStart s <> EmptyString -> trimStart (s ++ w) = (trimStart s ++ w)%string.
Proof.
  induction s as [| c s IH]; simpl; intros H; [contradiction |].
  destruct (isWhiteSpace c); [now apply IH | reflexivity].
Qed.

Lemma trimStart_all_white s : trimStart s = EmptyString -> allWhiteSpace s = true.
Proof.
  induction s as [| c s IH]; simpl; intros H; [reflexivity |].
  destruct (isWhiteSpace c); [now apply IH | discriminate H].
Qed.

Lemma allWhiteSpace_app s w :
  allWhiteSpace (s ++ w) = allWhiteSpace s && allWhiteSpace w.
Proof.
  induction s as [| c s IH]; simpl; [reflexivity |]. now rewrite IH, andb_assoc.
Qed.

Lemma trim_white before s after :
  allWhiteSpace before = true -> allWhiteSpace after = true ->
  trim (before ++ s ++ after) = trim s.
Proof.
  intros Hb Ha. unfold trim. rewrite (trimStart_white before _ Hb).
  destruct (trimStart s) as [| c t] eqn:E.
  - assert (Hs : allWhiteSpace (s ++ after) = true).
    { rewrite allWhiteSpace_app, (trimStart_all_white s E). exact Ha. }
    rewrite <- (append_nil_r (s ++ after)), (trimStart_white _ _ Hs). reflexivity.
  - rewrite trimStart_app by (rewrite E; discriminate).
    rewrite E. now apply trimEnd_white.
Qed.

End TrimFacts.

(** X18.  White space around a line, a carriage return before the
    line feed for one, does not change its row, and white space
    around the text of a file does not change what the parser does
    with it. *)
Theorem white_space_around_is_ignored
    (parseFloat parseInt : string -> number) (Math_round : number -> number)
    (Number_toString : number -> string) (before s after : string) :
  allWhiteSpace before = true -> allWhiteSpace after = true ->
  DataUpload.parseLine parseFloat parseInt (before ++ s ++ after) =
    DataUpload.parseLine parseFloat parseInt s /\
  DataUpload.parseCSVData parseFloat parseInt Math_round Number_toString
    (before ++ s ++ after) =
    DataUpload.parseCSVData parseFloat parseInt Math_round Number_toString s.
Proof.
  intros Hb Ha. unfold DataUpload.parseLine, DataUpload.parseCSVData.
  now rewrite (trim_white before s after Hb Ha).
Qed.

Lemma white_space_around_is_ignored_witness :
  DataUpload.parseLine parse_sample parse_sample
    ("" ++ "29,79,1981,1,5,2.88,107.31,6.65,0.29" ++ carriageReturn) =
  DataUpload.parseLine parse_sample parse_sample "29,79,1981,1,5,2.88,107.31,6.65,0.29".
Proof.
  apply (white_space_around_is_ignored parse_sample parse_sample round_sample toString_sample
           "" "29,79,1981,1,5,2.88,107.31,6.65,0.29" carriageReturn); reflexivity.
Defined.

(** ** The header *)

Section HeaderFacts.

Import JSString.

Lemma toLowerCase_unit_idempotent c :
  toLowerCase_unit (toLowerCase_unit c) = toLowerCase_unit c.
Proof.
  destruct c as [[] [] [] [] [] [] [] []]; reflexivity.
Qed.

Lemma toLowerCase_idempotent s : toLowerCase (toLowerCase s) = toLowerCase s.
Proof.
  induction s as [| c s IH]; simpl; [reflexivity |].
  now rewrite toLowerCase_unit_idempotent, IH.
Qed.

Lemma existsb_incl {A : Type} (f : A -> bool) l l' :
  incl l l' -> existsb f l = true -> existsb f l' = true.
Proof.
  intros Hincl H. apply existsb_exists in H. destruct H as (x & Hx & Hf).
  apply existsb_exists. exists x. split; [now apply Hincl | exact Hf].
Qed.

Lemma hasValidHeaders_incl headers headers' :
  incl headers headers' ->
  DataUpload.hasValidHeaders headers = true -> DataUpload.hasValidHeaders headers' = true.
Proof.
  intros Hincl. unfold DataUpload.hasValidHeaders. rewrite !forallb_forall.
  intros H header Hh. eapply existsb_incl; [exact Hincl | now apply H].
Qed.

Lemma forallb_pointwise {A : Type} (f g : A -> bool) l :
  (forall x, f x = g x) -> forallb f l = forallb g l.
Proof.
  intros H. induction l as [| x l IH]; simpl; [reflexivity |]. now rewrite H, IH.
Qed.

Lemma hasValidHeaders_lower headers :
  DataUpload.hasValidHeaders (map toLowerCase headers) = DataUpload.hasValidHeaders headers.
Proof.
  unfold DataUpload.hasValidHeaders. apply forallb_pointwise. intros header.
  induction headers as [| h headers IH]; simpl; [reflexivity |].
  now rewrite toLowerCase_idempotent, IH.
Qed.

End HeaderFacts.

(** X19.  The header check looks for each of the nine column names
    in some cell of the first line, as a part of the cell and in any
    letter case: a header that passes still passes with its cells in
    another order, with more cells, and in lower case.  The rows are
    read by position all the same. *)
Theorem header_check_ignores_order_and_case (headers headers' : list string) :
  incl headers headers' ->
  DataUpload.hasValidHeaders headers = true ->
  DataUpload.hasValidHeaders headers' = true /\
  DataUpload.hasValidHeaders (map JSString.toLowerCase headers') = true.
Proof.
  intros Hincl H. rewrite hasValidHeaders_lower.
  split; now apply (hasValidHeaders_incl headers headers').
Qed.

Lemma header_check_ignores_order_and_case_witness :
  DataUpload.hasValidHeaders shuffledHeaders = true /\
  DataUpload.hasValidHeaders (map JSString.toLowerCase shuffledHeaders) = true.
Proof.
  apply (header_check_ignores_order_and_case sampleHeaders shuffledHeaders).
  - intros h Hh. vm_compute in Hh. vm_compute. tauto.
  - reflexivity.
Defined.

(** ** The handlers *)

Section HandlerFacts.

Variables parseFloat parseInt : string -> number.
Variable Math_round : number -> number.
Variable Number_toString : number -> string.

Local Abbreviation parseCSVData :=
  (DataUpload.parseCSVData parseFloat parseInt Math_round Number_toString).
Local Abbreviation handleFileUpload :=
  (DataUpload.handleFileUpload parseFloat parseInt Math_round Number_toString).

Lemma deliveries_app l1 l2 : deliveries (l1 ++ l2) = deliveries l1 ++ deliveries l2.
Proof. apply flat_map_app. Qed.

Lemma statuses_app l1 l2 : statuses (l1 ++ l2) = statuses l1 ++ statuses l2.
Proof. apply flat_map_app. Qed.

Lemma deliveries_progress reports :
  deliveries (map DataUpload.setProcessingProgress reports) = [].
Proof. induction reports; [reflexivity | exact IHreports]. Qed.

Lemma statuses_progress reports :
  statuses (map DataUpload.setProcessingProgress reports) = [].
Proof. induction reports; [reflexivity | exact IHreports]. Qed.

(** What a file upload delivers and the statuses it sets. *)
Lemma handleFileUpload_summary file :
  match DataUpload.text file with
  | inr csvText =>
      match DataUpload.outcome (parseCSVData csvText) with
      | inr (d :: l) =>
          deliveries (handleFileUpload file) = [d :: l] /\
          statuses (handleFileUpload file) = [DataUpload.idle; DataUpload.success]
      | _ =>
          deliveries (handleFileUpload file) = [] /\
          statuses (handleFileUpload file) = [DataUpload.idle; DataUpload.error]
      end
  | inl _ =>
      deliveries (handleFileUpload file) = [] /\
      statuses (handleFileUpload file) = [DataUpload.idle; DataUpload.error]
  end.
Proof.
  unfold DataUpload.handleFileUpload.
  destruct (DataUpload.text file) as [thrown | csvText];
    [| destruct (DataUpload.outcome _) as [e | [| d l]]];
    rewrite !deliveries_app, !statuses_app, ?deliveries_progress, ?statuses_progress;
    destruct (10 * 1024 * 1024 <? DataUpload.size file)%N; split; reflexivity.
Qed.

(** The toast of the [catch] branch is among the effects of a failed upload. *)
Lemma handleFileUpload_failed file thrown :
  (DataUpload.text file = inl thrown \/
   exists csvText,
     DataUpload.text file = inr csvText /\
     match DataUpload.outcome (parseCSVData csvText) with
     | inl e => thrown = DataUpload.thrownError e
     | inr [] =>
         thrown = DataUpload.thrownError
                    {| DataUpload.message := "No valid data rows found in the file" |}
     | inr (_ :: _) => False
     end) ->
  exists before,
    handleFileUpload file =
    before ++ DataUpload.uploadFailed thrown ++
    [DataUpload.setIsProcessing false; DataUpload.setProcessingProgress ""].
Proof.
  unfold DataUpload.handleFileUpload. intros [H | (csvText & H & Ho)]; rewrite H.
  - eexists. rewrite app_assoc. reflexivity.
  - destruct (DataUpload.outcome _) as [e | [| d l]]; [| | destruct Ho]; subst thrown;
      eexists; rewrite (app_assoc _ _ (_ ++ _)), <- (app_assoc _ _ [_; _]),
        (app_assoc _ _ (_ ++ [_; _])); reflexivity.
Qed.

Lemma dispatch_deliveries effects s :
  fold_left Session.dispatchUpload effects s =
  fold_left (fun s uploadedData => Index.handleDataUpload uploadedData s) (deliveries effects) s.
Proof.
  revert s. induction effects as [| e effects IH]; intros s; [reflexivity |].
  destruct e; simpl; apply IH.
Qed.

End HandlerFacts.

(** X20.  An upload begins by raising the processing flag and ends by
    lowering it and clearing the progress text, whether it succeeds
    or fails.  It hands data to the page at most once, and then the
    file was read, and the data is not empty, has the four validated
    fields in every row and is what the parser resolved to for the
    text of the file; the status goes from idle to success.
    Otherwise nothing is handed over, the status goes from idle to
    error, and a destructive toast names the reason: for a file that
    could not be read, the message of the error that the read
    rejected with (or "Unknown error occurred" when that is not an
    error); for a file that was read, the header or that no row was
    valid. *)
Theorem file_upload_delivers_valid_data
    (parseFloat parseInt : string -> number) (Math_round : number -> number)
    (Number_toString : number -> string) (file : DataUpload.File) :
  let effects :=
    DataUpload.handleFileUpload parseFloat parseInt Math_round Number_toString file in
  hd_error effects = Some (DataUpload.setIsProcessing true) /\
  (exists before,
     effects = before ++ [DataUpload.setIsProcessing false; DataUpload.setProcessingProgress ""]) /\
  match deliveries effects with
  | [] =>
      statuses effects = [DataUpload.idle; DataUpload.error] /\
      exists reason,
        In (DataUpload.toast {| title := "Upload failed";
                                description := reason;
                                variant := variant_destructive |}) effects /\
        match DataUpload.text file with
        | inl (DataUpload.thrownError e) => reason = DataUpload.message e
        | inl DataUpload.thrownOther => reason = "Unknown error occurred"%string
        | inr _ =>
            reason = DataUpload.message invalidFormat \/
            reason = "No valid data rows found in the file"%string
        end
  | [data] =>
      data <> [] /\
      Forall (fun d => validRow d = true) data /\
      (exists csvText,
         DataUpload.text file = inr csvText /\
         DataUpload.outcome
           (DataUpload.parseCSVData parseFloat parseInt Math_round Number_toString csvText) =
           inr data) /\
      statuses effects = [DataUpload.idle; DataUpload.success]
  | _ :: _ :: _ => False
  end.
Proof.
  cbv zeta. split; [reflexivity | split].
  - unfold DataUpload.handleFileUpload. eexists. rewrite !app_assoc. reflexivity.
  - pose proof (handleFileUpload_summary parseFloat parseInt Math_round Number_toString file)
      as Hsum.
    pose proof (handleFileUpload_failed parseFloat parseInt Math_round Number_toString file)
      as Hfail.
    assert (Htoast : forall thrown before,
      DataUpload.handleFileUpload parseFloat parseInt Math_round Number_toString file =
        before ++ DataUpload.uploadFailed thrown ++
        [DataUpload.setIsProcessing false; DataUpload.setProcessingProgress ""] ->
      In (DataUpload.toast
            {| title := "Upload failed";
               description :=
                 match thrown with
                 | DataUpload.thrownError e => DataUpload.message e
                 | DataUpload.thrownOther => "Unknown error occurred"%string
                 end;
               variant := variant_destructive |})
         (DataUpload.handleFileUpload parseFloat parseInt Math_round Number_toString file)).
    { intros thrown before ->. apply in_or_app. right. right. left. reflexivity. }
    destruct (DataUpload.text file) as [thrown | csvText] eqn:Et.
    + destruct Hsum as [-> Hst]. split; [exact Hst |].
      destruct (Hfail thrown (or_introl eq_refl)) as (before & Hb).
      eexists. split; [exact (Htoast thrown before Hb) |].
      destruct thrown; reflexivity.
    + pose proof (parseCSVData_settles parseFloat parseInt Math_round Number_toString csvText)
        as Hvalid.
      destruct (DataUpload.outcome _) as [e | [| d l]] eqn:E.
      * destruct Hsum as [-> Hst]. split; [exact Hst |].
        destruct (Hfail (DataUpload.thrownError e)) as (before & Hb).
        { right. exists csvText. split; [reflexivity |]. now rewrite E. }
        eexists. split; [exact (Htoast _ before Hb) |]. left. cbn. now rewrite Hvalid.
      * destruct Hsum as [-> Hst]. split; [exact Hst |].
        destruct (Hfail (DataUpload.thrownError
                           {| DataUpload.message := "No valid data rows found in the file" |}))
          as (before & Hb).
        { right. exists csvText. split; [reflexivity |]. now rewrite E. }
        eexists. split; [exact (Htoast _ before Hb) |]. now right.
      * destruct Hsum as [-> Hst].
        split; [discriminate | split; [apply Hvalid | split; [| exact Hst]]].
        exists csvText. split; [reflexivity | exact E].
Qed.

(** A file that cannot be read, a file without the header, and the
    sample file. *)
Lemma file_upload_delivers_valid_data_witness :
  let upload := DataUpload.handleFileUpload parse_sample parse_sample round_sample toString_sample in
  In (DataUpload.toast {| title := "Upload failed";
                          description := "The requested file could not be read";
                          variant := variant_destructive |}) (upload unreadableFile) /\
  deliveries (upload unreadableFile) = [] /\
  In (DataUpload.toast {| title := "Upload failed";
                          description := DataUpload.message invalidFormat;
                          variant := variant_destructive |}) (upload exportedFile) /\
  length (deliveries (upload sampleFile)) = 1%nat.
Proof.
  cbv zeta.
  pose proof (file_upload_delivers_valid_data parse_sample parse_sample round_sample
                toString_sample unreadableFile) as (_ & _ & H).
  cbv zeta in H.
  destruct (deliveries (DataUpload.handleFileUpload parse_sample parse_sample round_sample
                          toString_sample unreadableFile)) as [| d [| d' l]] eqn:E;
    [| vm_compute in E; discriminate E | destruct H].
  destruct H as (_ & reason & Hin & Hr). cbn in Hr. subst reason.
  split; [exact Hin | split; [reflexivity |]].
  split; [| reflexivity].
  vm_compute. tauto.
Defined.

Section DropFacts.

Lemma find_first {A : Type} (f : A -> bool) l :
  match find f l with
  | Some x =>
      exists before after,
        l = before ++ x :: after /\ Forall (fun y => f y = false) before /\ f x = true
  | None => Forall (fun y => f y = false) l
  end.
Proof.
  induction l as [| y l IH]; simpl; [constructor |].
  destruct (f y) eqn:E.
  - exists [], l. repeat split; [constructor | exact E].
  - destruct (find f l) as [x |].
    + destruct IH as (before & after & -> & Hb & Hx).
      exists (y :: before), after. repeat split; [now constructor | exact Hx].
    + now constructor.
Qed.

End DropFacts.

(** X21.  A drop lowers the dragging flag and uploads the first of
    the dropped files that has the type [text/csv] or a name ending
    in [.csv]; the files before it and after it are not read.  A drop
    without such a file is answered with a destructive toast and
    reaches neither the parser nor the page.  The file input makes no
    such test: it uploads the first chosen file, whatever its type
    and name. *)
Theorem drop_uploads_first_csv
    (parseFloat parseInt : string -> number) (Math_round : number -> number)
    (Number_toString : number -> string) (files : list DataUpload.File) :
  let handleFileUpload :=
    DataUpload.handleFileUpload parseFloat parseInt Math_round Number_toString in
  let handleDrop := DataUpload.handleDrop parseFloat parseInt Math_round Number_toString in
  ((exists before csvFile after,
      files = before ++ csvFile :: after /\
      Forall (fun file => isCsv file = false) before /\
      isCsv csvFile = true /\
      handleDrop files = DataUpload.setIsDragging false :: handleFileUpload csvFile) \/
   (Forall (fun file => isCsv file = false) files /\
    handleDrop files = [DataUpload.setIsDragging false; DataUpload.toast invalidFileType] /\
    deliveries (handleDrop files) = [])) /\
  DataUpload.handleFileInput parseFloat parseInt Math_round Number_toString files =
    match files with
    | file :: _ => handleFileUpload file
    | [] => []
    end.
Proof.
  cbv zeta. split; [| reflexivity]. unfold DataUpload.handleDrop. fold isCsv.
  pose proof (find_first isCsv files) as H.
  change (fun file : DataUpload.File =>
            ((DataUpload.type file =? "text/csv")%string ||
             JSString.endsWith (DataUpload.name file) ".csv")) with isCsv.
  destruct (find isCsv files) as [csvFile |].
  - left. destruct H as (before & after & Hf & Hb & Hc).
    exists before, csvFile, after. repeat split; assumption.
  - right. split; [exact H | split; reflexivity].
Qed.

(** * The page *)

Section PageFacts.

Variables Math_cos Math_sin : number -> number.

Lemma clickRunDetection_empty config s :
  Index.data s = [] -> Index.clickRunDetection Math_cos Math_sin config s = s.
Proof. intros H. unfold Index.clickRunDetection. rewrite H. reflexivity. Qed.

Lemma clickRunDetection_nonempty config s :
  Index.data s <> [] ->
  Index.clickRunDetection Math_cos Math_sin config s =
  Index.handleAnomaliesDetected (sortedAnomalies Math_cos Math_sin config (Index.data s)) s.
Proof.
  intros H. unfold Index.clickRunDetection.
  destruct (Index.data s) as [| d l] eqn:E; [contradiction | reflexivity].
Qed.

End PageFacts.

(** X22.  A click on Run Detection with no data leaves the page as it
    is.  With data it keeps the data, replaces the anomalies by the
    results of the run, one for each flagged observation, and opens
    the results tab, also when there are no results; when none of
    the confidences is [NaN] the anomalies are in descending order of
    confidence, those of equal confidence in dataset order.  The toast
    that reports the run is not destructive, and the two numbers it
    names are the total and the true count of the dashboard. *)
Theorem run_detection_on_page
    (Math_cos Math_sin : number -> number) (config : DetectionConfig) (s : Index.State) :
  match Index.data s with
  | [] => Index.clickRunDetection Math_cos Math_sin config s = s
  | _ :: _ =>
      let s' := Index.clickRunDetection Math_cos Math_sin config s in
      Index.data s' = Index.data s /\
      Permutation (Index.anomalies s')
        (validatedAnomalies Math_cos Math_sin config (Index.data s)) /\
      (Forall (fun a => is_nan (confidence a) = false) (Index.anomalies s') ->
       confidence_descending (Index.anomalies s') /\
       confidence_stable (Index.anomalies s')) /\
      Index.activeTab s' = "results"%string /\
      exists t,
        In (toast t) (runDetection Math_cos Math_sin config (Index.data s)) /\
        variant t = variant_default /\
        match ResultsDashboard.stats (Index.anomalies s') with
        | Some st =>
            description t =
              ("Found " ++ show_nat (ResultsDashboard.total st) ++ " anomalies (" ++
               show_nat (ResultsDashboard.trueCount st) ++ " marked as true)")%string
        | None =>
            description t = "Found 0 anomalies (0 marked as true)"%string
        end
  end.
Proof.
  destruct (Index.data s) as [| d l] eqn:E.
  - now apply clickRunDetection_empty.
  - cbv zeta. rewrite clickRunDetection_nonempty by (rewrite E; discriminate).
    rewrite E. cbn [Index.handleAnomaliesDetected Index.data Index.anomalies Index.activeTab].
    split; [exact E | split; [apply sortedAnomalies_perm | split; [| split; [reflexivity |]]]].
    + intros Hnan. now apply sortedAnomalies_ranked.
    + eexists. split; [right; right; left; reflexivity |]. split; [reflexivity |].
      cbn [description].
      destruct (sortedAnomalies Math_cos Math_sin config (d :: l)) as [| a out] eqn:Eo.
      * reflexivity.
      * rewrite <- Eo. rewrite stats_nonempty by (rewrite Eo; discriminate).
        reflexivity.
Qed.

Lemma run_detection_on_page_witness :
  let s' :=
    Index.clickRunDetection cos_sample sin_sample defaultConfig
      {| Index.data := tiedEvents; Index.anomalies := []; Index.activeTab := "detect" |} in
  map (fun a : Anomaly => (index a, confidence a)) (Index.anomalies s') =
    [(1%nat, 1); (0%nat, 0.3); (5%nat, 0.3)] /\
  confidence_descending (Index.anomalies s') /\
  confidence_stable (Index.anomalies s').
Proof.
  cbv zeta. split; [reflexivity |].
  pose proof (run_detection_on_page cos_sample sin_sample defaultConfig
                {| Index.data := tiedEvents; Index.anomalies := [];
                   Index.activeTab := "detect" |}) as H.
  cbv zeta in H. destruct H as (_ & _ & H & _).
  apply H. repeat constructor.
Defined.

Section SessionFacts.

Variables parseFloat parseInt : string -> number.
Variable Math_round : number -> number.
Variable Number_toString : number -> string.
Variables Math_cos Math_sin : number -> number.

Local Abbreviation parseCSVData :=
  (DataUpload.parseCSVData parseFloat parseInt Math_round Number_toString).
Local Abbreviation chooseFile :=
  (Session.chooseFile parseFloat parseInt Math_round Number_toString).
Local Abbreviation run :=
  (Session.run parseFloat parseInt Math_round Number_toString Math_cos Math_sin).
Local Abbreviation step :=
  (Session.step parseFloat parseInt Math_round Number_toString Math_cos Math_sin).

Lemma chooseFile_outcome file s :
  chooseFile file s =
  match DataUpload.text file with
  | inr csvText =>
      match DataUpload.outcome (parseCSVData csvText) with
      | inr (d :: l) => Index.handleDataUpload (d :: l) s
      | _ => s
      end
  | inl _ => s
  end.
Proof.
  unfold Session.chooseFile. rewrite dispatch_deliveries.
  pose proof (handleFileUpload_summary parseFloat parseInt Math_round Number_toString file)
    as Hsum.
  destruct (DataUpload.text file) as [thrown | csvText];
    [| destruct (DataUpload.outcome _) as [e | [| d l]]];
    destruct Hsum as [-> _]; reflexivity.
Qed.

Lemma run_snoc events e : run (events ++ [e]) = step (run events) e.
Proof. unfold Session.run. now rewrite fold_left_app. Qed.

End SessionFacts.

Lemma step_keeps_data parseFloat parseInt Math_round Number_toString Math_cos Math_sin s e :
  Index.data s <> [] ->
  Index.data (Session.step parseFloat parseInt Math_round Number_toString Math_cos Math_sin s e)
    <> [].
Proof.
  intros H. destruct e as [file | config | value]; cbn [Session.step].
  - rewrite chooseFile_outcome.
    destruct (DataUpload.text file) as [thrown | csvText]; [assumption |].
    destruct (DataUpload.outcome _) as [err | [| d l]]; try assumption. discriminate.
  - rewrite clickRunDetection_nonempty by assumption. exact H.
  - exact H.
Qed.

(** X23.  At every moment of a session the data of the page is empty
    or is what the parser resolved to for the text of a file chosen
    earlier, with the four validated fields of every row numbers; and
    the anomalies of the page are empty or the results of an earlier
    run on the data the page had at that run, which need not be the
    data it has now.  When none of their confidences is [NaN] the
    anomalies are in descending order of confidence, those of equal
    confidence in the order of that data. *)
Theorem session_data_and_anomalies
    (parseFloat parseInt : string -> number) (Math_round : number -> number)
    (Number_toString : number -> string) (Math_cos Math_sin : number -> number)
    (events : list Session.Event) :
  let run := Session.run parseFloat parseInt Math_round Number_toString Math_cos Math_sin in
  (Index.data (run events) = [] \/
   exists before file after csvText,
     events = before ++ Session.fileChosen file :: after /\
     DataUpload.text file = inr csvText /\
     DataUpload.outcome
       (DataUpload.parseCSVData parseFloat parseInt Math_round Number_toString csvText) =
       inr (Index.data (run events)) /\
     Forall (fun d => validRow d = true) (Index.data (run events))) /\
  (Index.anomalies (run events) = [] \/
   exists before config after,
     events = before ++ Session.runClicked config :: after /\
     Index.data (run before) <> [] /\
     Permutation (Index.anomalies (run events))
       (validatedAnomalies Math_cos Math_sin config (Index.data (run before)))) /\
  (Forall (fun a => is_nan (confidence a) = false) (Index.anomalies (run events)) ->
   confidence_descending (Index.anomalies (run events)) /\
   confidence_stable (Index.anomalies (run events))).
Proof.
  cbv zeta. induction events as [| e events IH] using rev_ind.
  { split; [now left | split; [now left |]]. intros _. split; constructor. }
  rewrite run_snoc.
  set (s := Session.run parseFloat parseInt Math_round Number_toString Math_cos Math_sin
              events) in *.
  destruct IH as (IHd & IHa & IHr).
  assert (Kd : forall s', Index.data s' = Index.data s ->
            Index.data s' = [] \/
            exists before file after csvText,
              events ++ [e] = before ++ Session.fileChosen file :: after /\
              DataUpload.text file = inr csvText /\
              DataUpload.outcome
                (DataUpload.parseCSVData parseFloat parseInt Math_round Number_toString
                   csvText) = inr (Index.data s') /\
              Forall (fun d => validRow d = true) (Index.data s')).
  { intros s' ->. destruct IHd as [IHd | (before & file & after & csvText & -> & H0 & H1 & H2)];
      [now left | right].
    exists before, file, (after ++ [e]), csvText.
    split; [now rewrite <- app_assoc | now repeat split]. }
  assert (Ka : forall s', Index.anomalies s' = Index.anomalies s ->
            (Index.anomalies s' = [] \/
             exists before config after,
               events ++ [e] = before ++ Session.runClicked config :: after /\
               Index.data (Session.run parseFloat parseInt Math_round Number_toString
                             Math_cos Math_sin before) <> [] /\
               Permutation (Index.anomalies s')
                 (validatedAnomalies Math_cos Math_sin config
                    (Index.data (Session.run parseFloat parseInt Math_round Number_toString
                                   Math_cos Math_sin before)))) /\
            (Forall (fun a => is_nan (confidence a) = false) (Index.anomalies s') ->
             confidence_descending (Index.anomalies s') /\
             confidence_stable (Index.anomalies s'))).
  { intros s' ->. split; [| exact IHr].
    destruct IHa as [IHa | (before & config & after & -> & H1 & H2)];
      [now left | right].
    exists before, config, (after ++ [e]). split; [now rewrite <- app_assoc | now split]. }
  destruct e as [file | config | value]; cbn [Session.step].
  - rewrite chooseFile_outcome.
    destruct (DataUpload.text file) as [thrown | csvText] eqn:Et.
    { split; [now apply Kd | now apply Ka]. }
    pose proof (parseCSVData_settles parseFloat parseInt Math_round Number_toString csvText)
      as Hvalid.
    destruct (DataUpload.outcome _) as [err | [| d l]] eqn:E.
    + split; [now apply Kd | now apply Ka].
    + split; [now apply Kd | now apply Ka].
    + split; [| now apply Ka]. right.
      exists events, file, [], csvText. split; [reflexivity |].
      cbn [Index.handleDataUpload Index.data].
      split; [exact Et | split; [exact E | apply Hvalid]].
  - destruct (Index.data s) as [| d l] eqn:E.
    + rewrite clickRunDetection_empty by assumption. split; [now apply Kd | now apply Ka].
    + rewrite clickRunDetection_nonempty by (rewrite E; discriminate).
      split; [now apply Kd |]. cbn [Index.handleAnomaliesDetected Index.anomalies].
      split.
      * right. exists events, config, []. split; [reflexivity |]. fold s. rewrite E.
        split; [discriminate | apply sortedAnomalies_perm].
      * intros Hnan. now apply sortedAnomalies_ranked.
  - split; [now apply Kd | now apply Ka].
Qed.

Lemma session_data_and_anomalies_witness :
  let s :=
    Session.run parse_sample parse_sample round_sample toString_sample cos_sample sin_sample
      [Session.fileChosen sampleFile; Session.runClicked lowThreshold;
       Session.fileChosen unreadableFile] in
  map (fun d => prec d) (Index.data s) = [0.29; 6.21; 0.29] /\
  map (fun a : Anomaly => (index a, confidence a)) (Index.anomalies s) =
    [(0%nat, 0.3); (1%nat, 0.3); (2%nat, 0.3)] /\
  confidence_stable (Index.anomalies s).
Proof.
  cbv zeta. split; [reflexivity | split; [reflexivity |]].
  pose proof (session_data_and_anomalies parse_sample parse_sample round_sample toString_sample
                cos_sample sin_sample
                [Session.fileChosen sampleFile; Session.runClicked lowThreshold;
                 Session.fileChosen unreadableFile]) as H.
  cbv zeta in H. destruct H as (_ & _ & H).
  apply H. vm_compute. repeat constructor.
Defined.

(** X24.  A session does not lose its data: once a file has been
    accepted the data of the page stays non-empty, whatever is
    chosen or clicked afterwards, and a run no longer answers with
    the toast of the empty dataset. *)
Theorem session_keeps_data
    (parseFloat parseInt : string -> number) (Math_round : number -> number)
    (Number_toString : number -> string) (Math_cos Math_sin : number -> number)
    (before after : list Session.Event) (config : DetectionConfig) :
  let run := Session.run parseFloat parseInt Math_round Number_toString Math_cos Math_sin in
  Index.data (run before) <> [] ->
  Index.data (run (before ++ after)) <> [] /\
  ~ In (toast noDataToast)
       (runDetection Math_cos Math_sin config (Index.data (run (before ++ after)))).
Proof.
  cbv zeta. intros H.
  assert (Hne : Index.data (Session.run parseFloat parseInt Math_round Number_toString
                              Math_cos Math_sin (before ++ after)) <> []).
  { induction after as [| e after IH] using rev_ind.
    - now rewrite app_nil_r.
    - rewrite app_assoc, run_snoc. now apply step_keeps_data. }
  split; [exact Hne |].
  revert Hne. generalize (Index.data
    (Session.run parseFloat parseInt Math_round Number_toString Math_cos Math_sin
       (before ++ after))).
  intros [| d l] Hne; [contradiction |].
  intros [Hin | [Hin | [Hin | [Hin | []]]]]; discriminate Hin.
Qed.

Lemma session_keeps_data_witness :
  Index.data
    (Session.run parse_sample parse_sample round_sample toString_sample cos_sample sin_sample
       ([Session.fileChosen sampleFile] ++
        [Session.fileChosen exportedFile; Session.runClicked defaultConfig])) <> [].
Proof.
  apply (session_keeps_data parse_sample parse_sample round_sample toString_sample
           cos_sample sin_sample [Session.fileChosen sampleFile]
           [Session.fileChosen exportedFile; Session.runClicked defaultConfig] defaultConfig).
  vm_compute. discriminate.
Defined.
